(** * BehaviorTree.CPP: the XML validator and the tree builder

    A shallow embedding of [src/src/xml_parsing.cpp]: [XMLParser::verifyXML]
    (the structural validator) and [XMLParser::instantiateTree] (the builder),
    followed by the properties of the specification that concern them. *)

From Stdlib Require Import ZArith Ascii String DecimalString Bool Lia.
From stdpp Require Import base option list gmap strings.

Set Warnings "-register-all".
Open Scope string_scope.
Open Scope list_scope.

(** * The document, as tinyxml2 presents it to the code

    The code reads an element through [Name()], [Attribute(name)],
    [GetLineNum()], [FirstChildElement()] and [NextSiblingElement()]. *)

Inductive XMLElement : Type :=
  mkXMLElement {
    Name : string;
    Attributes : list (string * string);
    GetLineNum : Z;
    ChildElements : list XMLElement
  }.

(** [doc_.Error()] and [doc_.RootElement()] (null when the document is empty). *)
Record XMLDocument : Type :=
  mkXMLDocument {
    Error : bool;
    RootElement : option XMLElement
  }.

Section XMLElement_induction.
Variable P : XMLElement -> Prop.
Hypothesis step : forall name attrs line children,
    Forall P children -> P (mkXMLElement name attrs line children).

Fixpoint XMLElement_nested_ind (e : XMLElement) : P e :=
  match e with
  | mkXMLElement name attrs line children =>
      step name attrs line children
        ((fix all (l : list XMLElement) : Forall P l :=
            match l with
            | [] => List.Forall_nil P
            | c :: l' => @List.Forall_cons _ P c l' (XMLElement_nested_ind c) (all l')
            end) children)
  end.
End XMLElement_induction.

(** [strcmp(str1, str2) == 0] *)
Definition strEqual (str1 str2 : string) : bool := String.eqb str1 str2.

Fixpoint find_attribute (name : string) (attrs : list (string * string)) : option string :=
  match attrs with
  | [] => None
  | (k, v) :: rest => if strEqual k name then Some v else find_attribute name rest
  end.

(** [node->Attribute(name)]: the value, or null ([None]) when absent. *)
Definition Attribute (name : string) (node : XMLElement) : option string :=
  find_attribute name (Attributes node).

(** [FirstChildElement()] without a name filter. *)
Definition FirstChildElement (node : XMLElement) : option XMLElement :=
  head (ChildElements node).

(** A position in a sibling list: the first element called [name] together
    with the siblings that follow it.  [FirstChildElement(name)] is
    [first_named name (ChildElements parent)] and [NextSiblingElement(name)]
    is [first_named name] of the followers. *)
Fixpoint first_named (name : string) (siblings : list XMLElement)
  : option (XMLElement * list XMLElement) :=
  match siblings with
  | [] => None
  | e :: rest => if strEqual (Name e) name then Some (e, rest) else first_named name rest
  end.

(** The elements visited by
    [for (n = p->FirstChildElement(name); n; n = n->NextSiblingElement(name))]. *)
Definition elements_named (name : string) (siblings : list XMLElement) : list XMLElement :=
  List.filter (fun e => strEqual (Name e) name) siblings.

(** The lambda [ChildrenCount]. *)
Definition ChildrenCount (parent_node : XMLElement) : Z :=
  Z.of_nat (length (ChildElements parent_node)).

(** * verifyXML

    The messages are built with [sprintf] into a buffer of 256 characters;
    the texts are constants of at most 65 characters, so the buffer is
    never exceeded and the message is the text that was formatted.
    [ChildrenCount] counts in an [int]; the count is kept exact here. *)

(** The two variables captured by reference by the lambdas of [verifyXML]. *)
Record Report : Type :=
  mkReport {
    error_messages : list string;
    is_valid : bool
  }.

(** [sprintf(buffer, "Error at line %d: -> %s", line_num, text)] *)
Definition format_error (line_num : Z) (text : string) : string :=
  "Error at line " +:+ NilZero.string_of_int (Z.to_int line_num) +:+ ": -> " +:+ text.

(** The lambda [AppendError]. *)
Definition AppendError (line_num : Z) (text : string) (r : Report) : Report :=
  {| error_messages := error_messages r ++ [format_error line_num text];
     is_valid := false |}.

(** [if (cond) { AppendError(node->GetLineNum(), text); }] *)
Definition error_if (cond : bool) (node : XMLElement) (text : string) (r : Report) : Report :=
  if cond then AppendError (GetLineNum node) text r else r.

Definition has_attribute (name : string) (node : XMLElement) : bool :=
  match Attribute name node with Some _ => true | None => false end.

(** The body of the loop over the children of the root (lines 85-107).
    The attributes looked up inside the [Parameter] loop are those of [node],
    once per [Parameter] child of the root. *)
Definition check_declaration (xml_root node : XMLElement) (r : Report) : Report :=
  let name := Name node in
  if strEqual name "Action" || strEqual name "Decorator"
     || strEqual name "SubTree" || strEqual name "Condition"
  then
    let r := error_if (negb (has_attribute "ID" node)) node
               "Error at line %d: -> The attribute [ID] is mandatory" r in
    fold_left
      (fun r (param_node : XMLElement) =>
         error_if (negb (has_attribute "label" node) || negb (has_attribute "type" node))
           node "The node <Parameter> requires the attributes [type] and [label]" r)
      (elements_named "Parameter" (ChildElements xml_root)) r
  else r.

(** The root-level block of [verifyXML] (lines 72-109). *)
Definition metamodel_checks (xml_root : XMLElement) (r : Report) : Report :=
  let meta_root := first_named "TreeNodesModel" (ChildElements xml_root) in
  let meta_sibling :=
    match meta_root with
    | Some (_, following) => first_named "TreeNodesModel" following
    | None => None
    end in
  let r :=
    match meta_sibling with
    | Some (sibling, _) =>
        AppendError (GetLineNum sibling) " Only a single node <TreeNodesModel> is supported" r
    | None => r
    end in
  match meta_root with
  | Some _ =>
      fold_left (fun r node => check_declaration xml_root node r) (ChildElements xml_root) r
  | None => r
  end.

(** The if-chain of the lambda [recursiveStep] (lines 117-174): the checks
    on [node] itself. *)
Definition check_node (node : XMLElement) (r : Report) : Report :=
  let children_count := ChildrenCount node in
  let name := Name node in
  if strEqual name "Decorator" then
    let r := error_if (negb (children_count =? 1)%Z) node
               "The node <Decorator> must have exactly 1 child" r in
    error_if (negb (has_attribute "ID" node)) node
      "The node <Decorator> must have the attribute [ID]" r
  else if strEqual name "Action" then
    let r := error_if (negb (children_count =? 0)%Z) node
               "The node <Action> must not have any child" r in
    error_if (negb (has_attribute "ID" node)) node
      "The node <Action> must have the attribute [ID]" r
  else if strEqual name "Condition" then
    let r := error_if (negb (children_count =? 0)%Z) node
               "The node <Condition> must not have any child" r in
    error_if (negb (has_attribute "ID" node)) node
      "The node <Condition> must have the attribute [ID]" r
  else if strEqual name "Sequence" || strEqual name "SequenceStar"
          || strEqual name "Fallback" || strEqual name "FallbackStar" then
    error_if (children_count =? 0)%Z node "A Control node must have at least 1 child" r
  else if strEqual name "SubTree" then
    let r := error_if (children_count >? 0)%Z node
               "The <SubTree> node must have no children" r in
    error_if (negb (has_attribute "ID" node)) node
      "The node <SubTree> must have the attribute [ID]" r
  else
    AppendError (GetLineNum node) "Node not recognized" r.

(** The lambda [recursiveStep]: the checks on the node, then the recursion
    over its child elements in document order. *)
Fixpoint recursiveStep (node : XMLElement) (r : Report) : Report :=
  match node with
  | mkXMLElement _ _ _ children =>
      fold_left (fun r child => recursiveStep child r) children (check_node node r)
  end.

(** The body of the loop over the [BehaviorTree] children of the root
    (lines 185-192). *)
Definition check_bt_root (bt_root : XMLElement) (r : Report) : Report :=
  if negb (ChildrenCount bt_root =? 1)%Z then
    AppendError (GetLineNum bt_root) "The node <BehaviorTree> must have exactly 1 child" r
  else
    match FirstChildElement bt_root with
    | Some child => recursiveStep child r
    | None => r
    end.

(** [XMLParser::verifyXML].  The vector passed by reference is cleared on
    entry; the function returns the flag and the vector as it leaves it. *)
Definition verifyXML (doc_ : XMLDocument) (error_messages0 : list string)
  : bool * list string :=
  if Error doc_ then (false, ["The XML was not correctly loaded"])
  else
    match RootElement doc_ with
    | None => (false, ["The XML must have a root node called <root>"])
    | Some xml_root =>
        if negb (strEqual (Name xml_root) "root")
        then (false, ["The XML must have a root node called <root>"])
        else
          let r := metamodel_checks xml_root (mkReport [] true) in
          let r := fold_left (fun r bt_root => check_bt_root bt_root r)
                     (elements_named "BehaviorTree" (ChildElements xml_root)) r in
          (is_valid r, error_messages r)
    end.

(** * The nodes the builder creates

    [TreeNodePtr] is modelled as a handle into the store of allocated nodes;
    the null pointer is [None].  Only what the builder observes of a node is
    kept: the class it was instantiated with (which decides the two
    [dynamic_cast]s), its registration ID, its instance name, its parameters
    and the children attached to it. *)

Inductive NodeKind : Type :=
| ActionNode
| ConditionNode
| ControlNode
| DecoratorNode
| DecoratorSubtreeNode.

(** [dynamic_cast<ControlNode*>] succeeds. *)
Definition is_ControlNode (k : NodeKind) : bool :=
  match k with ControlNode => true | _ => false end.

(** [dynamic_cast<DecoratorNode*>] succeeds: the Subtree decorator is
    structurally a Decorator. *)
Definition is_DecoratorNode (k : NodeKind) : bool :=
  match k with DecoratorNode | DecoratorSubtreeNode => true | _ => false end.

(** [dynamic_cast<DecoratorSubtreeNode*>] succeeds. *)
Definition is_DecoratorSubtreeNode (k : NodeKind) : bool :=
  match k with DecoratorSubtreeNode => true | _ => false end.

Record TreeNode : Type :=
  mkTreeNode {
    registrationName : string;
    instanceName : string;
    parameters : gmap string string;
    kind : NodeKind;
    children : list nat
  }.

Definition with_children (n : TreeNode) (cs : list nat) : TreeNode :=
  {| registrationName := registrationName n;
     instanceName := instanceName n;
     parameters := parameters n;
     kind := kind n;
     children := cs |}.

(** Modelled from the spec: the node factory is an external collaborator
    (its source is not part of [src/]).  It is "used only to look up a
    constructor by name": a registry from registration ID to the class of
    node its constructor makes. *)
Record BehaviorTreeFactory : Type :=
  mkFactory { builders : gmap string NodeKind }.

Inductive Exception : Type :=
| runtime_error (what : string)        (* thrown by instantiateTree itself *)
| unknown_ID (ID : string)             (* thrown by the factory *)
| child_already_set (decorator : nat). (* thrown by DecoratorNode::setChild *)

(** What the caller of [instantiateTree] can observe: the allocated nodes,
    the vector [nodes] it passed by reference, and what was written to
    [std::cerr]. *)
Record World : Type :=
  mkWorld {
    heap : list TreeNode;
    nodes : list nat;
    cerr : list string
  }.

(** The ways a call can end.  [Undefined] is the dereference of a null
    pointer (or the construction of a [std::string] from one); [OutOfFuel]
    is the model's bound on the depth of subtree expansion being reached. *)
Inductive Outcome (A : Type) : Type :=
| Returned (a : A)
| Thrown (e : Exception)
| Undefined
| OutOfFuel.
Arguments Returned {A} a.
Arguments Thrown {A} e.
Arguments Undefined {A}.
Arguments OutOfFuel {A}.

Definition Build (A : Type) : Type := World -> Outcome A * World.

Definition ret {A} (a : A) : Build A := fun w => (Returned a, w).

Definition bind {A B} (c : Build A) (k : A -> Build B) : Build B :=
  fun w =>
    match c w with
    | (Returned a, w') => k a w'
    | (Thrown e, w') => (Thrown e, w')
    | (Undefined, w') => (Undefined, w')
    | (OutOfFuel, w') => (OutOfFuel, w')
    end.

Definition throw {A} (e : Exception) : Build A := fun w => (Thrown e, w).
Definition undefined {A} : Build A := fun w => (Undefined, w).
Definition out_of_fuel {A} : Build A := fun w => (OutOfFuel, w).

Notation "x <~ c1 ;; c2" := (bind c1 (fun x => c2))
  (at level 100, c1 at next level, right associativity).
Notation "c1 ;;; c2" := (bind c1 (fun _ => c2))
  (at level 100, right associativity).

Definition for_each {A} (body : A -> Build unit) : list A -> Build unit :=
  fix loop (l : list A) : Build unit :=
    match l with
    | [] => ret tt
    | a :: l' => body a ;;; loop l'
    end.

(** Modelled from the spec: [BehaviorTreeFactory::instantiateTreeNode] is not
    under [src/].  "instantiate(ID, instanceName, params) -> Node, fails with
    an unknown-ID error if ID is not registered". *)
Definition instantiateTreeNode (factory : BehaviorTreeFactory)
    (ID name : string) (params : gmap string string) : Build nat :=
  fun w =>
    match builders factory !! ID with
    | None => (Thrown (unknown_ID ID), w)
    | Some k =>
        (Returned (length (heap w)),
         {| heap := heap w ++ [mkTreeNode ID name params k []];
            nodes := nodes w;
            cerr := cerr w |})
    end.

(** [nodes.push_back(child_node)] *)
Definition push_back (node : nat) : Build unit :=
  fun w => (Returned tt, {| heap := heap w; nodes := nodes w ++ [node]; cerr := cerr w |}).

Definition get_node (p : nat) : Build TreeNode :=
  fun w => match heap w !! p with Some n => (Returned n, w) | None => (Undefined, w) end.

Definition set_children (p : nat) (cs : list nat) : Build unit :=
  fun w =>
    match heap w !! p with
    | Some n =>
        (Returned tt,
         {| heap := <[p := with_children n cs]> (heap w); nodes := nodes w; cerr := cerr w |})
    | None => (Undefined, w)
    end.

(** Modelled from the spec: [ControlNode::addChild] is not under [src/].
    "Control nodes append to their child list". *)
Definition addChild (control_parent child : nat) : Build unit :=
  n <~ get_node control_parent ;;
  set_children control_parent (children n ++ [child]).

(** Modelled from the spec: [DecoratorNode::setChild] is not under [src/].
    "Decorator nodes set their single child"; a decorator receiving more than
    one child at construction is a contract violation. *)
Definition setChild (decorator_parent child : nat) : Build unit :=
  n <~ get_node decorator_parent ;;
  match children n with
  | [] => set_children decorator_parent [child]
  | _ :: _ => throw (child_already_set decorator_parent)
  end.

(** Lines 228-240 of [node_builder]: attachment dispatched on the parent's
    class. *)
Definition attach (parent : option nat) (child_node : nat) : Build unit :=
  match parent with
  | None => ret tt
  | Some p =>
      n <~ get_node p ;;
      (if is_ControlNode (kind n) then addChild p child_node else ret tt) ;;;
      (if is_DecoratorNode (kind n) then setChild p child_node else ret tt)
  end.

Definition NodeBuilder : Type :=
  string -> string -> gmap string string -> option nat -> Build nat.

(** Modelled from the spec: the template [treeParsing] is declared in
    [xml_parsing.h], which is not under [src/].  "Recursively walk [the]
    structural root.  For each structural element: call [the builder with]
    (ID, name, params) ... (params taken from the element's attributes other
    than ID/name)", the node just built being the parent of the nodes built
    from the child elements.  Appending to the flat list and attaching to the
    parent are done by the [node_builder] that [instantiateTree] passes in.

    Which strings are the ID and the name is fixed by the grammar and by
    [node_builder]: [Action], [Condition] and [Decorator] elements carry the
    registration ID in their mandatory [ID] attribute; the other elements
    have none and are registered under their element name; [node_builder]
    resolves a subtree through [bt_roots[name]], so a [SubTree] element
    passes its [ID] attribute (the referenced tree) as the name. *)
Definition node_ID (element : XMLElement) : option string :=
  let element_name := Name element in
  if strEqual element_name "Action" || strEqual element_name "Decorator"
     || strEqual element_name "Condition"
  then Attribute "ID" element
  else Some element_name.

Definition node_alias (element : XMLElement) : option string :=
  if strEqual (Name element) "SubTree" then Attribute "ID" element
  else match Attribute "name" element with
       | Some alias => Some alias
       | None => node_ID element
       end.

Definition node_params (element : XMLElement) : gmap string string :=
  fold_left
    (fun (params : gmap string string) '(attribute_name, value) =>
       if strEqual attribute_name "ID" || strEqual attribute_name "name"
       then params
       else <[attribute_name := value]> params)
    (Attributes element) ∅.

Fixpoint treeParsing (node_builder : NodeBuilder)
    (element : XMLElement) (parent : option nat) : Build nat :=
  match element with
  | mkXMLElement _ _ _ child_elements =>
      match node_ID element, node_alias element with
      | Some ID, Some alias =>
          node <~ node_builder ID alias (node_params element) parent ;;
          for_each
            (fun child_element =>
               treeParsing node_builder child_element (Some node) ;;; ret tt)
            child_elements ;;;
          ret node
      | _, _ => undefined
      end
  end.

(** * instantiateTree *)

Section Builder.
Variable factory : BehaviorTreeFactory.
Variable bt_roots : gmap string XMLElement.

(** The lambda [node_builder] (lines 224-249).  [bt_roots[name]] default-
    constructs a null pointer for a missing key, which the code then
    dereferences.  The recursion through [treeParsing] is bounded by
    [fuel], the number of nested subtree expansions allowed. *)
Fixpoint node_builder (fuel : nat) (ID name : string)
    (params : gmap string string) (parent : option nat) : Build nat :=
  child_node <~ instantiateTreeNode factory ID name params ;;
  push_back child_node ;;;
  attach parent child_node ;;;
  n <~ get_node child_node ;;
  (if is_DecoratorSubtreeNode (kind n) then
     match bt_roots !! name with
     | None => undefined
     | Some bt =>
         match FirstChildElement bt with
         | None => undefined
         | Some subtree_elem =>
             match fuel with
             | O => out_of_fuel
             | S fuel' =>
                 treeParsing (node_builder fuel') subtree_elem (Some child_node) ;;;
                 ret tt
             end
         end
     end
   else ret tt) ;;;
  ret child_node.
End Builder.

(** Lines 215-221: the map from tree ID to [BehaviorTree] element.  A
    [BehaviorTree] element without [ID] makes the code build a [std::string]
    from a null pointer ([None] here). *)
Definition collect_bt_roots (xml_root : XMLElement) : option (gmap string XMLElement) :=
  fold_left
    (fun (acc : option (gmap string XMLElement)) node =>
       match acc, Attribute "ID" node with
       | Some bt_roots, Some ID => Some (<[ID := node]> bt_roots)
       | _, _ => None
       end)
    (elements_named "BehaviorTree" (ChildElements xml_root)) (Some ∅).

(** [std::cerr << str << std::endl] for every diagnostic. *)
Definition print_to_cerr (lines : list string) : Build unit :=
  fun w => (Returned tt, {| heap := heap w; nodes := nodes w; cerr := cerr w ++ lines |}).

(** [XMLParser::instantiateTree]. *)
Definition instantiateTree (fuel : nat) (doc_ : XMLDocument)
    (factory : BehaviorTreeFactory) : Build nat :=
  let error_messages := snd (verifyXML doc_ []) in
  if (0 <? length error_messages)%nat then
    print_to_cerr error_messages ;;;
    throw (runtime_error "verifyXML failed")
  else
    match RootElement doc_ with
    | None => undefined
    | Some xml_root =>
        match Attribute "main_tree_to_execute" xml_root with
        | None => undefined
        | Some main_tree_ID =>
            match collect_bt_roots xml_root with
            | None => undefined
            | Some bt_roots =>
                match bt_roots !! main_tree_ID with
                | None => undefined
                | Some bt =>
                    match FirstChildElement bt with
                    | None => undefined
                    | Some root_element =>
                        treeParsing (node_builder factory bt_roots fuel) root_element None
                    end
                end
            end
        end
    end.

(** * Definitions used to state the properties *)

(** ** What a check reports

    [emits f msgs]: whatever the report so far, [f] appends exactly [msgs]
    and clears the flag when [msgs] is not empty. *)

(** The report at the start of [verifyXML]: no message, [is_valid = true]. *)
Definition empty_report : Report := mkReport [] true.

Definition record_all (msgs : list string) (r : Report) : Report :=
  {| error_messages := error_messages r ++ msgs;
     is_valid := is_valid r && match msgs with [] => true | _ :: _ => false end |}.

Definition emits (f : Report -> Report) (msgs : list string) : Prop :=
  forall r, f r = record_all msgs r.

(** What a check reports when it starts from the empty report. *)
Definition messages_of (f : Report -> Report) : list string :=
  error_messages (f empty_report).

(** The checks on one node. *)
Definition node_messages (node : XMLElement) : list string :=
  messages_of (check_node node).

(** The diagnostics of a whole subtree, in the order they are appended. *)
Fixpoint tree_messages (node : XMLElement) : list string :=
  match node with
  | mkXMLElement _ _ _ children => node_messages node ++ flat_map tree_messages children
  end.

(** What one [BehaviorTree] element contributes. *)
Definition bt_root_messages (bt_root : XMLElement) : list string :=
  messages_of (check_bt_root bt_root).

(** What the root-level block reports for one child of the root. *)
Definition declaration_messages (xml_root node : XMLElement) : list string :=
  messages_of (check_declaration xml_root node).

(** What the root-level block reports. *)
Definition metamodel_messages (xml_root : XMLElement) : list string :=
  messages_of (metamodel_checks xml_root).

(** The document-level result, for a document that loaded and has a [root]. *)
Definition document_messages (xml_root : XMLElement) : list string :=
  metamodel_messages xml_root
  ++ flat_map bt_root_messages (elements_named "BehaviorTree" (ChildElements xml_root)).

(** ** The grammar, and where the validator looks *)

(** An element and everything below it, in document order: the elements
    [recursiveStep] visits when started on [node]. *)
Fixpoint subelements (node : XMLElement) : list XMLElement :=
  match node with
  | mkXMLElement _ _ _ children => node :: flat_map subelements children
  end.

(** The structural elements below a [BehaviorTree] element. *)
Definition reachable_from (bt_root : XMLElement) : list XMLElement :=
  flat_map subelements (ChildElements bt_root).

(** The [BehaviorTree] children of the root. *)
Definition bt_roots_of (xml_root : XMLElement) : list XMLElement :=
  elements_named "BehaviorTree" (ChildElements xml_root).

(** The structural grammar in the words of the specification (section 4.6):
    Decorator: exactly 1 child, mandatory ID; Action, Condition: 0 children,
    mandatory ID; Sequence, SequenceStar, Fallback, FallbackStar: at least 1
    child; SubTree: 0 children, mandatory ID; any other name is not
    recognized. *)
Definition recognized (name : string) : bool :=
  strEqual name "Decorator" || strEqual name "Action" || strEqual name "Condition"
  || strEqual name "Sequence" || strEqual name "SequenceStar"
  || strEqual name "Fallback" || strEqual name "FallbackStar"
  || strEqual name "SubTree".

Definition grammar_rule_holds (element : XMLElement) : bool :=
  let n := length (ChildElements element) in
  let name := Name element in
  if strEqual name "Decorator" then (n =? 1)%nat && has_attribute "ID" element
  else if strEqual name "Action" || strEqual name "Condition"
       then (n =? 0)%nat && has_attribute "ID" element
  else if strEqual name "Sequence" || strEqual name "SequenceStar"
          || strEqual name "Fallback" || strEqual name "FallbackStar"
       then (1 <=? n)%nat
  else if strEqual name "SubTree" then (n =? 0)%nat && has_attribute "ID" element
  else false.

(** Every violation of the grammar below a [BehaviorTree] element shows up
    among the diagnostics. *)
Definition every_violation_reported (xml_root : XMLElement) (msgs : list string) : Prop :=
  forall bt_root element,
    bt_root ∈ bt_roots_of xml_root ->
    element ∈ reachable_from bt_root ->
    grammar_rule_holds element = false ->
    exists m, m ∈ node_messages element /\ m ∈ msgs.

(** An element with its content removed. *)
Definition without_children (node : XMLElement) : XMLElement :=
  mkXMLElement (Name node) (Attributes node) (GetLineNum node) [].

Definition with_child_elements (node : XMLElement) (children : list XMLElement) : XMLElement :=
  mkXMLElement (Name node) (Attributes node) (GetLineNum node) children.

(** The root-level block reads only the name, the attributes and the line
    of the children of the root. *)
Definition same_header (e e' : XMLElement) : Prop :=
  Name e = Name e' /\ Attributes e = Attributes e' /\ GetLineNum e = GetLineNum e'.

(** ** Reading a formatted diagnostic back

    [%d] prints digits (after an optional sign), so the text after the first
    colon of a diagnostic is determined by the diagnostic. *)

Fixpoint colon_free (s : string) : bool :=
  match s with
  | EmptyString => true
  | String c s' => negb (Ascii.eqb c ":"%char) && colon_free s'
  end.

(** [about texts m]: [m] is a formatted diagnostic whose text is one of
    [texts]. *)
Definition about (texts : list string) (m : string) : Prop :=
  exists line text, text ∈ texts /\ m = format_error line text.

Definition node_texts : list string :=
  [ "The node <Decorator> must have exactly 1 child";
    "The node <Decorator> must have the attribute [ID]";
    "The node <Action> must not have any child";
    "The node <Action> must have the attribute [ID]";
    "The node <Condition> must not have any child";
    "The node <Condition> must have the attribute [ID]";
    "A Control node must have at least 1 child";
    "The <SubTree> node must have no children";
    "The node <SubTree> must have the attribute [ID]";
    "Node not recognized" ].

Definition bt_root_text : string := "The node <BehaviorTree> must have exactly 1 child".

Definition declaration_texts : list string :=
  [ "Error at line %d: -> The attribute [ID] is mandatory";
    "The node <Parameter> requires the attributes [type] and [label]" ].

Definition single_model_text : string := " Only a single node <TreeNodesModel> is supported".

(** ** What the builder does to the world *)

(** The ways a computation ends without a result, at two result types. *)
Definition same_failure {A B} (o : Outcome A) (o' : Outcome B) : Prop :=
  match o, o' with
  | Thrown e, Thrown e' => e = e'
  | Undefined, Undefined => True
  | OutOfFuel, OutOfFuel => True
  | _, _ => False
  end.

(** [follows R c]: whatever the way [c] ends, the world it leaves is
    related by [R] to the one it started in. *)
Definition follows {A} (R : World -> World -> Prop) (c : Build A) : Prop :=
  forall w out w', c w = (out, w') -> R w w'.

(** [recorded w w']: the nodes allocated between [w] and [w'] are exactly
    the handles appended to the flat list, in order of allocation. *)
Definition recorded (w w' : World) : Prop :=
  length (heap w) <= length (heap w')
  /\ nodes w' = nodes w ++ seq (length (heap w)) (length (heap w') - length (heap w))
  /\ cerr w' = cerr w.

(** All parent-to-child links of a store. *)
Definition edges (h : list TreeNode) : list nat := flat_map children h.

(** Every link points to an allocated node and no node is linked twice. *)
Definition closed_heap (h : list TreeNode) : Prop :=
  Forall (fun c => c < length h) (edges h) /\ NoDup (edges h).

Definition closed (w : World) : Prop := closed_heap (heap w).

(** The child list of a parent after a node has been attached to it. *)
Definition attached (n : TreeNode) (r : nat) : list nat :=
  if is_ControlNode (kind n) || is_DecoratorNode (kind n)
  then children n ++ [r]
  else children n.

(** The node at [i], if it is a Subtree decorator, has exactly one child,
    the next node allocated, and that node was built from the structural
    root of the [BehaviorTree] element its name refers to. *)
Definition expanded (factory : BehaviorTreeFactory) (bt_roots : gmap string XMLElement)
    (h : list TreeNode) (i : nat) : Prop :=
  forall n,
    h !! i = Some n -> kind n = DecoratorSubtreeNode ->
    exists bt subtree_elem child,
      bt_roots !! instanceName n = Some bt
      /\ FirstChildElement bt = Some subtree_elem
      /\ children n = [S i]
      /\ h !! S i = Some child
      /\ node_ID subtree_elem = Some (registrationName child)
      /\ node_alias subtree_elem = Some (instanceName child)
      /\ builders factory !! registrationName child = Some (kind child).

(** What a call that returns the node [r] has done to the world. *)
Record built (factory : BehaviorTreeFactory) (bt_roots : gmap string XMLElement)
    (ID name : string) (parent : option nat) (w : World) (r : nat) (w' : World) : Prop :=
  mkBuilt {
    built_handle : r = length (heap w);
    built_fresh : length (heap w) < length (heap w');
    built_frame :
      forall i, i < length (heap w) -> parent <> Some i -> heap w' !! i = heap w !! i;
    built_parent :
      forall p n, parent = Some p -> heap w !! p = Some n ->
                  heap w' !! p = Some (with_children n (attached n r));
    built_no_second_child :
      forall p n, parent = Some p -> heap w !! p = Some n ->
                  is_DecoratorNode (kind n) = true -> children n = [];
    built_closed : closed w';
    built_expanded : forall i, length (heap w) <= i -> expanded factory bt_roots (heap w') i;
    built_node :
      exists n, heap w' !! r = Some n /\ registrationName n = ID /\ instanceName n = name
                /\ builders factory !! ID = Some (kind n)
  }.

(** The parent passed to the builder, if any, is an allocated node. *)
Definition valid_parent (parent : option nat) (w : World) : Prop :=
  forall p, parent = Some p -> p < length (heap w).

(** The contract of a node builder. *)
Definition builds (factory : BehaviorTreeFactory) (bt_roots : gmap string XMLElement)
    (node_builder : NodeBuilder) : Prop :=
  forall ID name params parent w r w',
    closed w -> valid_parent parent w ->
    node_builder ID name params parent w = (Returned r, w') ->
    built factory bt_roots ID name parent w r w'.

(** [treeParsing] keeps the contract of the builder, for one element. *)
Definition parses (factory : BehaviorTreeFactory) (bt_roots : gmap string XMLElement)
    (node_builder : NodeBuilder) (element : XMLElement) : Prop :=
  forall parent w r w',
    closed w -> valid_parent parent w ->
    treeParsing node_builder element parent w = (Returned r, w') ->
    exists ID name,
      node_ID element = Some ID /\ node_alias element = Some name
      /\ built factory bt_roots ID name parent w r w'.


(** ** Subtree references *)

(** The tree an element makes the builder expand: the name passed to
    [node_builder], when the factory makes a Subtree decorator for the
    element's registration ID. *)
Definition expands_to (factory : BehaviorTreeFactory) (element : XMLElement) : option string :=
  match node_ID element with
  | Some ID =>
      match builders factory !! ID with
      | Some DecoratorSubtreeNode => node_alias element
      | _ => None
      end
  | None => None
  end.

(** The trees referenced from an element or from below it. *)
Definition references (factory : BehaviorTreeFactory) (element : XMLElement) : list string :=
  omap (expands_to factory) (subelements element).

(** The subtree references are acyclic: every reference of a tree goes to a
    tree of lower rank. *)
Definition ranked (factory : BehaviorTreeFactory) (bt_roots : gmap string XMLElement)
    (rank : string -> nat) : Prop :=
  forall ID bt subtree_elem name,
    bt_roots !! ID = Some bt ->
    FirstChildElement bt = Some subtree_elem ->
    name ∈ references factory subtree_elem ->
    rank name < rank ID.

(** The bound on nested expansions is not reached. *)
Definition terminates {A} (c : Build A) : Prop :=
  forall w, fst (c w) <> OutOfFuel.

(** ** Sample documents, registries and worlds *)

Definition element (name : string) (attrs : list (string * string)) (line : Z)
    (children : list XMLElement) : XMLElement :=
  mkXMLElement name attrs line children.

Definition document (xml_root : XMLElement) : XMLDocument :=
  mkXMLDocument false (Some xml_root).

(** A main tree that runs an action and then a subtree. *)
Definition root_with_subtree : XMLElement :=
  element "root" [("main_tree_to_execute", "MainTree")] 1
    [ element "BehaviorTree" [("ID", "MainTree")] 2
        [ element "Sequence" [("name", "root_sequence")] 3
            [ element "Action" [("ID", "SayHello")] 4 [];
              element "SubTree" [("ID", "Sub")] 5 [] ] ];
      element "BehaviorTree" [("ID", "Sub")] 8
        [ element "Action" [("ID", "OpenGripper")] 9 [] ] ].

(** A Decorator declared with two children. *)
Definition decorator_two_children : XMLElement :=
  element "Decorator" [("ID", "Invert")] 3
    [ element "Action" [("ID", "SayHello")] 4 [];
      element "Action" [("ID", "OpenGripper")] 5 [] ].

Definition root_with_wide_decorator : XMLElement :=
  element "root" [("main_tree_to_execute", "MainTree")] 1
    [ element "BehaviorTree" [("ID", "MainTree")] 2 [ decorator_two_children ] ].

(** The same Decorator inside a [BehaviorTree] that has two children. *)
Definition wide_tree : XMLElement :=
  element "BehaviorTree" [("ID", "MainTree")] 2
    [ decorator_two_children; element "Action" [("ID", "CloseGripper")] 7 [] ].

Definition root_with_wide_tree : XMLElement :=
  element "root" [("main_tree_to_execute", "MainTree")] 1 [ wide_tree ].

(** A [BehaviorTree] element with two children, the first of which has a
    name that is not part of the grammar. *)
Definition stray_element : XMLElement := element "Wander" [] 3 [].

Definition tree_with_stray_element : XMLElement :=
  element "BehaviorTree" [("ID", "MainTree")] 2
    [ stray_element; element "Action" [("ID", "SayHello")] 4 [] ].

Definition root_with_stray_element : XMLElement :=
  element "root" [("main_tree_to_execute", "MainTree")] 1 [ tree_with_stray_element ].

(** Three [TreeNodesModel] siblings. *)
Definition root_with_three_models : XMLElement :=
  element "root" [("main_tree_to_execute", "MainTree")] 1
    [ element "TreeNodesModel" [] 2 [];
      element "BehaviorTree" [("ID", "MainTree")] 3
        [ element "Action" [("ID", "SayHello")] 4 [] ];
      element "TreeNodesModel" [] 6 [];
      element "TreeNodesModel" [] 7 [] ].

(** The selector names a tree that is not in the document. *)
Definition root_missing_main_tree : XMLElement :=
  element "root" [("main_tree_to_execute", "Missing")] 1
    [ element "BehaviorTree" [("ID", "MainTree")] 2
        [ element "Action" [("ID", "SayHello")] 3 [] ] ].

(** A sequence whose second action is not registered. *)
Definition root_unknown_action : XMLElement :=
  element "root" [("main_tree_to_execute", "MainTree")] 1
    [ element "BehaviorTree" [("ID", "MainTree")] 2
        [ element "Sequence" [] 3
            [ element "Action" [("ID", "SayHello")] 4 [];
              element "Action" [("ID", "Juggle")] 5 [] ] ] ].


(** The registry used in the examples. *)
Definition sample_factory : BehaviorTreeFactory :=
  mkFactory (list_to_map
               [ ("Sequence", ControlNode); ("Fallback", ControlNode);
                 ("SubTree", DecoratorSubtreeNode); ("Invert", DecoratorNode);
                 ("SayHello", ActionNode); ("OpenGripper", ActionNode);
                 ("CloseGripper", ActionNode) ]).

(** Nothing allocated, an empty vector, nothing printed. *)
Definition empty_world : World := mkWorld [] [] [].

(** The world left by the build of [root_unknown_action]. *)
Definition world_after_unknown_action : World :=
  {| heap := [ mkTreeNode "Sequence" "Sequence" ∅ ControlNode [1];
               mkTreeNode "SayHello" "SayHello" ∅ ActionNode [] ];
     nodes := [0; 1];
     cerr := [] |}.

(** The world left by the build of [root_with_subtree]. *)
Definition world_with_subtree : World :=
  {| heap := [ mkTreeNode "Sequence" "root_sequence" ∅ ControlNode [1; 2];
               mkTreeNode "SayHello" "SayHello" ∅ ActionNode [];
               mkTreeNode "SubTree" "Sub" ∅ DecoratorSubtreeNode [3];
               mkTreeNode "OpenGripper" "OpenGripper" ∅ ActionNode [] ];
     nodes := [0; 1; 2; 3];
     cerr := [] |}.

(** * Definitions used to state further properties *)

(** ** The validator as a predicate *)

(** The names the root-level loop looks at (lines 86-89). *)
Definition declared_name (name : string) : bool :=
  strEqual name "Action" || strEqual name "Decorator"
  || strEqual name "SubTree" || strEqual name "Condition".

(** What the root-level loop reports for one child of the root, written
    out: one message when [ID] is missing, and, when [label] or [type] is
    missing, one message per [Parameter] child of the root. *)
Definition declaration_report (xml_root node : XMLElement) : list string :=
  if declared_name (Name node) then
    (if has_attribute "ID" node then []
     else [format_error (GetLineNum node)
             "Error at line %d: -> The attribute [ID] is mandatory"])
    ++ (if has_attribute "label" node && has_attribute "type" node then []
        else repeat
               (format_error (GetLineNum node)
                  "The node <Parameter> requires the attributes [type] and [label]")
               (length (elements_named "Parameter" (ChildElements xml_root))))
  else [].

(** A child of the root that the root-level loop accepts. *)
Definition declaration_ok (xml_root node : XMLElement) : bool :=
  negb (declared_name (Name node))
  || (has_attribute "ID" node
      && match elements_named "Parameter" (ChildElements xml_root) with
         | [] => true
         | _ :: _ => has_attribute "label" node && has_attribute "type" node
         end).

(** The root-level block reports nothing. *)
Definition metamodel_ok (xml_root : XMLElement) : bool :=
  match elements_named "TreeNodesModel" (ChildElements xml_root) with
  | [] => true
  | [_] => forallb (declaration_ok xml_root) (ChildElements xml_root)
  | _ :: _ :: _ => false
  end.

(** A [BehaviorTree] element with one child, below which every element
    obeys the grammar. *)
Definition tree_ok (bt_root : XMLElement) : bool :=
  (length (ChildElements bt_root) =? 1)%nat
  && forallb grammar_rule_holds (reachable_from bt_root).

(** The documents [verifyXML] accepts. *)
Definition document_ok (doc_ : XMLDocument) : bool :=
  negb (Error doc_)
  && match RootElement doc_ with
     | None => false
     | Some xml_root =>
         strEqual (Name xml_root) "root"
         && metamodel_ok xml_root
         && forallb tree_ok (bt_roots_of xml_root)
     end.

(** Every text [AppendError] is called with. *)
Definition all_texts : list string :=
  single_model_text :: bt_root_text :: node_texts ++ declaration_texts.

(** [m] is a formatted diagnostic with the line number of one of
    [elements] and one of [texts]. *)
Definition cites (elements : list XMLElement) (texts : list string) (m : string) : Prop :=
  exists e text, e ∈ elements /\ text ∈ texts /\ m = format_error (GetLineNum e) text.

(** What [verifyXML] reads of a child of the root: its name and line; of a
    [BehaviorTree] child its children but not its attributes; of any other
    child its attributes but not its children. *)
Definition read_alike (e e' : XMLElement) : Prop :=
  Name e = Name e' /\ GetLineNum e = GetLineNum e'
  /\ if strEqual (Name e) "BehaviorTree"
     then ChildElements e = ChildElements e'
     else Attributes e = Attributes e'.

(** A document with a root called [root], a [TreeNodesModel] and two
    [Parameter] children, and a declaration without [label]. *)
Definition root_with_declarations : XMLElement :=
  element "root" [] 1
    [ element "TreeNodesModel" [] 2 [ element "Action" [] 3 [] ];
      element "Parameter" [("label", "speed"); ("type", "double")] 5 [];
      element "Parameter" [] 6 [];
      element "Action" [("ID", "SayHello"); ("type", "text")] 7 [];
      element "BehaviorTree" [] 8 [ element "Action" [("ID", "SayHello")] 9 [] ] ].

(** The same document for [verifyXML]: other attributes on the root and on
    the [BehaviorTree] element, other content in the other children. *)
Definition root_with_declarations_variant : XMLElement :=
  element "root" [("main_tree_to_execute", "Nowhere")] 40
    [ element "TreeNodesModel" [] 2 [];
      element "Parameter" [("label", "speed"); ("type", "double")] 5
        [ element "Sequence" [] 5 [] ];
      element "Parameter" [] 6 [];
      element "Action" [("ID", "SayHello"); ("type", "text")] 7
        [ element "Wander" [] 7 [] ];
      element "BehaviorTree" [("ID", "MainTree"); ("ID", "Other")] 8
        [ element "Action" [("ID", "SayHello")] 9 [] ] ].

(** ** Which tree is built *)

(** The [BehaviorTree] elements that carry a given [ID]. *)
Definition trees_named (ID : string) (bts : list XMLElement) : list XMLElement :=
  List.filter (fun bt => bool_decide (Attribute "ID" bt = Some ID)) bts.

(** The tree [instantiateTree] starts from, when there is one: every
    [BehaviorTree] child of the root has an [ID], the root has the attribute
    [main_tree_to_execute], and the tree is the last of those it names. *)
Definition main_tree (xml_root : XMLElement) : option XMLElement :=
  match Attribute "main_tree_to_execute" xml_root with
  | Some main_tree_ID =>
      if forallb (has_attribute "ID") (bt_roots_of xml_root)
      then last (trees_named main_tree_ID (bt_roots_of xml_root))
      else None
  | None => None
  end.

(** Two trees with the same ID; the selector has a stray attribute before
    it. *)
Definition root_with_two_trees : XMLElement :=
  element "root" [("version", "1"); ("main_tree_to_execute", "MainTree")] 1
    [ element "BehaviorTree" [("ID", "MainTree")] 2
        [ element "Action" [("ID", "SayHello")] 3 [] ];
      element "BehaviorTree" [("ID", "MainTree")] 5
        [ element "Action" [("ID", "OpenGripper")] 6 [] ] ].

(** A subtree reference to a tree that is not in the document. *)
Definition root_dangling_reference : XMLElement :=
  element "root" [("main_tree_to_execute", "MainTree")] 1
    [ element "BehaviorTree" [("ID", "MainTree")] 2
        [ element "Sequence" [] 3
            [ element "Action" [("ID", "SayHello")] 4 [];
              element "SubTree" [("ID", "Elsewhere")] 5 [] ] ] ].

(** ** Invariants of the store *)

(** The store and the vector have the same size as before. *)
Definition same_size (w w' : World) : Prop :=
  length (heap w') = length (heap w) /\ nodes w' = nodes w /\ cerr w' = cerr w.




(** ** The shape of what is built *)

(** One of the two casts of lines 230 and 235 succeeds on a node of this
    class: the node takes the children built below it. *)
Definition takes_children (k : NodeKind) : bool :=
  is_ControlNode k || is_DecoratorNode k.

Section Layout.
Variable factory : BehaviorTreeFactory.
Variable bt_roots : gmap string XMLElement.

(** The node is what the factory makes for the element: registration ID,
    instance name and parameters are those [treeParsing] reads off the
    element, the class is the one registered for the ID. *)
Definition instance_of (n : TreeNode) (element : XMLElement) : Prop :=
  node_ID element = Some (registrationName n)
  /\ node_alias element = Some (instanceName n)
  /\ parameters n = node_params element
  /\ builders factory !! registrationName n = Some (kind n).

(** [laid_out h element lo hi]: the nodes [lo], ..., [hi - 1] of the store
    [h] are the tree built for [element].  The node for the element comes
    first.  If it is a Subtree decorator, the element has no child element,
    the rest of the range is the tree built for the structural root of the
    [BehaviorTree] element its name refers to, and that root is its only
    child.  Otherwise the rest of the range is cut into consecutive ranges,
    one per child element in document order, each laid out for its child
    element; a Control or Decorator node has the first nodes of these ranges
    as its children, in that order, any other node has none; a Decorator has
    at most one child element.  *)
Inductive laid_out (h : list TreeNode) : XMLElement -> nat -> nat -> Prop :=
| laid_out_node element n lo hi starts :
    h !! lo = Some n ->
    instance_of n element ->
    kind n <> DecoratorSubtreeNode ->
    (kind n = DecoratorNode -> length (ChildElements element) <= 1) ->
    segments h (ChildElements element) (S lo) hi starts ->
    children n = (if takes_children (kind n) then starts else []) ->
    laid_out h element lo hi
| laid_out_reference element n lo hi bt subtree_elem :
    h !! lo = Some n ->
    instance_of n element ->
    kind n = DecoratorSubtreeNode ->
    ChildElements element = [] ->
    bt_roots !! instanceName n = Some bt ->
    FirstChildElement bt = Some subtree_elem ->
    laid_out h subtree_elem (S lo) hi ->
    children n = [S lo] ->
    laid_out h element lo hi
with segments (h : list TreeNode) : list XMLElement -> nat -> nat -> list nat -> Prop :=
| segments_nil lo : segments h [] lo lo []
| segments_cons child rest lo mid hi starts :
    laid_out h child lo mid ->
    segments h rest mid hi starts ->
    segments h (child :: rest) lo hi (lo :: starts).

(** What a node builder that returns has made: the node for the ID, the
    name and the parameters it was given, alone if it is not a Subtree
    decorator, followed by the referenced tree if it is. *)
Definition shapes (node_builder : NodeBuilder) : Prop :=
  forall ID name params parent w r w',
    closed w -> valid_parent parent w ->
    node_builder ID name params parent w = (Returned r, w') ->
    exists n,
      heap w' !! r = Some n
      /\ registrationName n = ID /\ instanceName n = name /\ parameters n = params
      /\ builders factory !! ID = Some (kind n)
      /\ (kind n <> DecoratorSubtreeNode ->
          children n = [] /\ length (heap w') = S r)
      /\ (kind n = DecoratorSubtreeNode ->
          exists bt subtree_elem,
            bt_roots !! name = Some bt
            /\ FirstChildElement bt = Some subtree_elem
            /\ children n = [S r]
            /\ laid_out (heap w') subtree_elem (S r) (length (heap w'))).

(** [treeParsing], when it returns, has laid out the element in the nodes it
    allocated. *)
Definition lays_out (node_builder : NodeBuilder) (element : XMLElement) : Prop :=
  forall parent w r w',
    closed w -> valid_parent parent w ->
    treeParsing node_builder element parent w = (Returned r, w') ->
    laid_out (heap w') element (length (heap w)) (length (heap w')).
End Layout.

Scheme laid_out_mutual := Minimality for laid_out Sort Prop
  with segments_mutual := Minimality for segments Sort Prop.

Combined Scheme laid_out_segments_ind from laid_out_mutual, segments_mutual.

(** The handles of a child list grow along the list. *)
Definition increasing (l : list nat) : Prop :=
  forall i j c d, i < j -> l !! i = Some c -> l !! j = Some d -> c < d.

(** A tree without subtree references: a fallback over an inverted action
    and a sequence of two actions. *)
Definition tree_without_references : XMLElement :=
  element "BehaviorTree" [("ID", "MainTree")] 2
    [ element "Fallback" [("name", "try")] 3
        [ element "Decorator" [("ID", "Invert")] 4
            [ element "Action" [("ID", "SayHello")] 5 [] ];
          element "Sequence" [] 7
            [ element "Action" [("ID", "OpenGripper"); ("name", "open")] 8 [];
              element "Action" [("ID", "CloseGripper")] 9 [] ] ] ].

Definition root_without_references : XMLElement :=
  element "root" [("main_tree_to_execute", "MainTree")] 1 [ tree_without_references ].

(** ** When a build returns *)

Section Buildable.
Variable factory : BehaviorTreeFactory.
Variable bt_roots : gmap string XMLElement.

(** [buildable fuel element]: nothing stops the builder on [element] or
    below it.  The element has a registration ID and a name, and the ID is
    registered.  If the class is the Subtree decorator, the element has no
    child element (the decorator's only child is the referenced tree), the
    name is the ID of a tree that has a structural root, and that root is
    buildable with one nested expansion less.  Otherwise every child element
    is buildable, and a Decorator has at most one. *)
Fixpoint buildable (fuel : nat) : XMLElement -> bool :=
  fix on_element (element : XMLElement) : bool :=
    match element with
    | mkXMLElement _ _ _ child_elements =>
        match node_ID element, node_alias element with
        | Some ID, Some name =>
            match builders factory !! ID with
            | Some DecoratorSubtreeNode =>
                match child_elements, bt_roots !! name, fuel with
                | [], Some bt, S fuel' =>
                    match FirstChildElement bt with
                    | Some subtree_elem => buildable fuel' subtree_elem
                    | None => false
                    end
                | _, _, _ => false
                end
            | Some DecoratorNode =>
                (length child_elements <=? 1)%nat && forallb on_element child_elements
            | Some _ => forallb on_element child_elements
            | None => false
            end
        | _, _ => false
        end
    end.

(** The tree a Subtree decorator called [name] expands to can be built
    within [fuel] nested expansions. *)
Definition resolves (fuel : nat) (name : string) : Prop :=
  exists bt subtree_elem fuel',
    bt_roots !! name = Some bt
    /\ FirstChildElement bt = Some subtree_elem
    /\ fuel = S fuel'
    /\ buildable fuel' subtree_elem = true.

(** The ID is registered, and if it makes a Subtree decorator the name
    resolves. *)
Definition makeable (fuel : nat) (ID name : string) : Prop :=
  exists k, builders factory !! ID = Some k
            /\ (k = DecoratorSubtreeNode -> resolves fuel name).

(** The parent, if any, is allocated and can take one more child. *)
Definition ready (parent : option nat) (w : World) : Prop :=
  match parent with
  | None => True
  | Some p =>
      exists n, heap w !! p = Some n
                /\ (is_DecoratorNode (kind n) = true -> children n = [])
  end.

(** The builder returns whenever the node is makeable. *)
Definition returns (fuel : nat) (node_builder : NodeBuilder) : Prop :=
  forall ID name params parent w,
    closed w -> ready parent w -> makeable fuel ID name ->
    exists r w', node_builder ID name params parent w = (Returned r, w').

(** The builder returns only when the node is makeable. *)
Definition returns_only (fuel : nat) (node_builder : NodeBuilder) : Prop :=
  forall ID name params parent w r w',
    closed w -> valid_parent parent w ->
    node_builder ID name params parent w = (Returned r, w') ->
    makeable fuel ID name.
End Buildable.

(** ** The exceptions of a build *)

(** [throws_only Q c]: when [c] ends in an exception, the exception and the
    world it leaves satisfy [Q]. *)
Definition throws_only {A} (Q : Exception -> World -> Prop) (c : Build A) : Prop :=
  forall w e w', c w = (Thrown e, w') -> Q e w'.

(** What the builder proper can throw: the factory's error for an ID that
    is not registered, the ID being that of an element of the document, and
    the refusal of a Decorator that has a child already. *)
Definition builder_exception (factory : BehaviorTreeFactory) (xml_root : XMLElement)
    (e : Exception) (w : World) : Prop :=
  match e with
  | runtime_error _ => False
  | unknown_ID ID =>
      builders factory !! ID = None
      /\ exists d, d ∈ subelements xml_root /\ node_ID d = Some ID
  | child_already_set decorator =>
      exists n, heap w !! decorator = Some n
                /\ is_DecoratorNode (kind n) = true
                /\ children n <> []
  end.

(** ** The null pointers of a build *)

(** [dangles bt_roots w w']: the last node of the store [w'] was allocated
    after [w], it is a Subtree decorator, and its name is not the ID of a
    tree. *)
Definition dangles (bt_roots : gmap string XMLElement) (w w' : World) : Prop :=
  exists p n,
    heap w' !! p = Some n
    /\ length (heap w) <= p
    /\ S p = length (heap w')
    /\ kind n = DecoratorSubtreeNode
    /\ bt_roots !! instanceName n = None.

(** A builder that runs into a null pointer only on a subtree reference
    that dangles. *)
Definition undefined_only (bt_roots : gmap string XMLElement)
    (node_builder : NodeBuilder) : Prop :=
  forall ID name params parent w w',
    closed w -> valid_parent parent w ->
    node_builder ID name params parent w = (Undefined, w') ->
    dangles bt_roots w w'.

(** Every tree of the map has one structural root, below which the grammar
    holds. *)
Definition checked_trees (bt_roots : gmap string XMLElement) : Prop :=
  forall name bt,
    bt_roots !! name = Some bt ->
    exists subtree_elem,
      ChildElements bt = [subtree_elem]
      /\ forall d, d ∈ subelements subtree_elem -> grammar_rule_holds d = true.

(** ** The validator and the builder together *)

(** The factory suits the element: it knows the element's registration
    ID, it makes a Decorator only for a [Decorator] element, and a Subtree
    decorator only for a [SubTree] element whose [ID] is that of a tree of
    the map. *)
Definition suits (factory : BehaviorTreeFactory) (bt_roots : gmap string XMLElement)
    (d : XMLElement) : bool :=
  match node_ID d with
  | Some ID =>
      match builders factory !! ID with
      | Some DecoratorNode => strEqual (Name d) "Decorator"
      | Some DecoratorSubtreeNode =>
          strEqual (Name d) "SubTree"
          && match Attribute "ID" d with
             | Some name => bool_decide (is_Some (bt_roots !! name))
             | None => false
             end
      | Some _ => true
      | None => false
      end
  | None => false
  end.

(** ** A node builder that cannot finish *)

(** The world once the node has been allocated and appended to the
    caller's vector (lines 226-227). *)
Definition allocated (n0 : TreeNode) (w : World) : World :=
  {| heap := heap w ++ [n0]; nodes := nodes w ++ [length (heap w)]; cerr := cerr w |}.

(** The store once the node has been attached (lines 228-240): the child
    list of the parent, if there is one, is what [attached] says. *)
Definition with_child (parent : option nat) (child_node : nat)
    (h : list TreeNode) : list TreeNode :=
  match parent with
  | None => h
  | Some p =>
      match h !! p with
      | Some n => <[p := with_children n (attached n child_node)]> h
      | None => h
      end
  end.

(** Lines 213 and 220 build a [std::string] from an attribute.  Both
    attributes are there: the root has [main_tree_to_execute] and every
    [BehaviorTree] child of the root has an [ID], so that no string is built
    from a null pointer. *)
Definition names_present (xml_root : XMLElement) : bool :=
  has_attribute "main_tree_to_execute" xml_root
  && forallb (has_attribute "ID") (bt_roots_of xml_root).


(** * Properties of the validator *)

(** ** Every check only appends *)

Lemma record_all_nil r : record_all [] r = r.
Proof.
  destruct r as [msgs v]; unfold record_all; simpl.
  by rewrite app_nil_r, andb_true_r.
Qed.

Lemma record_all_app m1 m2 r : record_all m2 (record_all m1 r) = record_all (m1 ++ m2) r.
Proof.
  destruct r as [msgs v]; unfold record_all; simpl.
  rewrite <- app_assoc. f_equal.
  destruct m1, m2, v; reflexivity.
Qed.

Lemma emits_messages_of f msgs : emits f msgs -> messages_of f = msgs.
Proof. intros H. unfold messages_of. rewrite H. reflexivity. Qed.

Lemma emits_skip : emits (fun r => r) [].
Proof. intros r. by rewrite record_all_nil. Qed.

Lemma emits_AppendError line text :
  emits (AppendError line text) [format_error line text].
Proof.
  intros [msgs v]. unfold AppendError, record_all; simpl.
  by rewrite andb_false_r.
Qed.

Lemma emits_error_if cond node text :
  emits (error_if cond node text)
        (if cond then [format_error (GetLineNum node) text] else []).
Proof.
  unfold error_if. destruct cond; [apply emits_AppendError | apply emits_skip].
Qed.

Lemma emits_then f g m1 m2 :
  emits f m1 -> emits g m2 -> emits (fun r => g (f r)) (m1 ++ m2).
Proof. intros Hf Hg r. by rewrite Hf, Hg, record_all_app. Qed.

Lemma emits_fold {A} (f : A -> Report -> Report) (d : A -> list string) (l : list A) :
  Forall (fun x => emits (f x) (d x)) l ->
  emits (fun r => fold_left (fun r x => f x r) l r) (flat_map d l).
Proof.
  induction 1 as [|x l Hx _ IH]; simpl.
  - apply emits_skip.
  - apply (emits_then (f x) (fun r => fold_left (fun r x => f x r) l r)); assumption.
Qed.

Lemma emits_ext f g msgs : (forall r, f r = g r) -> emits g msgs -> emits f msgs.
Proof. intros E H r. by rewrite E. Qed.

Lemma emits_check_node node : emits (check_node node) (node_messages node).
Proof.
  assert (exists msgs, emits (check_node node) msgs) as [msgs H].
  { unfold check_node.
    repeat match goal with
           | |- context [if ?b then _ else _] =>
               lazymatch b with
               | context [strEqual] => destruct b
               end
           end;
      eexists;
      first [ apply emits_AppendError
            | apply emits_error_if
            | apply (emits_then (error_if _ _ _) (error_if _ _ _));
              apply emits_error_if ]. }
  unfold node_messages. by rewrite (emits_messages_of _ _ H).
Qed.

Lemma tree_messages_eq node :
  tree_messages node = node_messages node ++ flat_map tree_messages (ChildElements node).
Proof. by destruct node. Qed.

Lemma emits_recursiveStep node : emits (recursiveStep node) (tree_messages node).
Proof.
  induction node as [name attrs line children IH] using XMLElement_nested_ind.
  simpl.
  apply (emits_then (check_node _)
           (fun r => fold_left (fun r child => recursiveStep child r) children r)).
  - apply emits_check_node.
  - apply emits_fold, IH.
Qed.

Lemma emits_check_bt_root bt_root : emits (check_bt_root bt_root) (bt_root_messages bt_root).
Proof.
  assert (exists msgs, emits (check_bt_root bt_root) msgs) as [msgs H].
  { unfold check_bt_root.
    destruct (negb _); [eexists; apply emits_AppendError|].
    destruct (FirstChildElement bt_root);
      eexists; [apply emits_recursiveStep | apply emits_skip]. }
  unfold bt_root_messages. by rewrite (emits_messages_of _ _ H).
Qed.

Lemma bt_root_messages_malformed bt_root :
  length (ChildElements bt_root) <> 1%nat ->
  bt_root_messages bt_root =
    [format_error (GetLineNum bt_root) "The node <BehaviorTree> must have exactly 1 child"].
Proof.
  intros Hn. unfold bt_root_messages, messages_of, check_bt_root, ChildrenCount.
  destruct (Z.eqb_spec (Z.of_nat (length (ChildElements bt_root))) 1); [lia|].
  reflexivity.
Qed.

Lemma bt_root_messages_single bt_root child :
  ChildElements bt_root = [child] ->
  bt_root_messages bt_root = tree_messages child.
Proof.
  intros Hc. unfold bt_root_messages, messages_of, check_bt_root, ChildrenCount, FirstChildElement.
  rewrite Hc. simpl. apply (emits_messages_of _ _ (emits_recursiveStep child)).
Qed.

Lemma emits_check_declaration xml_root node :
  emits (check_declaration xml_root node) (declaration_messages xml_root node).
Proof.
  assert (exists msgs, emits (check_declaration xml_root node) msgs) as [msgs H].
  { unfold check_declaration. destruct (_ || _).
    - eexists. eapply emits_then; [apply emits_error_if|].
      eapply (emits_fold (fun _ => error_if _ _ _)).
      apply Forall_forall. intros param_node _. apply emits_error_if.
    - eexists. apply emits_skip. }
  unfold declaration_messages. by rewrite (emits_messages_of _ _ H).
Qed.

Lemma emits_metamodel_checks xml_root :
  emits (metamodel_checks xml_root) (metamodel_messages xml_root).
Proof.
  assert (exists msgs, emits (metamodel_checks xml_root) msgs) as [msgs H].
  { unfold metamodel_checks.
    destruct (first_named "TreeNodesModel" (ChildElements xml_root)) as [[meta_root following]|].
    - destruct (first_named "TreeNodesModel" following) as [[sibling ?]|]; eexists.
      + eapply emits_then; [apply emits_AppendError|].
        apply (emits_fold (check_declaration xml_root)), Forall_forall.
        intros node _. apply emits_check_declaration.
      + apply (emits_fold (check_declaration xml_root)), Forall_forall.
        intros node _. apply emits_check_declaration.
    - eexists. apply emits_skip. }
  unfold metamodel_messages. by rewrite (emits_messages_of _ _ H).
Qed.

Lemma verifyXML_root doc_ xml_root msgs0 :
  Error doc_ = false ->
  RootElement doc_ = Some xml_root ->
  Name xml_root = "root" ->
  verifyXML doc_ msgs0 =
    (match document_messages xml_root with [] => true | _ :: _ => false end,
     document_messages xml_root).
Proof.
  intros HE HR HN. unfold verifyXML. rewrite HE, HR, HN. simpl.
  pose proof (emits_then _ _ _ _ (emits_metamodel_checks xml_root)
                (emits_fold check_bt_root bt_root_messages
                   (elements_named "BehaviorTree" (ChildElements xml_root))
                   ltac:(apply Forall_forall; intros; apply emits_check_bt_root))) as H.
  simpl in H. rewrite (H (mkReport [] true)). reflexivity.
Qed.

(** The flag and the list never disagree. *)
Lemma verifyXML_flag doc_ msgs0 :
  fst (verifyXML doc_ msgs0) = match snd (verifyXML doc_ msgs0) with [] => true | _ :: _ => false end.
Proof.
  destruct (Error doc_) eqn:HE; [unfold verifyXML; by rewrite HE|].
  destruct (RootElement doc_) as [xml_root|] eqn:HR;
    [|unfold verifyXML; by rewrite HE, HR].
  destruct (strEqual (Name xml_root) "root") eqn:HN.
  - apply String.eqb_eq in HN. by rewrite (verifyXML_root _ _ _ HE HR HN).
  - unfold verifyXML. by rewrite HE, HR, HN.
Qed.

(** ** Where the validator looks *)

Lemma subelements_eq node :
  subelements node = node :: flat_map subelements (ChildElements node).
Proof. by destruct node. Qed.

Lemma subelements_self node : node ∈ subelements node.
Proof. rewrite subelements_eq. apply list_elem_of_here. Qed.

Lemma flat_map_segment {A B} (f : A -> list B) (l : list A) (x : A) :
  x ∈ l -> exists pre post, flat_map f l = pre ++ f x ++ post.
Proof.
  intros Hx. apply list_elem_of_split in Hx as (l1 & l2 & ->).
  exists (flat_map f l1), (flat_map f l2).
  by rewrite flat_map_app.
Qed.

Lemma elem_of_flat_map {A B} (f : A -> list B) (l : list A) (y : B) :
  y ∈ flat_map f l <-> exists x, x ∈ l /\ y ∈ f x.
Proof.
  rewrite list_elem_of_In, in_flat_map.
  split; intros (x & H1 & H2); exists x; split; by apply list_elem_of_In.
Qed.

(** The diagnostics of a visited element are a segment of those of the
    subtree it belongs to. *)
Lemma tree_messages_segment node element :
  element ∈ subelements node ->
  exists pre post, tree_messages node = pre ++ node_messages element ++ post.
Proof.
  revert element.
  induction node as [name attrs line children IH] using XMLElement_nested_ind.
  intros element Hin. rewrite subelements_eq in Hin. rewrite tree_messages_eq. simpl in *.
  apply elem_of_cons in Hin as [-> | Hin].
  - exists [], (flat_map tree_messages children). reflexivity.
  - apply elem_of_flat_map in Hin as (child & Hchild & Hin).
    rewrite Forall_forall in IH.
    destruct (IH child Hchild element Hin) as (pre & post & E).
    destruct (flat_map_segment tree_messages children child Hchild) as (pre' & post' & E').
    exists (node_messages (mkXMLElement name attrs line children) ++ pre' ++ pre), (post ++ post').
    rewrite E', E. by rewrite <- !app_assoc.
Qed.

Lemma node_messages_nil_iff element :
  node_messages element = [] <-> grammar_rule_holds element = true.
Proof.
  unfold node_messages, messages_of, check_node, grammar_rule_holds, error_if, ChildrenCount.
  destruct (strEqual (Name element) "Decorator");
    [|destruct (strEqual (Name element) "Action");
      [|destruct (strEqual (Name element) "Condition");
        [|destruct (strEqual (Name element) "Sequence" || strEqual (Name element) "SequenceStar"
                    || strEqual (Name element) "Fallback" || strEqual (Name element) "FallbackStar");
          [|destruct (strEqual (Name element) "SubTree")]]]];
    set (n := length (ChildElements element));
    destruct (Z.eqb_spec (Z.of_nat n) 1), (Z.eqb_spec (Z.of_nat n) 0),
      (Z.gtb_spec (Z.of_nat n) 0), (Nat.eqb_spec n 1), (Nat.eqb_spec n 0),
      (Nat.leb_spec 1 n), (has_attribute "ID" element);
    simpl; try lia; split; intros; try discriminate; try reflexivity; try lia.
Qed.

Lemma node_messages_unrecognized element :
  recognized (Name element) = false ->
  node_messages element = [format_error (GetLineNum element) "Node not recognized"].
Proof.
  unfold recognized, node_messages, messages_of, check_node. intros H.
  repeat (apply orb_false_elim in H as [H ?]).
  repeat match goal with E : strEqual _ _ = false |- _ => rewrite E; clear E end.
  reflexivity.
Qed.

Lemma node_messages_Decorator element :
  Name element = "Decorator" ->
  length (ChildElements element) <> 1%nat ->
  node_messages element =
    format_error (GetLineNum element) "The node <Decorator> must have exactly 1 child"
    :: (if has_attribute "ID" element then []
        else [format_error (GetLineNum element)
                "The node <Decorator> must have the attribute [ID]"]).
Proof.
  intros HN Hc. unfold node_messages, messages_of, check_node, error_if, ChildrenCount.
  rewrite HN. simpl.
  destruct (Z.eqb_spec (Z.of_nat (length (ChildElements element))) 1); [lia|].
  by destruct (has_attribute "ID" element).
Qed.

(** ** The text of a diagnostic *)

Lemma colon_free_uint d : colon_free (NilEmpty.string_of_uint d) = true.
Proof. induction d; simpl; auto. Qed.

Lemma colon_free_int z : colon_free (NilZero.string_of_int z) = true.
Proof.
  destruct z as [d|d]; simpl; unfold NilZero.string_of_uint;
    destruct d; simpl; auto using colon_free_uint.
Qed.

Lemma colon_split s1 s2 t1 t2 :
  colon_free s1 = true -> colon_free s2 = true ->
  s1 +:+ String ":" t1 = s2 +:+ String ":" t2 -> t1 = t2.
Proof.
  revert s2. induction s1 as [|c s1 IH]; intros [|c' s2] H1 H2 E;
    repeat match type of E with
      | context [EmptyString +:+ ?x] => change (EmptyString +:+ x) with x in E
      | context [String ?a ?s +:+ ?x] => change (String a s +:+ x) with (String a (s +:+ x)) in E
      end; simpl in H1, H2.
  - congruence.
  - injection E as <- _. discriminate.
  - injection E as -> _. discriminate.
  - injection E as _ E.
    apply andb_prop in H1 as [_ H1]. apply andb_prop in H2 as [_ H2]. eauto.
Qed.

Lemma format_error_text line1 text1 line2 text2 :
  format_error line1 text1 = format_error line2 text2 -> text1 = text2.
Proof.
  unfold format_error. intros E.
  repeat match type of E with
    | context [String ?a ?s +:+ ?x] => change (String a s +:+ x) with (String a (s +:+ x)) in E
    | context [EmptyString +:+ ?x] => change (EmptyString +:+ x) with x in E
    end.
  repeat (injection E as E).
  apply colon_split in E; auto using colon_free_int.
  congruence.
Qed.

Lemma about_weaken texts texts' m : texts ⊆ texts' -> about texts m -> about texts' m.
Proof. intros Hs (line & text & Hin & ->). exists line, text. auto. Qed.

Lemma about_other texts m line text :
  about texts m -> text ∉ texts -> m <> format_error line text.
Proof.
  intros (line' & text' & Hin & ->) Hnot E.
  apply format_error_text in E. congruence.
Qed.

Lemma about_here texts line text : text ∈ texts -> about texts (format_error line text).
Proof. intros. by exists line, text. Qed.

Lemma node_messages_about node : Forall (about node_texts) (node_messages node).
Proof.
  unfold node_messages, messages_of, check_node, error_if.
  repeat match goal with
         | |- context [if ?b then _ else _] => destruct b
         end; simpl;
    repeat apply Forall_cons_2; try apply Forall_nil_2;
    apply about_here; unfold node_texts; set_solver.
Qed.

Lemma Forall_flat_map {A B} (P : B -> Prop) (f : A -> list B) (l : list A) :
  Forall (fun x => Forall P (f x)) l -> Forall P (flat_map f l).
Proof. induction 1; simpl; [constructor | by apply Forall_app_2]. Qed.

Lemma tree_messages_about node : Forall (about node_texts) (tree_messages node).
Proof.
  induction node as [name attrs line children IH] using XMLElement_nested_ind.
  rewrite tree_messages_eq. apply Forall_app_2.
  - apply node_messages_about.
  - by apply Forall_flat_map.
Qed.

Lemma bt_root_messages_about bt_root :
  Forall (about (bt_root_text :: node_texts)) (bt_root_messages bt_root).
Proof.
  unfold bt_root_messages, messages_of, check_bt_root.
  destruct (negb _); simpl.
  - repeat constructor. apply about_here. set_solver.
  - destruct (FirstChildElement bt_root) as [child|]; simpl; [|constructor].
    fold (messages_of (recursiveStep child)).
    rewrite (emits_messages_of _ _ (emits_recursiveStep child)).
    eapply Forall_impl; [apply tree_messages_about|].
    intros m. apply about_weaken. intros text Htext. by apply list_elem_of_further.
Qed.

Lemma fold_left_constant {A B} (g : A -> A) (l : list B) (a : A) :
  fold_left (fun a _ => g a) l a = Nat.iter (length l) g a.
Proof.
  revert a. induction l as [|b l IH]; intros a; simpl; [done|].
  rewrite IH. clear IH. induction (length l); simpl; congruence.
Qed.

Lemma declaration_messages_about xml_root node :
  Forall (about declaration_texts) (declaration_messages xml_root node).
Proof.
  unfold declaration_messages, messages_of, check_declaration.
  destruct (_ || _); [|constructor].
  rewrite fold_left_constant.
  set (r0 := error_if _ node _ empty_report).
  assert (Forall (about declaration_texts) (error_messages r0)) as H0.
  { unfold r0, error_if. destruct (negb _); simpl; repeat constructor.
    apply about_here. unfold declaration_texts. set_solver. }
  clearbody r0.
  induction (length _) as [|n IH]; simpl; [done|].
  unfold error_if at 1. destruct (_ || _); [|done].
  simpl. apply Forall_app_2; [done|]. repeat constructor.
  apply about_here. unfold declaration_texts. set_solver.
Qed.

(** ** The flag and the list (C5) *)

Lemma document_messages_metamodel xml_root m :
  m ∈ metamodel_messages xml_root -> m ∈ document_messages xml_root.
Proof. intros H. apply elem_of_app. by left. Qed.

Lemma document_messages_bt_root xml_root bt_root m :
  bt_root ∈ bt_roots_of xml_root ->
  m ∈ bt_root_messages bt_root ->
  m ∈ document_messages xml_root.
Proof.
  intros Hbt Hm. apply elem_of_app. right.
  apply elem_of_flat_map. by exists bt_root.
Qed.

Lemma single_child {A} (l : list A) : length l = 1%nat -> exists x, l = [x].
Proof. destruct l as [|x [|y l]]; simpl; intros; try lia. by exists x. Qed.

Lemma reachable_messages bt_root element m :
  length (ChildElements bt_root) = 1%nat ->
  element ∈ reachable_from bt_root ->
  m ∈ node_messages element ->
  m ∈ bt_root_messages bt_root.
Proof.
  intros Hlen Hin Hm. destruct (single_child _ Hlen) as [child Hc].
  rewrite (bt_root_messages_single _ _ Hc).
  unfold reachable_from in Hin. rewrite Hc in Hin. simpl in Hin. rewrite app_nil_r in Hin.
  destruct (tree_messages_segment _ _ Hin) as (pre & post & ->).
  rewrite !elem_of_app. auto.
Qed.

(** C5, as the code has it.  The flag returned by [verifyXML] is [true]
    exactly when the list of diagnostics is empty; and no check is skipped
    because an earlier one failed: in a loaded document with a [root], every
    diagnostic of the root-level block, the diagnostic of every [BehaviorTree]
    element whose child count is not 1, and every diagnostic of every element
    below a [BehaviorTree] element that has exactly one child are in the list
    that is returned. *)
Theorem verifyXML_collects doc_ msgs0 :
  (fst (verifyXML doc_ msgs0) = true <-> snd (verifyXML doc_ msgs0) = [])
  /\ forall xml_root,
      Error doc_ = false -> RootElement doc_ = Some xml_root -> Name xml_root = "root" ->
      (forall m, m ∈ metamodel_messages xml_root -> m ∈ snd (verifyXML doc_ msgs0))
      /\ forall bt_root,
          bt_root ∈ bt_roots_of xml_root ->
          (length (ChildElements bt_root) <> 1%nat ->
           format_error (GetLineNum bt_root) bt_root_text ∈ snd (verifyXML doc_ msgs0))
          /\ (length (ChildElements bt_root) = 1%nat ->
              forall element m,
                element ∈ reachable_from bt_root ->
                m ∈ node_messages element ->
                m ∈ snd (verifyXML doc_ msgs0)).
Proof.
  split.
  - rewrite verifyXML_flag. destruct (snd (verifyXML doc_ msgs0)); split; congruence.
  - intros xml_root HE HR HN. rewrite (verifyXML_root _ _ _ HE HR HN). simpl.
    split; [apply document_messages_metamodel|].
    intros bt_root Hbt. split.
    + intros Hlen. apply (document_messages_bt_root _ bt_root); [done|].
      rewrite (bt_root_messages_malformed _ Hlen). apply list_elem_of_here.
    + intros Hlen element m Hin Hm.
      apply (document_messages_bt_root _ bt_root); [done|].
      by apply (reachable_messages _ element).
Qed.

Lemma verifyXML_collects_witness :
  "Error at line 3: -> The node <Decorator> must have exactly 1 child"
    ∈ snd (verifyXML (document root_with_wide_decorator) []).
Proof.
  destruct (verifyXML_collects (document root_with_wide_decorator) []) as [_ H].
  destruct (H root_with_wide_decorator eq_refl eq_refl eq_refl) as [_ Hbt].
  destruct (Hbt (element "BehaviorTree" [("ID", "MainTree")] 2 [decorator_two_children])
              ltac:(apply list_elem_of_here)) as [_ Hvisit].
  apply (Hvisit eq_refl decorator_two_children).
  - apply list_elem_of_here.
  - apply list_elem_of_here.
Defined.

(** C5 as stated fails: the Decorator with two children at line 3 breaks
    the grammar, but it sits in a [BehaviorTree] element with two children,
    and the only diagnostic is the one for that [BehaviorTree] element. *)
Lemma verifyXML_misses_violation :
  verifyXML (document root_with_wide_tree) [] =
    (false, ["Error at line 2: -> The node <BehaviorTree> must have exactly 1 child"])
  /\ ~ every_violation_reported root_with_wide_tree
         (snd (verifyXML (document root_with_wide_tree) [])).
Proof.
  split; [reflexivity|].
  intros H.
  destruct (H wide_tree decorator_two_children) as (m & Hm & Hin).
  - apply list_elem_of_here.
  - apply list_elem_of_here.
  - reflexivity.
  - vm_compute in Hm, Hin.
    apply list_elem_of_singleton in Hm. apply list_elem_of_singleton in Hin.
    rewrite Hm in Hin. discriminate Hin.
Qed.

(** ** The grammar is enforced (C6) *)

Lemma document_valid_no_messages doc_ msgs0 xml_root :
  Error doc_ = false -> RootElement doc_ = Some xml_root -> Name xml_root = "root" ->
  fst (verifyXML doc_ msgs0) = true -> document_messages xml_root = [].
Proof.
  intros HE HR HN. rewrite (verifyXML_root _ _ _ HE HR HN). simpl.
  by destruct (document_messages xml_root).
Qed.

Lemma elem_of_nil_False {A} (x : A) (l : list A) : l = [] -> x ∈ l -> False.
Proof. intros -> H. by apply elem_of_nil in H. Qed.

(** C6, as the code has it.  In a loaded document with a [root], for every
    [BehaviorTree] element under the root: if [verifyXML] returns valid, the
    element has exactly one child and every element below it obeys the
    grammar of the specification (Decorator: 1 child and ID; Action,
    Condition: 0 children and ID; control kinds: at least 1 child; SubTree: 0
    children and ID; no other name); a [BehaviorTree] element whose child
    count is not 1 makes the result invalid with its diagnostic; and below a
    [BehaviorTree] element with exactly one child, an element that breaks its
    rule makes the result invalid, all its diagnostics are returned, and a
    name that is not part of the grammar yields the diagnostic "Node not
    recognized" with the element's line. *)
Theorem validator_enforces_grammar doc_ msgs0 xml_root bt_root :
  Error doc_ = false -> RootElement doc_ = Some xml_root -> Name xml_root = "root" ->
  bt_root ∈ bt_roots_of xml_root ->
  (fst (verifyXML doc_ msgs0) = true ->
   length (ChildElements bt_root) = 1%nat
   /\ forall element, element ∈ reachable_from bt_root -> grammar_rule_holds element = true)
  /\ (length (ChildElements bt_root) <> 1%nat ->
      fst (verifyXML doc_ msgs0) = false
      /\ format_error (GetLineNum bt_root) bt_root_text ∈ snd (verifyXML doc_ msgs0))
  /\ (length (ChildElements bt_root) = 1%nat ->
      forall element,
        element ∈ reachable_from bt_root ->
        grammar_rule_holds element = false ->
        fst (verifyXML doc_ msgs0) = false
        /\ (forall m, m ∈ node_messages element -> m ∈ snd (verifyXML doc_ msgs0))
        /\ (recognized (Name element) = false ->
            format_error (GetLineNum element) "Node not recognized"
              ∈ snd (verifyXML doc_ msgs0))).
Proof.
  intros HE HR HN Hbt.
  assert (forall m, m ∈ bt_root_messages bt_root -> m ∈ document_messages xml_root) as Hsub
    by (intros m; by apply document_messages_bt_root).
  assert (forall m, m ∈ document_messages xml_root -> fst (verifyXML doc_ msgs0) = false)
    as Hinvalid.
  { intros m Hm. rewrite (verifyXML_root _ _ _ HE HR HN). simpl.
    destruct (document_messages xml_root); [by apply elem_of_nil in Hm | done]. }
  assert (length (ChildElements bt_root) <> 1%nat ->
          format_error (GetLineNum bt_root) bt_root_text ∈ document_messages xml_root)
    as Hmalformed.
  { intros Hlen. apply Hsub. rewrite (bt_root_messages_malformed _ Hlen).
    apply list_elem_of_here. }
  split; [|split].
  - intros Hvalid.
    pose proof (document_valid_no_messages _ _ _ HE HR HN Hvalid) as Hnil.
    assert (length (ChildElements bt_root) = 1%nat) as Hlen.
    { destruct (decide (length (ChildElements bt_root) = 1%nat)) as [|Hne]; [done|].
      destruct (elem_of_nil_False _ _ Hnil (Hmalformed Hne)). }
    split; [done|]. intros element Hin.
    apply node_messages_nil_iff.
    destruct (node_messages element) as [|m ms] eqn:Hms; [done|].
    exfalso. apply (elem_of_nil_False m _ Hnil), Hsub.
    apply (reachable_messages _ element); [done..|].
    rewrite Hms. apply list_elem_of_here.
  - intros Hlen. split; [by eapply Hinvalid, Hmalformed|].
    rewrite (verifyXML_root _ _ _ HE HR HN). by apply Hmalformed.
  - intros Hlen element Hin Hbad.
    assert (forall m, m ∈ node_messages element -> m ∈ document_messages xml_root) as Hall.
    { intros m Hm. by apply Hsub, (reachable_messages _ element). }
    split; [|split].
    + destruct (node_messages element) as [|m ms] eqn:Hms.
      * apply node_messages_nil_iff in Hms. congruence.
      * apply (Hinvalid m), Hall, list_elem_of_here.
    + rewrite (verifyXML_root _ _ _ HE HR HN). exact Hall.
    + intros Hname. rewrite (verifyXML_root _ _ _ HE HR HN). simpl.
      apply Hall. rewrite (node_messages_unrecognized _ Hname). apply list_elem_of_here.
Qed.

Lemma validator_enforces_grammar_witness :
  grammar_rule_holds (element "SubTree" [("ID", "Sub")] 5 []) = true.
Proof.
  refine (proj2 (proj1 (validator_enforces_grammar (document root_with_subtree) []
                          root_with_subtree
                          (element "BehaviorTree" [("ID", "MainTree")] 2
                             [ element "Sequence" [("name", "root_sequence")] 3
                                 [ element "Action" [("ID", "SayHello")] 4 [];
                                   element "SubTree" [("ID", "Sub")] 5 [] ] ])
                          eq_refl eq_refl eq_refl _) _) _ _).
  - apply list_elem_of_here.
  - reflexivity.
  - unfold reachable_from. simpl.
    do 2 apply list_elem_of_further. apply list_elem_of_here.
Defined.

(** C6 as stated fails in its last part: the element at line 3 is a child
    of a [BehaviorTree] element and its name is not part of the grammar, but
    no "Node not recognized" diagnostic is produced for it, because the
    [BehaviorTree] element has two children and is not descended into. *)
Lemma stray_element_not_reported :
  tree_with_stray_element ∈ bt_roots_of root_with_stray_element
  /\ stray_element ∈ reachable_from tree_with_stray_element
  /\ recognized (Name stray_element) = false
  /\ snd (verifyXML (document root_with_stray_element) []) =
       ["Error at line 2: -> The node <BehaviorTree> must have exactly 1 child"]
  /\ ~ format_error (GetLineNum stray_element) "Node not recognized"
       ∈ snd (verifyXML (document root_with_stray_element) []).
Proof.
  split; [apply list_elem_of_here|]. split; [apply list_elem_of_here|].
  split; [reflexivity|]. split; [reflexivity|].
  intros H. vm_compute in H. apply list_elem_of_singleton in H. discriminate H.
Qed.

(** ** A Decorator with two children (C7) *)

Lemma filter_eqb_once (m : string) (l : list string) :
  (forall x, x ∈ l -> x <> m) ->
  length (List.filter (String.eqb m) (m :: l)) = 1%nat.
Proof.
  intros H. cbn [List.filter]. rewrite String.eqb_refl. cbn [length]. f_equal.
  induction l as [|x l IH]; [done|].
  cbn [List.filter]. destruct (String.eqb_spec m x) as [->|].
  - destruct (H x); [apply list_elem_of_here | done].
  - apply IH. intros y Hy. apply H. by apply list_elem_of_further.
Qed.

(** C7, as the code has it.  In a loaded document with a [root], a
    Decorator element with 2 children that lies below a [BehaviorTree]
    element (itself a child of the root) with exactly one child makes
    [verifyXML] return invalid, and the diagnostics the validator appends
    for that element are a segment of the returned list in which the
    message "The node <Decorator> must have exactly 1 child", with the
    element's line number, occurs exactly once. *)
Theorem decorator_two_children_reported doc_ msgs0 xml_root bt_root decorator :
  Error doc_ = false -> RootElement doc_ = Some xml_root -> Name xml_root = "root" ->
  bt_root ∈ bt_roots_of xml_root ->
  length (ChildElements bt_root) = 1%nat ->
  decorator ∈ reachable_from bt_root ->
  Name decorator = "Decorator" ->
  length (ChildElements decorator) = 2%nat ->
  let m := format_error (GetLineNum decorator)
             "The node <Decorator> must have exactly 1 child" in
  fst (verifyXML doc_ msgs0) = false
  /\ m ∈ snd (verifyXML doc_ msgs0)
  /\ exists pre post,
      snd (verifyXML doc_ msgs0) = pre ++ node_messages decorator ++ post
      /\ length (List.filter (String.eqb m) (node_messages decorator)) = 1%nat.
Proof.
  intros HE HR HN Hbt Hlen Hin Hname Htwo m.
  assert (node_messages decorator =
            m :: (if has_attribute "ID" decorator then []
                  else [format_error (GetLineNum decorator)
                          "The node <Decorator> must have the attribute [ID]"])) as Hmsgs
    by (apply node_messages_Decorator; [done | lia]).
  assert (m ∈ node_messages decorator) as Hm by (rewrite Hmsgs; apply list_elem_of_here).
  assert (exists pre post, document_messages xml_root = pre ++ node_messages decorator ++ post)
    as (pre & post & Hseg).
  { destruct (single_child _ Hlen) as [child Hc].
    unfold reachable_from in Hin. rewrite Hc in Hin. simpl in Hin. rewrite app_nil_r in Hin.
    destruct (tree_messages_segment _ _ Hin) as (pre1 & post1 & E1).
    destruct (flat_map_segment bt_root_messages _ _ Hbt) as (pre2 & post2 & E2).
    exists (metamodel_messages xml_root ++ pre2 ++ pre1), (post1 ++ post2).
    unfold document_messages, bt_roots_of in *.
    rewrite E2, (bt_root_messages_single _ _ Hc), E1. by rewrite <- !app_assoc. }
  rewrite (verifyXML_root _ _ _ HE HR HN). cbn [fst snd].
  split; [|split].
  - rewrite Hseg, Hmsgs. by destruct pre.
  - rewrite Hseg, !elem_of_app. auto.
  - exists pre, post. split; [done|].
    rewrite Hmsgs. apply filter_eqb_once.
    intros x Hx E. subst x.
    destruct (has_attribute "ID" decorator); [by apply elem_of_nil in Hx|].
    apply list_elem_of_singleton, format_error_text in Hx. discriminate Hx.
Qed.

Lemma decorator_two_children_reported_witness :
  fst (verifyXML (document root_with_wide_decorator) []) = false
  /\ "Error at line 3: -> The node <Decorator> must have exactly 1 child"
       ∈ snd (verifyXML (document root_with_wide_decorator) []).
Proof.
  destruct (decorator_two_children_reported (document root_with_wide_decorator) []
              root_with_wide_decorator
              (element "BehaviorTree" [("ID", "MainTree")] 2 [decorator_two_children])
              decorator_two_children eq_refl eq_refl eq_refl) as (Hv & Hm & _).
  - apply list_elem_of_here.
  - reflexivity.
  - apply list_elem_of_here.
  - reflexivity.
  - reflexivity.
  - split; [exact Hv | exact Hm].
Defined.

(** C7 as stated fails: in this document the Decorator declared with two
    children at line 3 gets no diagnostic; the only one is for the enclosing
    [BehaviorTree] element and cites line 2. *)
Lemma decorator_two_children_unreported :
  decorator_two_children ∈ reachable_from wide_tree
  /\ length (ChildElements decorator_two_children) = 2%nat
  /\ snd (verifyXML (document root_with_wide_tree) []) =
       ["Error at line 2: -> The node <BehaviorTree> must have exactly 1 child"]
  /\ ~ format_error (GetLineNum decorator_two_children)
         "The node <Decorator> must have exactly 1 child"
       ∈ snd (verifyXML (document root_with_wide_tree) []).
Proof.
  split; [apply list_elem_of_here|]. split; [reflexivity|]. split; [reflexivity|].
  intros H. vm_compute in H. apply list_elem_of_singleton in H. discriminate H.
Qed.

(** ** A [BehaviorTree] element without exactly one child (C9) *)

Lemma same_header_refl l : Forall2 same_header l l.
Proof. induction l; constructor; [by repeat split | done]. Qed.

Lemma same_header_without_children e : same_header e (without_children e).
Proof. by repeat split. Qed.

Lemma first_named_same_header name l l' :
  Forall2 same_header l l' ->
  match first_named name l, first_named name l' with
  | Some (e, rest), Some (e', rest') => same_header e e' /\ Forall2 same_header rest rest'
  | None, None => True
  | _, _ => False
  end.
Proof.
  induction 1 as [|e e' l l' He Hl IH]; simpl; [done|].
  destruct He as (HN & HA & HL). rewrite <- HN.
  destruct (strEqual (Name e) name); [|exact IH].
  by repeat split.
Qed.

Lemma elements_named_same_header name l l' :
  Forall2 same_header l l' ->
  length (elements_named name l) = length (elements_named name l').
Proof.
  induction 1 as [|e e' l l' He Hl IH]; simpl; [done|].
  destruct He as (HN & _). rewrite <- HN.
  destruct (strEqual (Name e) name); simpl; congruence.
Qed.

Lemma check_declaration_same_header xml_root xml_root' node node' r :
  Forall2 same_header (ChildElements xml_root) (ChildElements xml_root') ->
  same_header node node' ->
  check_declaration xml_root node r = check_declaration xml_root' node' r.
Proof.
  intros Hroot (HN & HA & HL). unfold check_declaration, error_if, has_attribute, Attribute.
  rewrite !fold_left_constant, <- HN, <- HA, <- HL.
  by rewrite (elements_named_same_header "Parameter" _ _ Hroot).
Qed.

Lemma metamodel_checks_same_header xml_root xml_root' r :
  Forall2 same_header (ChildElements xml_root) (ChildElements xml_root') ->
  metamodel_checks xml_root r = metamodel_checks xml_root' r.
Proof.
  intros Hroot. unfold metamodel_checks.
  pose proof (first_named_same_header "TreeNodesModel" _ _ Hroot) as H1.
  assert (forall l l' r0, Forall2 same_header l l' ->
            fold_left (fun r node => check_declaration xml_root node r) l r0
            = fold_left (fun r node => check_declaration xml_root' node r) l' r0) as Hfold.
  { intros l l' r0 Hl. revert r0.
    induction Hl as [|e e' l l' He Hl IH]; intros r0; simpl; [done|].
    by rewrite (check_declaration_same_header xml_root xml_root' e e' r0 Hroot He), IH. }
  destruct (first_named "TreeNodesModel" (ChildElements xml_root)) as [[e rest]|],
           (first_named "TreeNodesModel" (ChildElements xml_root')) as [[e' rest']|];
    try done.
  destruct H1 as [_ Hrest].
  pose proof (first_named_same_header "TreeNodesModel" _ _ Hrest) as H2.
  destruct (first_named "TreeNodesModel" rest) as [[s ?]|],
           (first_named "TreeNodesModel" rest') as [[s' ?]|]; try done.
  - destruct H2 as [(_ & _ & HL) _]. rewrite HL. by apply Hfold.
  - by apply Hfold.
Qed.

Lemma elements_named_app name l1 l2 :
  elements_named name (l1 ++ l2) = elements_named name l1 ++ elements_named name l2.
Proof. apply List.filter_app. Qed.

Lemma bt_roots_of_middle xml_root before bt_root after :
  ChildElements xml_root = before ++ bt_root :: after ->
  Name bt_root = "BehaviorTree" ->
  bt_roots_of xml_root =
    elements_named "BehaviorTree" before ++ bt_root :: elements_named "BehaviorTree" after.
Proof.
  intros Hc HN. unfold bt_roots_of. rewrite Hc, elements_named_app. f_equal.
  unfold elements_named. simpl. by rewrite HN.
Qed.

(** C9.  In a loaded document with a [root], a [BehaviorTree] child of the
    root whose child count is not 1 contributes exactly one diagnostic (its
    own, with its line number), the result is invalid, and nothing below that
    element is looked at: [verifyXML] returns exactly what it returns for the
    document in which that element has been emptied. *)
Theorem malformed_tree_not_descended doc_ msgs0 xml_root before bt_root after :
  Error doc_ = false -> RootElement doc_ = Some xml_root -> Name xml_root = "root" ->
  ChildElements xml_root = before ++ bt_root :: after ->
  Name bt_root = "BehaviorTree" ->
  length (ChildElements bt_root) <> 1%nat ->
  bt_root_messages bt_root = [format_error (GetLineNum bt_root) bt_root_text]
  /\ fst (verifyXML doc_ msgs0) = false
  /\ format_error (GetLineNum bt_root) bt_root_text ∈ snd (verifyXML doc_ msgs0)
  /\ verifyXML doc_ msgs0 =
       verifyXML (document (with_child_elements xml_root
                              (before ++ without_children bt_root :: after))) msgs0.
Proof.
  intros HE HR HN Hc Hname Hlen.
  pose proof (bt_root_messages_malformed _ Hlen) as Hown.
  pose proof (bt_roots_of_middle _ _ _ _ Hc Hname) as Hbts.
  assert (format_error (GetLineNum bt_root) bt_root_text ∈ document_messages xml_root) as Hin.
  { apply (document_messages_bt_root _ bt_root).
    - rewrite Hbts, elem_of_app. right. apply list_elem_of_here.
    - rewrite Hown. apply list_elem_of_here. }
  split; [exact Hown|].
  rewrite (verifyXML_root _ _ _ HE HR HN). cbn [fst snd].
  split; [|split; [exact Hin|]].
  - destruct (document_messages xml_root); [by apply elem_of_nil in Hin | done].
  - set (xml_root' := with_child_elements xml_root
                        (before ++ without_children bt_root :: after)).
    rewrite (verifyXML_root (document xml_root') xml_root' msgs0 eq_refl eq_refl HN).
    assert (document_messages xml_root = document_messages xml_root') as ->; [|done].
    unfold document_messages. f_equal.
    + unfold metamodel_messages, messages_of.
      rewrite (metamodel_checks_same_header xml_root xml_root'); [done|].
      rewrite Hc. simpl. apply Forall2_app; [apply same_header_refl|].
      constructor; [apply same_header_without_children | apply same_header_refl].
    + fold (bt_roots_of xml_root) (bt_roots_of xml_root').
      rewrite Hbts.
      rewrite (bt_roots_of_middle xml_root' before (without_children bt_root) after
                 eq_refl Hname).
      rewrite !flat_map_app. cbn [flat_map]. rewrite Hown.
      by rewrite (bt_root_messages_malformed (without_children bt_root)).
Qed.

Lemma malformed_tree_not_descended_witness :
  verifyXML (document root_with_wide_tree) [] =
    verifyXML (document (element "root" [("main_tree_to_execute", "MainTree")] 1
                           [ element "BehaviorTree" [("ID", "MainTree")] 2 [] ])) [].
Proof.
  refine (proj2 (proj2 (proj2
            (malformed_tree_not_descended (document root_with_wide_tree) []
               root_with_wide_tree [] wide_tree [] eq_refl eq_refl eq_refl eq_refl eq_refl _)))).
  simpl. lia.
Defined.

(** ** The [TreeNodesModel] element (C10) *)

Lemma first_named_elements_named name l :
  match elements_named name l with
  | [] => first_named name l = None
  | first :: others =>
      exists following,
        first_named name l = Some (first, following)
        /\ elements_named name following = others
  end.
Proof.
  induction l as [|e l IH]; simpl; [done|].
  destruct (strEqual (Name e) name); [by exists l | exact IH].
Qed.

Lemma metamodel_checks_no_model xml_root r :
  elements_named "TreeNodesModel" (ChildElements xml_root) = [] ->
  metamodel_checks xml_root r = r.
Proof.
  intros Hnone.
  pose proof (first_named_elements_named "TreeNodesModel" (ChildElements xml_root)) as H.
  rewrite Hnone in H. unfold metamodel_checks. by rewrite H.
Qed.

Lemma metamodel_messages_many_models xml_root first second others :
  elements_named "TreeNodesModel" (ChildElements xml_root) = first :: second :: others ->
  metamodel_messages xml_root =
    format_error (GetLineNum second) single_model_text
    :: flat_map (declaration_messages xml_root) (ChildElements xml_root).
Proof.
  intros Hmany.
  pose proof (first_named_elements_named "TreeNodesModel" (ChildElements xml_root)) as H.
  rewrite Hmany in H. destruct H as (following & H1 & Hrest).
  pose proof (first_named_elements_named "TreeNodesModel" following) as H2.
  rewrite Hrest in H2. destruct H2 as (following' & H2 & _).
  unfold metamodel_messages. apply emits_messages_of.
  eapply emits_ext.
  - intros r. unfold metamodel_checks. rewrite H1, H2. reflexivity.
  - apply (emits_then (AppendError (GetLineNum second) single_model_text)
             (fun r => fold_left (fun r node => check_declaration xml_root node r)
                         (ChildElements xml_root) r)
             [format_error (GetLineNum second) single_model_text]).
    + apply emits_AppendError.
    + apply (emits_fold (check_declaration xml_root)), Forall_forall.
      intros node _. apply emits_check_declaration.
Qed.

Lemma single_model_text_elsewhere m line :
  about (bt_root_text :: node_texts ++ declaration_texts) m ->
  m <> format_error line single_model_text.
Proof.
  intros H. apply (about_other _ _ _ _ H).
  apply (bool_decide_unpack _). vm_compute. exact I.
Qed.

(** C10.  In a loaded document with a [root]: when the root has no
    [TreeNodesModel] child, the root-level block leaves the report as it
    found it (no diagnostic, none of the per-declaration checks), so the
    diagnostics are those of the [BehaviorTree] elements alone; when it has
    two or more, the returned list starts with the diagnostic "Only a single
    node <TreeNodesModel> is supported" at the line of the second one, and
    no other diagnostic in the list has that text, however many
    [TreeNodesModel] siblings follow. *)
Theorem tree_nodes_model_optional doc_ msgs0 xml_root :
  Error doc_ = false -> RootElement doc_ = Some xml_root -> Name xml_root = "root" ->
  (elements_named "TreeNodesModel" (ChildElements xml_root) = [] ->
   (forall r, metamodel_checks xml_root r = r)
   /\ snd (verifyXML doc_ msgs0) = flat_map bt_root_messages (bt_roots_of xml_root))
  /\ (forall first second others,
        elements_named "TreeNodesModel" (ChildElements xml_root) = first :: second :: others ->
        exists rest,
          snd (verifyXML doc_ msgs0) =
            format_error (GetLineNum second) single_model_text :: rest
          /\ forall m line, m ∈ rest -> m <> format_error line single_model_text).
Proof.
  intros HE HR HN. rewrite (verifyXML_root _ _ _ HE HR HN). cbn [fst snd].
  split.
  - intros Hnone. split; [intros r; by apply metamodel_checks_no_model|].
    unfold document_messages, metamodel_messages, messages_of.
    by rewrite metamodel_checks_no_model.
  - intros first second others Hmany.
    exists (flat_map (declaration_messages xml_root) (ChildElements xml_root)
            ++ flat_map bt_root_messages (bt_roots_of xml_root)).
    split.
    + unfold document_messages.
      by rewrite (metamodel_messages_many_models _ _ _ _ Hmany).
    + intros m line Hm. apply single_model_text_elsewhere.
      apply elem_of_app in Hm as [Hm|Hm];
        apply elem_of_flat_map in Hm as (x & _ & Hm).
      * pose proof (declaration_messages_about xml_root x) as Hall.
        rewrite Forall_forall in Hall.
        apply (about_weaken declaration_texts); [|by apply Hall].
        intros t Ht. apply list_elem_of_further, elem_of_app. by right.
      * pose proof (bt_root_messages_about x) as Hall.
        rewrite Forall_forall in Hall.
        apply (about_weaken (bt_root_text :: node_texts)); [|by apply Hall].
        intros t Ht. apply elem_of_cons in Ht as [->|Ht]; [apply list_elem_of_here|].
        apply list_elem_of_further, elem_of_app. by left.
Qed.

Lemma tree_nodes_model_optional_witness :
  snd (verifyXML (document root_with_subtree) []) = []
  /\ exists rest,
      snd (verifyXML (document root_with_three_models) []) =
        "Error at line 6: ->  Only a single node <TreeNodesModel> is supported" :: rest
      /\ forall m line, m ∈ rest -> m <> format_error line single_model_text.
Proof.
  split.
  - destruct (tree_nodes_model_optional (document root_with_subtree) [] root_with_subtree
                eq_refl eq_refl eq_refl) as [H _].
    destruct (H eq_refl) as [_ ->]. reflexivity.
  - destruct (tree_nodes_model_optional (document root_with_three_models) []
                root_with_three_models eq_refl eq_refl eq_refl) as [_ H].
    exact (H _ _ _ eq_refl).
Defined.

(** * Properties of the builder *)

(** ** Validation failure (C1) *)

(** C1.  When validation of the definition produces at least one
    diagnostic, [instantiateTree] writes every diagnostic to [std::cerr], in
    order, and throws [runtime_error("verifyXML failed")]; the store of
    allocated nodes and the caller's vector are what they were before the
    call, so no node was instantiated. *)
Theorem invalid_definition_not_built fuel doc_ factory w :
  snd (verifyXML doc_ []) <> [] ->
  instantiateTree fuel doc_ factory w =
    (Thrown (runtime_error "verifyXML failed"),
     {| heap := heap w; nodes := nodes w; cerr := cerr w ++ snd (verifyXML doc_ []) |}).
Proof.
  intros Hmsgs. unfold instantiateTree.
  destruct (snd (verifyXML doc_ [])) as [|m ms]; [done|].
  reflexivity.
Qed.

Lemma invalid_definition_not_built_witness :
  instantiateTree 7 (document root_with_wide_decorator) sample_factory empty_world =
    (Thrown (runtime_error "verifyXML failed"),
     {| heap := []; nodes := [];
        cerr := ["Error at line 3: -> The node <Decorator> must have exactly 1 child"] |}).
Proof.
  refine (invalid_definition_not_built 7 (document root_with_wide_decorator)
            sample_factory empty_world _).
  vm_compute. discriminate.
Defined.

(** ** A main tree that does not exist (C3) *)

Lemma missing_main_tree_null xml_root bt_roots main_tree_ID fuel doc_ factory w :
  snd (verifyXML doc_ []) = [] ->
  RootElement doc_ = Some xml_root ->
  Attribute "main_tree_to_execute" xml_root = Some main_tree_ID ->
  collect_bt_roots xml_root = Some bt_roots ->
  bt_roots !! main_tree_ID = None ->
  instantiateTree fuel doc_ factory w = (Undefined, w).
Proof.
  intros Hv HR HM HB HL. unfold instantiateTree.
  rewrite Hv, HR, HM, HB, HL. reflexivity.
Qed.

(** C3 at a concrete definition.  The definition below is valid for
    [verifyXML]; its [main_tree_to_execute] names no [BehaviorTree] element.
    [bt_roots[main_tree_ID]] is then a null pointer and the call
    [->FirstChildElement()] on it is undefined: no exception is thrown.  No
    node has been instantiated at that point. *)
Theorem missing_main_tree_dereferenced fuel :
  verifyXML (document root_missing_main_tree) [] = (true, [])
  /\ instantiateTree fuel (document root_missing_main_tree) sample_factory empty_world
     = (Undefined, empty_world).
Proof.
  split; [reflexivity|].
  by apply (missing_main_tree_null root_missing_main_tree
              {[ "MainTree" := element "BehaviorTree" [("ID", "MainTree")] 2
                                 [ element "Action" [("ID", "SayHello")] 3 [] ] ]}
              "Missing").
Qed.

(** ** Reasoning about [Build] computations *)

Lemma bind_inv {A B} (c : Build A) (k : A -> Build B) w out w' :
  bind c k w = (out, w') ->
  (exists a w1, c w = (Returned a, w1) /\ k a w1 = (out, w'))
  \/ (exists out1, c w = (out1, w') /\ same_failure out1 out).
Proof.
  unfold bind. destruct (c w) as [[a|e| |] w1]; intros E.
  - left. by exists a, w1.
  - injection E as <- <-. right. by eexists.
  - injection E as <- <-. right. by eexists.
  - injection E as <- <-. right. by eexists.
Qed.

Lemma bind_Returned {A B} (c : Build A) (k : A -> Build B) w b w' :
  bind c k w = (Returned b, w') ->
  exists a w1, c w = (Returned a, w1) /\ k a w1 = (Returned b, w').
Proof.
  intros H. destruct (bind_inv _ _ _ _ _ H) as [H1|(out1 & _ & Hf)]; [exact H1|].
  by destruct out1.
Qed.

Section Follows.
Variable R : World -> World -> Prop.
Hypothesis R_refl : forall w, R w w.
Hypothesis R_trans : forall w1 w2 w3, R w1 w2 -> R w2 w3 -> R w1 w3.

Lemma follows_ret {A} (a : A) : follows R (ret a).
Proof. intros w out w' [= _ <-]. apply R_refl. Qed.

Lemma follows_throw {A} e : follows R (@throw A e).
Proof. intros w out w' [= _ <-]. apply R_refl. Qed.

Lemma follows_undefined {A} : follows R (@undefined A).
Proof. intros w out w' [= _ <-]. apply R_refl. Qed.

Lemma follows_out_of_fuel {A} : follows R (@out_of_fuel A).
Proof. intros w out w' [= _ <-]. apply R_refl. Qed.

Lemma follows_get_node p : follows R (get_node p).
Proof.
  intros w out w'. unfold get_node.
  destruct (heap w !! p); intros [= _ <-]; apply R_refl.
Qed.

Lemma follows_bind {A B} (c : Build A) (k : A -> Build B) :
  follows R c -> (forall a, follows R (k a)) -> follows R (bind c k).
Proof.
  intros Hc Hk w out w' H.
  destruct (bind_inv _ _ _ _ _ H) as [(a & w1 & H1 & H2)|(out1 & H1 & _)].
  - apply (R_trans _ w1); [exact (Hc _ _ _ H1) | exact (Hk _ _ _ _ H2)].
  - exact (Hc _ _ _ H1).
Qed.

Lemma follows_for_each {A} (body : A -> Build unit) (l : list A) :
  Forall (fun a => follows R (body a)) l -> follows R (for_each body l).
Proof.
  induction 1 as [|a l Ha _ IH]; simpl.
  - apply follows_ret.
  - apply follows_bind; [exact Ha | intros _; exact IH].
Qed.

(** Modelled [treeParsing] does nothing to the world but call the builder. *)
Lemma follows_treeParsing (node_builder : NodeBuilder) :
  (forall ID name params parent, follows R (node_builder ID name params parent)) ->
  forall element parent, follows R (treeParsing node_builder element parent).
Proof.
  intros Hnb element.
  induction element as [name attrs line children IH] using XMLElement_nested_ind.
  intros parent. simpl.
  destruct (node_ID _); [|apply follows_undefined].
  destruct (node_alias _); [|apply follows_undefined].
  apply follows_bind; [apply Hnb|]. intros node.
  apply follows_bind; [|intros; apply follows_ret].
  apply follows_for_each. eapply Forall_impl; [exact IH|].
  intros child Hchild. simpl.
  apply follows_bind; [apply Hchild | intros; apply follows_ret].
Qed.
End Follows.

(** ** The flat list records every allocation (C4) *)

Lemma recorded_refl w : recorded w w.
Proof.
  repeat split; [done|]. rewrite Nat.sub_diag. simpl. by rewrite app_nil_r.
Qed.

Lemma recorded_trans w1 w2 w3 : recorded w1 w2 -> recorded w2 w3 -> recorded w1 w3.
Proof.
  intros (L1 & N1 & C1) (L2 & N2 & C2). repeat split; [lia| |congruence].
  rewrite N2, N1, <- app_assoc. f_equal.
  replace (length (heap w3) - length (heap w1))
    with ((length (heap w2) - length (heap w1)) + (length (heap w3) - length (heap w2)))
    by lia.
  rewrite List.seq_app. do 2 f_equal. lia.
Qed.

Lemma recorded_same w w' :
  length (heap w') = length (heap w) -> nodes w' = nodes w -> cerr w' = cerr w ->
  recorded w w'.
Proof.
  intros HL HN HC. unfold recorded. rewrite HL, HN, HC. apply recorded_refl.
Qed.

Lemma follows_set_children p cs : follows recorded (set_children p cs).
Proof.
  intros w out w'. unfold set_children.
  destruct (heap w !! p); intros [= _ <-]; [|apply recorded_refl].
  apply recorded_same; simpl; [apply length_insert | done..].
Qed.

Lemma follows_attach parent child_node : follows recorded (attach parent child_node).
Proof.
  pose proof recorded_refl. pose proof recorded_trans.
  destruct parent as [p|]; simpl; [|by apply follows_ret].
  apply follows_bind; [done..|by apply follows_get_node|]. intros n.
  apply follows_bind; [done..| |intros _].
  - destruct (is_ControlNode _); [|by apply follows_ret].
    apply follows_bind; [done..|by apply follows_get_node|].
    intros; apply follows_set_children.
  - destruct (is_DecoratorNode _); [|by apply follows_ret].
    apply follows_bind; [done..|by apply follows_get_node|].
    intros n'. destruct (children n'); [apply follows_set_children | by apply follows_throw].
Qed.

Lemma follows_allocate {A} factory ID name params (k : nat -> Build A) :
  (forall child_node, follows recorded (k child_node)) ->
  follows recorded
    (child_node <~ instantiateTreeNode factory ID name params ;;
     push_back child_node ;;; k child_node).
Proof.
  intros Hk w out w'. unfold bind at 1, instantiateTreeNode.
  destruct (builders factory !! ID) as [kd|]; [|intros [= _ <-]; apply recorded_refl].
  unfold bind at 1, push_back. cbn [heap nodes cerr]. intros H.
  apply Hk in H. eapply recorded_trans; [|exact H].
  repeat split; simpl.
  - rewrite length_app. lia.
  - rewrite length_app. simpl.
    replace (length (heap w) + 1 - length (heap w)) with 1 by lia. done.
Qed.

Lemma follows_node_builder factory bt_roots fuel ID name params parent :
  follows recorded (node_builder factory bt_roots fuel ID name params parent).
Proof.
  pose proof recorded_refl as Hr. pose proof recorded_trans as Ht.
  revert ID name params parent.
  induction fuel as [|fuel IH]; intros ID name params parent; simpl;
    (apply follows_allocate; intros child_node;
     apply follows_bind; [done..|apply follows_attach|intros _];
     apply follows_bind; [done..|by apply follows_get_node|intros n];
     apply follows_bind; [done..| |intros; by apply follows_ret];
     destruct (is_DecoratorSubtreeNode _); [|by apply follows_ret];
     destruct (bt_roots !! name); [|by apply follows_undefined];
     destruct (FirstChildElement _); [|by apply follows_undefined]).
  - by apply follows_out_of_fuel.
  - apply follows_bind; [done..| |intros; by apply follows_ret].
    by apply follows_treeParsing.
Qed.

Lemma instantiateTree_recorded fuel doc_ factory w out w' :
  snd (verifyXML doc_ []) = [] ->
  instantiateTree fuel doc_ factory w = (out, w') ->
  recorded w w'.
Proof.
  intros Hv. revert out w'. unfold instantiateTree. rewrite Hv. simpl.
  pose proof (@follows_undefined recorded recorded_refl nat) as Hu.
  destruct (RootElement doc_) as [xml_root|]; [|apply Hu].
  destruct (Attribute _ xml_root); [|apply Hu].
  destruct (collect_bt_roots xml_root) as [bt_roots|]; [|apply Hu].
  destruct (bt_roots !! _) as [bt|]; [|apply Hu].
  destruct (FirstChildElement bt) as [root_element|]; [|apply Hu].
  apply follows_treeParsing;
    [apply recorded_refl | apply recorded_trans | apply follows_node_builder].
Qed.

Lemma instantiateTree_invalid fuel doc_ factory w :
  snd (verifyXML doc_ []) <> [] ->
  instantiateTree fuel doc_ factory w =
    (Thrown (runtime_error "verifyXML failed"),
     {| heap := heap w; nodes := nodes w; cerr := cerr w ++ snd (verifyXML doc_ []) |}).
Proof.
  intros Hmsgs. unfold instantiateTree.
  destruct (snd (verifyXML doc_ [])) as [|m ms]; [done|].
  reflexivity.
Qed.

(** C4, as the code has it.  Whether [instantiateTree] returns or fails,
    the caller's vector is its previous content followed by the handle of
    every node allocated during the call, in order of allocation: nothing is
    removed from it when the call fails.  When validation fails nothing has
    been allocated and the vector is untouched. *)
Theorem failed_build_keeps_nodes fuel doc_ factory w out w' :
  instantiateTree fuel doc_ factory w = (out, w') ->
  length (heap w) <= length (heap w')
  /\ nodes w' = nodes w ++ seq (length (heap w)) (length (heap w') - length (heap w))
  /\ (snd (verifyXML doc_ []) <> [] -> heap w' = heap w /\ nodes w' = nodes w).
Proof.
  intros H.
  destruct (snd (verifyXML doc_ [])) as [|m ms] eqn:Hv.
  - destruct (instantiateTree_recorded _ _ _ _ _ _ Hv H) as (HL & HN & _).
    by repeat split.
  - rewrite (instantiateTree_invalid fuel doc_ factory w) in H by (rewrite Hv; done).
    injection H as _ <-. simpl. rewrite Nat.sub_diag. simpl. rewrite app_nil_r. done.
Qed.

Lemma unknown_action_outcome fuel :
  instantiateTree fuel (document root_unknown_action) sample_factory empty_world =
    (Thrown (unknown_ID "Juggle"), world_after_unknown_action).
Proof. destruct fuel; vm_compute; reflexivity. Qed.

Lemma failed_build_keeps_nodes_witness :
  nodes world_after_unknown_action = [] ++ seq 0 (2 - 0).
Proof.
  exact (proj1 (proj2 (failed_build_keeps_nodes 3 (document root_unknown_action)
                         sample_factory empty_world _ _ (unknown_action_outcome 3)))).
Defined.

(** C4 as stated fails: the factory does not know the second action, the
    build throws, and the two nodes instantiated before the failure are still
    in the caller's vector. *)
Lemma failed_build_retains_nodes :
  exists e w',
    instantiateTree 3 (document root_unknown_action) sample_factory empty_world
      = (Thrown e, w')
    /\ nodes w' = [0; 1]
    /\ length (heap w') = 2.
Proof.
  exists (unknown_ID "Juggle"), world_after_unknown_action.
  split; [apply unknown_action_outcome | split; reflexivity].
Qed.

(** ** The shape of what is built *)

Lemma with_children_id n : with_children n (children n) = n.
Proof. by destruct n. Qed.

Lemma with_children_twice n cs cs' :
  with_children (with_children n cs) cs' = with_children n cs'.
Proof. done. Qed.

Lemma edges_app h1 h2 : edges (h1 ++ h2) = edges h1 ++ edges h2.
Proof. apply flat_map_app. Qed.

Lemma edges_cons n h : edges (n :: h) = children n ++ edges h.
Proof. done. Qed.

Lemma edges_insert h p n r :
  h !! p = Some n ->
  edges (<[p := with_children n (children n ++ [r])]> h) ≡ₚ r :: edges h.
Proof.
  intros Hp.
  rewrite insert_take_drop by (by eapply lookup_lt_Some).
  rewrite <- (take_drop_middle h p n Hp) at 3.
  rewrite !edges_app, !edges_cons. cbn [children with_children].
  rewrite <- !app_assoc. cbn [app].
  rewrite (Permutation_middle (edges (take p h)) _ r).
  apply Permutation_app_head.
  by rewrite (Permutation_middle (children n) _ r).
Qed.

Lemma set_children_Returned p cs w u w' :
  set_children p cs w = (Returned u, w') ->
  exists n, heap w !! p = Some n
            /\ w' = {| heap := <[p := with_children n cs]> (heap w);
                       nodes := nodes w; cerr := cerr w |}.
Proof.
  unfold set_children. destruct (heap w !! p) as [n|]; [|discriminate].
  intros [= _ <-]. by exists n.
Qed.

Lemma get_node_Returned p w n w' :
  get_node p w = (Returned n, w') -> heap w !! p = Some n /\ w' = w.
Proof.
  unfold get_node. destruct (heap w !! p) as [n'|]; [|discriminate].
  by intros [= <- <-].
Qed.

(** What a successful attachment does. *)
Lemma attach_Returned parent child_node w u w' :
  attach parent child_node w = (Returned u, w') ->
  nodes w' = nodes w /\ cerr w' = cerr w
  /\ match parent with
     | None => heap w' = heap w
     | Some p =>
         exists n, heap w !! p = Some n
                   /\ (is_DecoratorNode (kind n) = true -> children n = [])
                   /\ heap w' = <[p := with_children n (attached n child_node)]> (heap w)
     end.
Proof.
  destruct parent as [p|]; simpl; [|by intros [= _ <-]].
  intros H.
  apply bind_Returned in H as (n & w1 & Hn & H). apply get_node_Returned in Hn as [Hn ->].
  apply bind_Returned in H as ([] & w2 & HC & HD).
  assert (forall w3 (v : unit) w4, ret tt w3 = (Returned v, w4) -> w4 = w3) as Hret
    by (by intros ??? [= _ <-]).
  assert (forall c w3 (v : unit) w4,
            set_children p c w3 = (Returned v, w4) -> heap w3 !! p = Some n ->
            nodes w4 = nodes w3 /\ cerr w4 = cerr w3
            /\ heap w4 = <[p := with_children n c]> (heap w3)) as Hset.
  { intros c w3 v w4 Hs Hl. apply set_children_Returned in Hs as (n' & Hn' & ->).
    simpl. by replace n' with n by congruence. }
  assert (heap w' = <[p := with_children n (attached n child_node)]> (heap w)
          /\ nodes w' = nodes w /\ cerr w' = cerr w
          /\ (is_DecoratorNode (kind n) = true -> children n = [])) as (Hh & HN & HE & Hd).
  { unfold attached.
    destruct (kind n) eqn:Hk; simpl in *.
    - apply Hret in HC as ->. apply Hret in HD as ->.
      by rewrite with_children_id, list_insert_id.
    - apply Hret in HC as ->. apply Hret in HD as ->.
      by rewrite with_children_id, list_insert_id.
    - apply Hret in HD as ->.
      apply bind_Returned in HC as (n' & w3 & Hn' & HC).
      apply get_node_Returned in Hn' as [Hn' ->].
      replace n' with n in HC by congruence.
      destruct (Hset _ _ _ _ HC Hn) as (? & ? & ?). done.
    - apply Hret in HC as ->.
      apply bind_Returned in HD as (n' & w3 & Hn' & HD).
      apply get_node_Returned in Hn' as [Hn' ->].
      replace n' with n in HD by congruence.
      destruct (children n) as [|c cs] eqn:Hcs; [|discriminate].
      destruct (Hset _ _ _ _ HD Hn) as (? & ? & ?). done.
    - apply Hret in HC as ->.
      apply bind_Returned in HD as (n' & w3 & Hn' & HD).
      apply get_node_Returned in Hn' as [Hn' ->].
      replace n' with n in HD by congruence.
      destruct (children n) as [|c cs] eqn:Hcs; [|discriminate].
      destruct (Hset _ _ _ _ HD Hn) as (? & ? & ?). done. }
  split; [done|]. split; [done|]. by exists n.
Qed.

Lemma expanded_frame factory bt_roots h h' i :
  expanded factory bt_roots h i ->
  h' !! i = h !! i ->
  (forall c, h !! S i = Some c -> h' !! S i = Some c) ->
  expanded factory bt_roots h' i.
Proof.
  intros He Hi HS n Hn Hk. rewrite Hi in Hn.
  destruct (He n Hn Hk) as (bt & e & c & H1 & H2 & H3 & H4 & H5 & H6 & H7).
  exists bt, e, c. repeat split; auto.
Qed.

(** The loop over the child elements: only [node] among the nodes that
    existed before the loop is changed, and only in its child list. *)
Lemma for_each_children_built factory bt_roots nb child_elements node :
  Forall (parses factory bt_roots nb) child_elements ->
  forall n1 w1 w2,
    closed w1 -> heap w1 !! node = Some n1 ->
    for_each (fun child_element => treeParsing nb child_element (Some node) ;;; ret tt)
      child_elements w1 = (Returned tt, w2) ->
    closed w2
    /\ length (heap w1) <= length (heap w2)
    /\ (forall i, i < length (heap w1) -> i <> node -> heap w2 !! i = heap w1 !! i)
    /\ (exists cs, heap w2 !! node = Some (with_children n1 cs))
    /\ (forall i, length (heap w1) <= i -> expanded factory bt_roots (heap w2) i)
    /\ (is_DecoratorNode (kind n1) = true -> children n1 <> [] -> w2 = w1).
Proof.
  induction 1 as [|child rest Hchild _ IH]; intros n1 w1 w2 Hclosed Hnode Hloop.
  - injection Hloop as <-.
    split; [done|]. split; [done|]. split; [done|].
    split; [exists (children n1); by rewrite with_children_id|].
    split; [|done].
    intros i Hi n Hn. apply lookup_lt_Some in Hn. lia.
  - simpl in Hloop.
    apply bind_Returned in Hloop as ([] & wa & Hfirst & Hloop).
    apply bind_Returned in Hfirst as (rc & wa' & Hfirst & Hret).
    injection Hret as ->.
    assert (node < length (heap w1)) as Hlt by (by eapply lookup_lt_Some).
    destruct (Hchild (Some node) w1 rc wa Hclosed) as (ID & name & _ & _ & HB);
      [by intros p [= <-] | done |].
    destruct HB as [Hh Hfresh Hframe Hparent Hsecond Hcl Hexp _].
    specialize (Hparent node n1 eq_refl Hnode).
    destruct (IH _ wa w2 Hcl Hparent Hloop) as (Hcl2 & Hlen2 & Hframe2 & [cs Hnode2] & Hexp2 & _).
    split; [done|]. split; [lia|]. split; [|split; [|split]].
    + intros i Hi Hne. rewrite Hframe2 by (done || lia).
      apply Hframe; [done | congruence].
    + by exists cs.
    + intros i Hi.
      destruct (decide (length (heap wa) <= i)) as [|Hold]; [by apply Hexp2|].
      apply (expanded_frame _ _ (heap wa)).
      * by apply Hexp.
      * apply Hframe2; lia.
      * intros c Hc. rewrite Hframe2; [done| |lia].
        by eapply lookup_lt_Some.
    + intros Hdec Hne. destruct Hne. by apply (Hsecond node n1).
Qed.

Lemma treeParsing_built factory bt_roots nb :
  builds factory bt_roots nb ->
  forall element, parses factory bt_roots nb element.
Proof.
  intros Hnb element.
  induction element as [ename attrs line child_elements IH] using XMLElement_nested_ind.
  intros parent w r w' Hclosed Hvalid H. simpl in H.
  destruct (node_ID _) as [ID|]; [|discriminate].
  destruct (node_alias _) as [name|]; [|discriminate].
  exists ID, name. split; [done|]. split; [done|].
  apply bind_Returned in H as (node & w1 & Hnode & H).
  apply bind_Returned in H as ([] & w2 & Hloop & Hret).
  injection Hret as <- <-.
  destruct (Hnb _ _ _ _ _ _ _ Hclosed Hvalid Hnode)
    as [Hh Hfresh Hframe Hparent Hsecond Hcl Hexp (n1 & Hn1 & Hreg & Hname & Hkind)].
  destruct (for_each_children_built _ _ _ _ node IH n1 w1 w2 Hcl Hn1 Hloop)
    as (Hcl2 & Hlen2 & Hframe2 & [cs Hnode2] & Hexp2 & Hfull).
  assert (forall i, i < length (heap w) -> heap w2 !! i = heap w1 !! i) as Hold.
  { intros i Hi. apply Hframe2; lia. }
  split.
  - done.
  - lia.
  - intros i Hi Hne. rewrite Hold by done. by apply Hframe.
  - intros p n Hp Hn. rewrite Hold by (by eapply lookup_lt_Some). by apply Hparent.
  - done.
  - done.
  - intros i Hi.
    destruct (decide (length (heap w1) <= i)) as [|Hmid]; [by apply Hexp2|].
    destruct (decide (i = node)) as [->|Hne].
    + intros n Hn Hk. rewrite Hnode2 in Hn. injection Hn as <-. simpl in Hk.
      destruct (Hexp node Hi n1 Hn1 Hk) as (bt & e & c & H1 & H2 & H3 & H4 & H5 & H6 & H7).
      assert (w2 = w1) as E by (apply Hfull; [by rewrite Hk | by rewrite H3]).
      rewrite E in Hnode2 |- *.
      assert (with_children n1 cs = n1) as -> by congruence.
      by exists bt, e, c.
    + apply (expanded_frame _ _ (heap w1)).
      * by apply Hexp.
      * apply Hframe2; [lia | done].
      * intros c Hc. rewrite Hframe2; [done | by eapply lookup_lt_Some | lia].
  - exists (with_children n1 cs). by repeat split.
Qed.

Lemma node_builder_eq factory bt_roots fuel ID name params parent :
  node_builder factory bt_roots fuel ID name params parent =
    (child_node <~ instantiateTreeNode factory ID name params ;;
     push_back child_node ;;;
     attach parent child_node ;;;
     n <~ get_node child_node ;;
     (if is_DecoratorSubtreeNode (kind n) then
        match bt_roots !! name with
        | None => undefined
        | Some bt =>
            match FirstChildElement bt with
            | None => undefined
            | Some subtree_elem =>
                match fuel with
                | O => out_of_fuel
                | S fuel' =>
                    treeParsing (node_builder factory bt_roots fuel') subtree_elem
                      (Some child_node) ;;;
                    ret tt
                end
            end
        end
      else ret tt) ;;;
     ret child_node).
Proof. by destruct fuel. Qed.

Lemma closed_heap_snoc h n0 :
  closed_heap h -> children n0 = [] -> closed_heap (h ++ [n0]).
Proof.
  intros [Hb Hn] Hc. unfold closed_heap.
  rewrite edges_app, edges_cons, Hc. simpl. rewrite app_nil_r, length_app. simpl.
  split; [|done]. eapply Forall_impl; [exact Hb|]. simpl. intros; lia.
Qed.

Lemma closed_heap_attach h p n :
  closed_heap h -> h !! p = Some n ->
  forall n0, children n0 = [] ->
  closed_heap (<[p := with_children n (attached n (length h))]> (h ++ [n0])).
Proof.
  intros Hcl Hp n0 Hc.
  pose proof (closed_heap_snoc h n0 Hcl Hc) as Hcl'.
  assert ((h ++ [n0]) !! p = Some n) as Hp'
    by (rewrite lookup_app_l; [done | by eapply lookup_lt_Some]).
  unfold attached. destruct (_ || _).
  - destruct Hcl as [Hb Hn]. destruct Hcl' as [Hb' Hn'].
    unfold closed_heap. rewrite length_insert.
    pose proof (edges_insert (h ++ [n0]) p n (length h) Hp') as HP.
    assert (edges (h ++ [n0]) = edges h) as E
      by (rewrite edges_app, edges_cons, Hc; simpl; by rewrite app_nil_r).
    rewrite E in *.
    split.
    + rewrite HP. constructor; [rewrite length_app; simpl; lia | done].
    + rewrite HP. constructor; [|done].
      intros Hin. rewrite Forall_forall in Hb. apply Hb in Hin. lia.
  - rewrite with_children_id, list_insert_id by done. done.
Qed.

(** The first three steps of [node_builder]: allocate, record, attach. *)
Lemma allocate_attach factory ID name params parent w child_node w1 w2 w3 :
  closed w -> valid_parent parent w ->
  instantiateTreeNode factory ID name params w = (Returned child_node, w1) ->
  push_back child_node w1 = (Returned tt, w2) ->
  attach parent child_node w2 = (Returned tt, w3) ->
  exists k,
    builders factory !! ID = Some k
    /\ child_node = length (heap w)
    /\ length (heap w3) = S (length (heap w))
    /\ heap w3 !! child_node = Some (mkTreeNode ID name params k [])
    /\ (forall i, i < length (heap w) -> parent <> Some i -> heap w3 !! i = heap w !! i)
    /\ (forall p n, parent = Some p -> heap w !! p = Some n ->
                    heap w3 !! p = Some (with_children n (attached n child_node)))
    /\ (forall p n, parent = Some p -> heap w !! p = Some n ->
                    is_DecoratorNode (kind n) = true -> children n = [])
    /\ closed w3.
Proof.
  intros Hcl Hvalid Halloc Hpush Hattach.
  unfold instantiateTreeNode in Halloc.
  destruct (builders factory !! ID) as [k|]; [|discriminate].
  injection Halloc as <- <-. injection Hpush as <-.
  apply attach_Returned in Hattach as (_ & _ & Hheap). simpl in Hheap.
  exists k. split; [done|]. split; [done|].
  set (n0 := mkTreeNode ID name params k []) in *.
  destruct parent as [p|].
  - destruct Hheap as (n & Hn & Hdec & Hheap).
    assert (p < length (heap w)) as Hp by (by apply Hvalid).
    rewrite lookup_app_l in Hn by done.
    rewrite Hheap, length_insert, length_app. simpl.
    split; [lia|]. split; [|split; [|split; [|split]]].
    + rewrite list_lookup_insert_ne by lia. by rewrite list_lookup_middle.
    + intros i Hi Hne. rewrite list_lookup_insert_ne by congruence.
      by rewrite lookup_app_l.
    + intros p' n' [= <-] Hn'. replace n' with n by congruence.
      apply list_lookup_insert_eq. rewrite length_app. simpl. lia.
    + intros p' n' [= <-] Hn'. replace n' with n by congruence. done.
    + unfold closed. rewrite Hheap. by apply closed_heap_attach.
  - rewrite Hheap, length_app. simpl.
    split; [lia|]. split; [|split; [|split; [|split]]]; try done.
    + by rewrite list_lookup_middle.
    + intros i Hi _. by rewrite lookup_app_l.
    + unfold closed. rewrite Hheap. by apply closed_heap_snoc.
Qed.

Lemma node_builder_builds factory bt_roots fuel :
  builds factory bt_roots (node_builder factory bt_roots fuel).
Proof.
  induction fuel as [|fuel IH];
    intros ID name params parent w r w' Hcl Hvalid H;
    rewrite node_builder_eq in H;
    apply bind_Returned in H as (child_node & w1 & Halloc & H);
    apply bind_Returned in H as ([] & w2 & Hpush & H);
    apply bind_Returned in H as ([] & w3 & Hattach & H);
    apply bind_Returned in H as (n & w3' & Hn & H);
    apply get_node_Returned in Hn as [Hn ->];
    apply bind_Returned in H as ([] & w4 & Hexpand & Hret);
    injection Hret as <- <-;
    destruct (allocate_attach _ _ _ _ _ _ _ _ _ _ Hcl Hvalid Halloc Hpush Hattach)
      as (k & Hk & Hchild & Hlen & Hnew & Hframe & Hparent & Hsecond & Hcl3);
    rewrite Hnew in Hn; injection Hn as <-; cbn [kind] in Hexpand;
    (destruct (is_DecoratorSubtreeNode k) eqn:Hsub;
     [ destruct (bt_roots !! name) as [bt|] eqn:Hbt; [|discriminate];
       destruct (FirstChildElement bt) as [subtree_elem|] eqn:Hfirst; [|discriminate]
     | injection Hexpand as <-;
       split; try done;
       [ lia
       | intros i Hi m Hm Hkm;
         destruct (decide (i = child_node)) as [->|Hne];
         [ rewrite Hnew in Hm; injection Hm as <-; simpl in Hkm; by rewrite Hkm in Hsub
         | apply lookup_lt_Some in Hm; lia ]
       | by eexists ] ]).
  - discriminate.
  - apply bind_Returned in Hexpand as (c & w5 & Hparse & Hret).
    injection Hret as ->.
    destruct (treeParsing_built factory bt_roots _ IH subtree_elem
                (Some child_node) w3 c w4 Hcl3) as (IDc & namec & HID & Halias & HB);
      [intros p [= <-]; lia | done |].
    destruct HB as [Hc Hfresh5 Hframe5 Hparent5 _ Hcl5 Hexp5 (nc & Hnc & Hregc & Hnamec & Hkindc)].
    specialize (Hparent5 child_node _ eq_refl Hnew).
    assert (k = DecoratorSubtreeNode) as -> by (by destruct k).
    unfold attached in Hparent5. simpl in Hparent5.
    split.
    + done.
    + lia.
    + intros i Hi Hne. rewrite Hframe5; [by apply Hframe | lia | intros [= <-]; lia].
    + intros p m Hp Hm. pose proof (lookup_lt_Some _ _ _ Hm).
      rewrite Hframe5; [by apply Hparent | lia | intros [= <-]; lia].
    + done.
    + done.
    + intros i Hi.
      destruct (decide (i = child_node)) as [->|Hne]; [|apply Hexp5; lia].
      intros m Hm _. rewrite Hparent5 in Hm. injection Hm as <-. simpl.
      exists bt, subtree_elem, nc.
      rewrite Hc, Hlen, <- Hchild in Hnc |- *. rewrite Hregc, Hnamec.
      by repeat split.
    + eexists. split; [exact Hparent5|]. by repeat split.
Qed.



Lemma collect_bt_roots_entry xml_root bt_roots ID bt :
  collect_bt_roots xml_root = Some bt_roots ->
  bt_roots !! ID = Some bt ->
  bt ∈ bt_roots_of xml_root /\ Attribute "ID" bt = Some ID.
Proof.
  unfold collect_bt_roots, bt_roots_of.
  generalize (elements_named "BehaviorTree" (ChildElements xml_root)). intros l.
  assert (forall l' (acc : gmap string XMLElement),
            (forall k v, acc !! k = Some v -> v ∈ l /\ Attribute "ID" v = Some k) ->
            (forall v, v ∈ l' -> v ∈ l) ->
            fold_left
              (fun (acc : option (gmap string XMLElement)) node =>
                 match acc, Attribute "ID" node with
                 | Some bt_roots, Some ID => Some (<[ID := node]> bt_roots)
                 | _, _ => None
                 end) l' (Some acc) = Some bt_roots ->
            bt_roots !! ID = Some bt ->
            bt ∈ l /\ Attribute "ID" bt = Some ID) as Hgen.
  { induction l' as [|node l' IH]; intros acc Hacc Hsub Hfold Hl; simpl in Hfold.
    - injection Hfold as <-. eauto.
    - destruct (Attribute "ID" node) as [k|] eqn:Hk.
      + eapply (IH (<[k := node]> acc)); [| |exact Hfold|exact Hl].
        * intros k' v Hv. destruct (decide (k = k')) as [->|Hne].
          -- rewrite lookup_insert_eq in Hv. injection Hv as <-.
             split; [apply Hsub, list_elem_of_here | done].
          -- rewrite lookup_insert_ne in Hv by done. eauto.
        * intros v Hv. by apply Hsub, list_elem_of_further.
      + exfalso. clear -Hfold. induction l' as [|x l' IH']; [discriminate|]. by apply IH'. }
  intros Hfold Hl. eapply (Hgen l ∅); [|intros v Hv; exact Hv|exact Hfold|exact Hl].
  intros k v Hv. by rewrite lookup_empty in Hv.
Qed.

Lemma verifyXML_no_messages doc_ msgs0 :
  snd (verifyXML doc_ msgs0) = [] ->
  exists xml_root,
    Error doc_ = false /\ RootElement doc_ = Some xml_root /\ Name xml_root = "root"
    /\ document_messages xml_root = [].
Proof.
  intros H.
  destruct (Error doc_) eqn:HE; [unfold verifyXML in H; by rewrite HE in H|].
  destruct (RootElement doc_) as [xml_root|] eqn:HR;
    [|unfold verifyXML in H; by rewrite HE, HR in H].
  destruct (strEqual (Name xml_root) "root") eqn:HN;
    [|unfold verifyXML in H; by rewrite HE, HR, HN in H].
  apply String.eqb_eq in HN. exists xml_root.
  rewrite (verifyXML_root _ _ _ HE HR HN) in H. done.
Qed.

Lemma valid_bt_root_single xml_root bt_root :
  document_messages xml_root = [] ->
  bt_root ∈ bt_roots_of xml_root ->
  exists child, ChildElements bt_root = [child].
Proof.
  intros Hnil Hbt. apply single_child.
  destruct (decide (length (ChildElements bt_root) = 1%nat)) as [|Hne]; [done|].
  exfalso. apply (elem_of_nil_False (format_error (GetLineNum bt_root) bt_root_text) _ Hnil).
  apply (document_messages_bt_root _ bt_root); [done|].
  rewrite (bt_root_messages_malformed _ Hne). apply list_elem_of_here.
Qed.

(** What a successful [instantiateTree] went through. *)
Lemma instantiateTree_Returned fuel doc_ factory w root_node w' :
  instantiateTree fuel doc_ factory w = (Returned root_node, w') ->
  exists xml_root main_tree_ID bt_roots bt root_element,
    snd (verifyXML doc_ []) = []
    /\ RootElement doc_ = Some xml_root
    /\ Attribute "main_tree_to_execute" xml_root = Some main_tree_ID
    /\ collect_bt_roots xml_root = Some bt_roots
    /\ bt_roots !! main_tree_ID = Some bt
    /\ FirstChildElement bt = Some root_element
    /\ treeParsing (node_builder factory bt_roots fuel) root_element None w
       = (Returned root_node, w').
Proof.
  unfold instantiateTree.
  destruct (snd (verifyXML doc_ [])) as [|m ms]; [|discriminate]. simpl.
  destruct (RootElement doc_) as [xml_root|]; [|discriminate].
  destruct (Attribute _ xml_root) as [main_tree_ID|] eqn:HM; [|discriminate].
  destruct (collect_bt_roots xml_root) as [bt_roots|] eqn:HC; [|discriminate].
  destruct (bt_roots !! main_tree_ID) as [bt|] eqn:HB; [|discriminate].
  destruct (FirstChildElement bt) as [root_element|] eqn:HF; [|discriminate].
  intros H. by exists xml_root, main_tree_ID, bt_roots, bt, root_element.
Qed.


Lemma closed_empty_world : closed empty_world.
Proof. split; constructor. Qed.

Lemma subtree_build_outcome :
  instantiateTree 1 (document root_with_subtree) sample_factory empty_world
  = (Returned 0, world_with_subtree).
Proof. vm_compute. reflexivity. Qed.


(** ** Subtree references and termination (C2) *)

Lemma terminates_ret {A} (a : A) : terminates (ret a).
Proof. by intros w. Qed.


Lemma terminates_bind {A B} (c : Build A) (k : A -> Build B) :
  terminates c -> (forall a, terminates (k a)) -> terminates (bind c k).
Proof.
  intros Hc Hk w. unfold bind. specialize (Hc w).
  destruct (c w) as [[a|e| |] w1]; simpl in *; [apply Hk | done..].
Qed.


Lemma terminates_get_node p : terminates (get_node p).
Proof. intros w. unfold get_node. by destruct (heap w !! p). Qed.

Lemma terminates_set_children p cs : terminates (set_children p cs).
Proof. intros w. unfold set_children. by destruct (heap w !! p). Qed.

Lemma terminates_attach parent child_node : terminates (attach parent child_node).
Proof.
  destruct parent as [p|]; simpl; [|apply terminates_ret].
  apply terminates_bind; [apply terminates_get_node|]. intros n.
  apply terminates_bind; [|intros _].
  - destruct (is_ControlNode _); [|apply terminates_ret].
    apply terminates_bind; [apply terminates_get_node|].
    intros; apply terminates_set_children.
  - destruct (is_DecoratorNode _); [|apply terminates_ret].
    apply terminates_bind; [apply terminates_get_node|].
    intros n'. destruct (children n'); [apply terminates_set_children | by intros w].
Qed.

Lemma subelements_child element child d :
  child ∈ ChildElements element -> d ∈ subelements child -> d ∈ subelements element.
Proof.
  intros Hc Hd. rewrite (subelements_eq element). apply list_elem_of_further.
  apply elem_of_flat_map. by exists child.
Qed.


(** Attaching changes child lists only. *)
Lemma attach_kind parent child_node w u w' n :
  attach parent child_node w = (Returned u, w') ->
  heap w' !! child_node = Some n ->
  exists n0, heap w !! child_node = Some n0 /\ kind n0 = kind n.
Proof.
  intros Ha Hn. apply attach_Returned in Ha as (_ & _ & Hheap).
  destruct parent as [p|]; [|rewrite Hheap in Hn; by exists n].
  destruct Hheap as (np & Hp & _ & Hheap). rewrite Hheap in Hn.
  destruct (decide (p = child_node)) as [->|Hne].
  - rewrite list_lookup_insert_eq in Hn by (by eapply lookup_lt_Some).
    injection Hn as <-. by exists np.
  - rewrite list_lookup_insert_ne in Hn by done. by exists n.
Qed.



Lemma bind_eval {A B} (c : Build A) (k : A -> Build B) w a w1 :
  c w = (Returned a, w1) -> bind c k w = k a w1.
Proof. intros H. unfold bind. by rewrite H. Qed.


Lemma treeParsing_eq nb element parent :
  treeParsing nb element parent =
    match node_ID element, node_alias element with
    | Some ID, Some alias =>
        node <~ nb ID alias (node_params element) parent ;;
        for_each
          (fun child_element => treeParsing nb child_element (Some node) ;;; ret tt)
          (ChildElements element) ;;;
        ret node
    | _, _ => undefined
    end.
Proof. by destruct element. Qed.








(** * Further properties of the validator *)

(** ** Diagnostics come in document order *)

Lemma tree_messages_preorder node :
  tree_messages node = flat_map node_messages (subelements node).
Proof.
  induction node as [name attrs line children IH] using XMLElement_nested_ind.
  rewrite tree_messages_eq, subelements_eq. cbn [flat_map ChildElements]. f_equal.
  induction IH as [|child rest Hchild _ IHrest]; [done|].
  cbn [flat_map]. by rewrite flat_map_app, Hchild, IHrest.
Qed.

Lemma flat_map_nil_iff {A B} (f : A -> list B) (l : list A) :
  flat_map f l = [] <-> forall x, x ∈ l -> f x = [].
Proof.
  induction l as [|a l IH]; simpl.
  - split; [intros _ x Hx; by apply elem_of_nil in Hx | done].
  - split.
    + intros H. apply app_eq_nil in H as [Ha Hl].
      intros x Hx. apply elem_of_cons in Hx as [->|Hx]; [done|]. by apply IH.
    + intros H. rewrite (H a) by apply list_elem_of_here. simpl.
      apply IH. intros x Hx. by apply H, list_elem_of_further.
Qed.

Lemma forallb_elem_of {A} (f : A -> bool) (l : list A) :
  forallb f l = true <-> forall x, x ∈ l -> f x = true.
Proof.
  rewrite forallb_forall. split; intros H x Hx; apply H; by apply list_elem_of_In.
Qed.

Lemma flat_map_nil_forallb {A B} (f : A -> list B) (ok : A -> bool) (l : list A) :
  (forall x, f x = [] <-> ok x = true) ->
  match flat_map f l with [] => true | _ :: _ => false end = forallb ok l.
Proof.
  intros Hok. induction l as [|a l IH]; [done|]. simpl.
  destruct (ok a) eqn:Ha.
  - apply Hok in Ha. rewrite Ha. exact IH.
  - destruct (f a) eqn:Hf; [|done]. apply Hok in Hf. congruence.
Qed.

(** X1.  Started on any report, [recursiveStep] appends the diagnostics of
    the node and of every element below it, in document order (each element
    before its children, siblings from first to last), and leaves the flag
    true exactly when it was true and all these elements obey the grammar. *)
Theorem recursiveStep_document_order node r :
  error_messages (recursiveStep node r)
  = error_messages r ++ flat_map node_messages (subelements node)
  /\ is_valid (recursiveStep node r)
     = is_valid r && forallb grammar_rule_holds (subelements node).
Proof.
  rewrite (emits_recursiveStep node r), tree_messages_preorder. cbn [record_all error_messages is_valid].
  split; [done|]. f_equal.
  apply flat_map_nil_forallb. apply node_messages_nil_iff.
Qed.

(** ** The root-level block, written out *)

Lemma iter_error_if cond node text n r :
  error_messages (Nat.iter n (error_if cond node text) r)
  = error_messages r
    ++ (if cond then repeat (format_error (GetLineNum node) text) n else []).
Proof.
  induction n as [|n IH]; simpl.
  - destruct cond; by rewrite app_nil_r.
  - unfold error_if at 1. destruct cond; [|exact IH].
    unfold AppendError. cbn [error_messages]. rewrite IH, <- app_assoc. f_equal.
    clear. induction n as [|n IH]; [done|]. simpl. by rewrite <- IH.
Qed.

Lemma declaration_messages_written_out_aux xml_root node :
  declaration_messages xml_root node = declaration_report xml_root node.
Proof.
  unfold declaration_messages, messages_of, check_declaration, declaration_report,
    declared_name.
  destruct (_ || _); [|done].
  rewrite fold_left_constant, iter_error_if.
  unfold error_if. destruct (has_attribute "ID" node); cbn [negb error_messages AppendError
    empty_report app];
    destruct (has_attribute "label" node), (has_attribute "type" node); done.
Qed.

Lemma metamodel_messages_written_out xml_root :
  metamodel_messages xml_root =
    match elements_named "TreeNodesModel" (ChildElements xml_root) with
    | [] => []
    | [_] => flat_map (declaration_messages xml_root) (ChildElements xml_root)
    | _ :: second :: _ =>
        format_error (GetLineNum second) single_model_text
        :: flat_map (declaration_messages xml_root) (ChildElements xml_root)
    end.
Proof.
  destruct (elements_named "TreeNodesModel" (ChildElements xml_root))
    as [|first [|second others]] eqn:Hmodels.
  - unfold metamodel_messages, messages_of. by rewrite metamodel_checks_no_model.
  - pose proof (first_named_elements_named "TreeNodesModel" (ChildElements xml_root)) as H.
    rewrite Hmodels in H. destruct H as (following & H1 & Hrest).
    pose proof (first_named_elements_named "TreeNodesModel" following) as H2.
    rewrite Hrest in H2.
    unfold metamodel_messages. apply emits_messages_of.
    eapply emits_ext.
    + intros r. unfold metamodel_checks. rewrite H1, H2. reflexivity.
    + apply (emits_fold (check_declaration xml_root)), Forall_forall.
      intros node _. apply emits_check_declaration.
  - by apply (metamodel_messages_many_models _ first second others).
Qed.

Lemma declaration_report_nil_iff xml_root node :
  declaration_report xml_root node = [] <-> declaration_ok xml_root node = true.
Proof.
  unfold declaration_report, declaration_ok.
  destruct (declared_name (Name node)); [|done]. cbn [negb orb].
  destruct (has_attribute "ID" node); cbn [andb app]; [|done].
  destruct (elements_named "Parameter" (ChildElements xml_root)) as [|p ps];
    destruct (has_attribute "label" node), (has_attribute "type" node); done.
Qed.

Lemma metamodel_messages_nil_iff xml_root :
  metamodel_messages xml_root = [] <-> metamodel_ok xml_root = true.
Proof.
  rewrite metamodel_messages_written_out. unfold metamodel_ok.
  destruct (elements_named "TreeNodesModel" (ChildElements xml_root))
    as [|first [|second others]]; [done| |done].
  rewrite flat_map_nil_iff, forallb_elem_of.
  split; intros H x Hx.
  - apply declaration_report_nil_iff. rewrite <- declaration_messages_written_out_aux. by apply H.
  - rewrite declaration_messages_written_out_aux. apply declaration_report_nil_iff. by apply H.
Qed.

(** X2.  In a loaded document with a [root], the diagnostics start with
    those of the root-level block, which are: nothing without a
    [TreeNodesModel] child; otherwise (after the message for a second
    [TreeNodesModel], if there is one) for every child of the root called
    Action, Decorator, SubTree or Condition, in order, one message when it
    has no [ID] (its text contains a second, unexpanded "Error at line %d")
    and, when it lacks [label] or [type], one message for every [Parameter]
    child of the root, hence none when the root has no such child.  The
    diagnostics of the [BehaviorTree] children follow. *)
Theorem root_level_block_written_out doc_ msgs0 xml_root :
  Error doc_ = false -> RootElement doc_ = Some xml_root -> Name xml_root = "root" ->
  snd (verifyXML doc_ msgs0) =
    match elements_named "TreeNodesModel" (ChildElements xml_root) with
    | [] => []
    | [_] => flat_map (declaration_report xml_root) (ChildElements xml_root)
    | _ :: second :: _ =>
        format_error (GetLineNum second) single_model_text
        :: flat_map (declaration_report xml_root) (ChildElements xml_root)
    end
    ++ flat_map bt_root_messages (bt_roots_of xml_root).
Proof.
  intros HE HR HN. rewrite (verifyXML_root _ _ _ HE HR HN). cbn [snd].
  unfold document_messages. rewrite metamodel_messages_written_out.
  fold (bt_roots_of xml_root). f_equal.
  assert (flat_map (declaration_messages xml_root) (ChildElements xml_root)
          = flat_map (declaration_report xml_root) (ChildElements xml_root)) as ->; [|done].
  apply flat_map_ext. intros node. apply declaration_messages_written_out_aux.
Qed.

Lemma root_level_block_written_out_witness :
  snd (verifyXML (document root_with_declarations) []) =
    [ "Error at line 7: -> The node <Parameter> requires the attributes [type] and [label]";
      "Error at line 7: -> The node <Parameter> requires the attributes [type] and [label]" ].
Proof.
  exact (root_level_block_written_out (document root_with_declarations) []
           root_with_declarations eq_refl eq_refl eq_refl).
Defined.

(** ** What [verifyXML] accepts *)

Lemma bt_root_messages_nil_iff bt_root :
  bt_root_messages bt_root = [] <-> tree_ok bt_root = true.
Proof.
  unfold tree_ok.
  destruct (Nat.eqb_spec (length (ChildElements bt_root)) 1) as [Hlen|Hlen].
  - destruct (single_child _ Hlen) as [child Hc].
    rewrite (bt_root_messages_single _ _ Hc), tree_messages_preorder.
    unfold reachable_from. rewrite Hc. cbn [flat_map andb]. rewrite app_nil_r.
    rewrite flat_map_nil_iff, forallb_elem_of.
    split; intros H x Hx; apply node_messages_nil_iff; by apply H.
  - rewrite (bt_root_messages_malformed _ Hlen). done.
Qed.

(** X3.  [verifyXML] returns [true] exactly for the documents that loaded
    without error, have a root element called [root], have at most one
    [TreeNodesModel] child whose presence makes the root-level checks pass
    for every child of the root, and in which every [BehaviorTree] child of
    the root has exactly one child below which every element obeys the
    grammar.  Nothing else is needed for the flag: no rule is checked that
    is not in this list, and none of these is skipped. *)
Theorem verifyXML_accepts_exactly doc_ msgs0 :
  fst (verifyXML doc_ msgs0) = document_ok doc_.
Proof.
  unfold document_ok.
  destruct (Error doc_) eqn:HE; [unfold verifyXML; by rewrite HE|].
  destruct (RootElement doc_) as [xml_root|] eqn:HR;
    [|unfold verifyXML; by rewrite HE, HR].
  destruct (strEqual (Name xml_root) "root") eqn:HN;
    [|unfold verifyXML; by rewrite HE, HR, HN].
  apply String.eqb_eq in HN. rewrite (verifyXML_root _ _ _ HE HR HN). cbn [fst negb andb].
  unfold document_messages. fold (bt_roots_of xml_root).
  destruct (metamodel_ok xml_root) eqn:Hmeta.
  - apply metamodel_messages_nil_iff in Hmeta. rewrite Hmeta. cbn [app andb].
    apply flat_map_nil_forallb. apply bt_root_messages_nil_iff.
  - destruct (metamodel_messages xml_root) eqn:Hm; [|done].
    apply metamodel_messages_nil_iff in Hm. congruence.
Qed.

(** ** What a diagnostic looks like *)

Lemma cites_weaken elements elements' texts texts' m :
  (forall e, e ∈ elements -> e ∈ elements') ->
  (forall t, t ∈ texts -> t ∈ texts') ->
  cites elements texts m -> cites elements' texts' m.
Proof. intros He Ht (e & t & H1 & H2 & ->). exists e, t. auto. Qed.

Lemma cites_here e text elements texts :
  e ∈ elements -> text ∈ texts -> cites elements texts (format_error (GetLineNum e) text).
Proof. intros. by exists e, text. Qed.

Lemma node_messages_cite node : Forall (cites [node] node_texts) (node_messages node).
Proof.
  unfold node_messages, messages_of, check_node, error_if.
  repeat match goal with
         | |- context [if ?b then _ else _] => destruct b
         end; simpl;
    repeat apply Forall_cons_2; try apply Forall_nil_2;
    (apply cites_here; [apply list_elem_of_here | unfold node_texts; set_solver]).
Qed.

Lemma tree_messages_cite node :
  Forall (cites (subelements node) node_texts) (tree_messages node).
Proof.
  rewrite tree_messages_preorder. apply Forall_flat_map, Forall_forall.
  intros e He. eapply Forall_impl; [apply node_messages_cite|].
  intros m. apply cites_weaken; [|done].
  intros e' He'. by apply list_elem_of_singleton in He' as ->.
Qed.

Lemma subelements_trans a b c :
  b ∈ subelements a -> c ∈ subelements b -> c ∈ subelements a.
Proof.
  revert b c. induction a as [name attrs line children IH] using XMLElement_nested_ind.
  intros b c Hb Hc. rewrite subelements_eq in Hb. cbn [ChildElements] in Hb.
  apply elem_of_cons in Hb as [->|Hb]; [done|].
  apply elem_of_flat_map in Hb as (child & Hchild & Hb).
  rewrite Forall_forall in IH.
  apply (subelements_child _ child); [done|]. by apply (IH child Hchild b).
Qed.

Lemma child_subelement xml_root child :
  child ∈ ChildElements xml_root -> child ∈ subelements xml_root.
Proof. intros H. apply (subelements_child _ child); [done | apply subelements_self]. Qed.

Lemma elements_named_elem name l e : e ∈ elements_named name l -> e ∈ l.
Proof.
  unfold elements_named. rewrite !list_elem_of_In, filter_In. tauto.
Qed.

Lemma bt_root_messages_cite bt_root :
  Forall (cites (subelements bt_root) (bt_root_text :: node_texts))
    (bt_root_messages bt_root).
Proof.
  destruct (decide (length (ChildElements bt_root) = 1%nat)) as [Hlen|Hlen].
  - destruct (single_child _ Hlen) as [child Hc].
    rewrite (bt_root_messages_single _ _ Hc).
    eapply Forall_impl; [apply tree_messages_cite|].
    intros m. apply cites_weaken.
    + intros e He. apply (subelements_child _ child); [|done].
      rewrite Hc. apply list_elem_of_here.
    + intros t Ht. by apply list_elem_of_further.
  - rewrite (bt_root_messages_malformed _ Hlen). repeat constructor.
    apply cites_here; [apply subelements_self | apply list_elem_of_here].
Qed.

Lemma declaration_report_cite xml_root node :
  Forall (cites [node] declaration_texts) (declaration_report xml_root node).
Proof.
  unfold declaration_report. destruct (declared_name _); [|constructor].
  apply Forall_app_2.
  - destruct (has_attribute "ID" node); repeat constructor.
    apply cites_here; [apply list_elem_of_here | unfold declaration_texts; set_solver].
  - destruct (_ && _); [constructor|].
    induction (length _) as [|n IH]; simpl; constructor; [|done].
    apply cites_here; [apply list_elem_of_here | unfold declaration_texts; set_solver].
Qed.

Lemma first_named_elem name l e following :
  first_named name l = Some (e, following) ->
  e ∈ l /\ forall x, x ∈ following -> x ∈ l.
Proof.
  induction l as [|a l IH]; simpl; [done|].
  destruct (strEqual (Name a) name).
  - intros [= <- <-]. split; [apply list_elem_of_here|].
    intros x Hx. by apply list_elem_of_further.
  - intros H. destruct (IH H) as [H1 H2].
    split; [by apply list_elem_of_further|]. intros x Hx. by apply list_elem_of_further, H2.
Qed.

Lemma all_texts_elem t :
  t = single_model_text \/ t ∈ bt_root_text :: node_texts \/ t ∈ declaration_texts ->
  t ∈ all_texts.
Proof.
  unfold all_texts. intros [->|[H|H]].
  - apply list_elem_of_here.
  - apply elem_of_cons in H as [->|H].
    + apply list_elem_of_further, list_elem_of_here.
    + do 2 apply list_elem_of_further. apply elem_of_app. by left.
  - do 2 apply list_elem_of_further. apply elem_of_app. by right.
Qed.

Lemma document_messages_cite xml_root :
  Forall (cites (subelements xml_root) all_texts) (document_messages xml_root).
Proof.
  unfold document_messages. apply Forall_app_2.
  - assert (Forall (cites (subelements xml_root) all_texts)
              (flat_map (declaration_messages xml_root) (ChildElements xml_root))) as Hdecl.
    { apply Forall_flat_map, Forall_forall. intros node Hnode.
      rewrite declaration_messages_written_out_aux.
      eapply Forall_impl; [apply declaration_report_cite|].
      intros m. apply cites_weaken.
      - intros e He. apply list_elem_of_singleton in He as ->. by apply child_subelement.
      - intros t Ht. apply all_texts_elem. auto. }
    rewrite metamodel_messages_written_out.
    destruct (elements_named "TreeNodesModel" (ChildElements xml_root))
      as [|first [|second others]] eqn:Hmodels; [constructor | done |].
    constructor; [|done].
    apply cites_here; [|apply all_texts_elem; auto].
    apply child_subelement, (elements_named_elem "TreeNodesModel").
    rewrite Hmodels. apply list_elem_of_further, list_elem_of_here.
  - apply Forall_flat_map, Forall_forall. intros bt Hbt.
    eapply Forall_impl; [apply bt_root_messages_cite|].
    intros m. apply cites_weaken.
    + intros e He. apply (subelements_trans _ bt); [|done].
      by apply child_subelement, (elements_named_elem "BehaviorTree").
    + intros t Ht. apply all_texts_elem. auto.
Qed.

(** X4.  [verifyXML] has three kinds of result.  A document that did not
    load gives the single message "The XML was not correctly loaded"; a
    document without a root element called [root] gives the single message
    "The XML must have a root node called <root>"; both are invalid.  For any
    other document every message has the form "Error at line N: -> text",
    where N is the line number of an element of the document and the text is
    one of the fourteen texts of the function. *)
Theorem verifyXML_messages doc_ msgs0 :
  (Error doc_ = true
   /\ verifyXML doc_ msgs0 = (false, ["The XML was not correctly loaded"]))
  \/ (Error doc_ = false
      /\ (forall xml_root, RootElement doc_ = Some xml_root -> Name xml_root <> "root")
      /\ verifyXML doc_ msgs0 = (false, ["The XML must have a root node called <root>"]))
  \/ (exists xml_root,
        Error doc_ = false /\ RootElement doc_ = Some xml_root /\ Name xml_root = "root"
        /\ length all_texts = 14%nat
        /\ Forall (cites (subelements xml_root) all_texts) (snd (verifyXML doc_ msgs0))).
Proof.
  destruct (Error doc_) eqn:HE; [left; unfold verifyXML; by rewrite HE|].
  right.
  destruct (RootElement doc_) as [xml_root|] eqn:HR;
    [|left; unfold verifyXML; rewrite HE, HR; by repeat split].
  destruct (strEqual (Name xml_root) "root") eqn:HN.
  - right. apply String.eqb_eq in HN. exists xml_root.
    rewrite (verifyXML_root _ _ _ HE HR HN). cbn [snd].
    split; [done|]. split; [done|]. split; [done|]. split; [reflexivity|].
    apply document_messages_cite.
  - left. unfold verifyXML. rewrite HE, HR, HN. cbn [negb].
    split; [done|]. split; [|done].
    intros r [= <-]. by apply String.eqb_neq.
Qed.

(** ** What [verifyXML] does not read *)

Lemma read_alike_refl l : Forall2 read_alike l l.
Proof.
  induction l as [|e l IH]; constructor; [|done].
  repeat split. by destruct (strEqual _ _).
Qed.

Lemma first_named_read_alike name l l' :
  Forall2 read_alike l l' ->
  match first_named name l, first_named name l' with
  | Some (e, rest), Some (e', rest') => read_alike e e' /\ Forall2 read_alike rest rest'
  | None, None => True
  | _, _ => False
  end.
Proof.
  induction 1 as [|e e' l l' He Hl IH]; simpl; [done|].
  pose proof He as (HN & _). rewrite <- HN.
  destruct (strEqual (Name e) name); [|exact IH]. by split.
Qed.

Lemma elements_named_read_alike name l l' :
  Forall2 read_alike l l' ->
  Forall2 read_alike (elements_named name l) (elements_named name l').
Proof.
  induction 1 as [|e e' l l' He Hl IH]; simpl; [constructor|].
  pose proof He as (HN & _). rewrite <- HN.
  destruct (strEqual (Name e) name); [by constructor | done].
Qed.

Lemma declared_name_not_tree name :
  declared_name name = true -> strEqual name "BehaviorTree" = false.
Proof.
  unfold declared_name, strEqual. intros H.
  repeat (apply orb_prop in H as [H|H]); apply String.eqb_eq in H; by subst.
Qed.

Lemma check_declaration_read_alike xml_root xml_root' node node' r :
  Forall2 read_alike (ChildElements xml_root) (ChildElements xml_root') ->
  read_alike node node' ->
  check_declaration xml_root node r = check_declaration xml_root' node' r.
Proof.
  intros Hroot (HN & HL & HA). unfold check_declaration. rewrite <- HN.
  fold (declared_name (Name node)).
  destruct (declared_name (Name node)) eqn:Hd; [|done].
  rewrite (declared_name_not_tree _ Hd) in HA.
  unfold error_if, has_attribute, Attribute.
  rewrite !fold_left_constant, <- HA, <- HL.
  by rewrite (Forall2_length _ _ _ (elements_named_read_alike "Parameter" _ _ Hroot)).
Qed.

Lemma metamodel_checks_read_alike xml_root xml_root' r :
  Forall2 read_alike (ChildElements xml_root) (ChildElements xml_root') ->
  metamodel_checks xml_root r = metamodel_checks xml_root' r.
Proof.
  intros Hroot. unfold metamodel_checks.
  pose proof (first_named_read_alike "TreeNodesModel" _ _ Hroot) as H1.
  assert (forall l l' r0, Forall2 read_alike l l' ->
            fold_left (fun r node => check_declaration xml_root node r) l r0
            = fold_left (fun r node => check_declaration xml_root' node r) l' r0) as Hfold.
  { intros l l' r0 Hl. revert r0.
    induction Hl as [|e e' l l' He Hl IH]; intros r0; simpl; [done|].
    by rewrite (check_declaration_read_alike xml_root xml_root' e e' r0 Hroot He), IH. }
  destruct (first_named "TreeNodesModel" (ChildElements xml_root)) as [[e rest]|],
           (first_named "TreeNodesModel" (ChildElements xml_root')) as [[e' rest']|];
    try done.
  destruct H1 as [_ Hrest].
  pose proof (first_named_read_alike "TreeNodesModel" _ _ Hrest) as H2.
  destruct (first_named "TreeNodesModel" rest) as [[s ?]|],
           (first_named "TreeNodesModel" rest') as [[s' ?]|]; try done.
  - destruct H2 as [(_ & HL & _) _]. rewrite HL. by apply Hfold.
  - by apply Hfold.
Qed.

Lemma check_bt_root_read_alike bt_root bt_root' r :
  Name bt_root = "BehaviorTree" ->
  read_alike bt_root bt_root' ->
  check_bt_root bt_root r = check_bt_root bt_root' r.
Proof.
  intros HN (_ & HL & HC). rewrite HN in HC. cbn in HC.
  unfold check_bt_root, ChildrenCount, FirstChildElement. by rewrite <- HC, <- HL.
Qed.

Lemma elements_named_name name l e : e ∈ elements_named name l -> Name e = name.
Proof.
  unfold elements_named. rewrite list_elem_of_In, filter_In.
  intros [_ H]. by apply String.eqb_eq.
Qed.

(** X5.  The result of [verifyXML] depends on nothing but: whether the
    document loaded, the name of the root element, and, for every child of
    the root, its name and line number, its children if it is a
    [BehaviorTree] element and its attributes if it is not.  So the attributes
    of the root ([main_tree_to_execute]) and of the [BehaviorTree] elements
    (their [ID]) are never validated, what is inside a [TreeNodesModel] or
    any other child of the root is never looked at, and what the vector held
    before the call does not matter. *)
Theorem verifyXML_reads_only doc_ doc_' msgs0 msgs0' xml_root xml_root' :
  Error doc_ = Error doc_' ->
  RootElement doc_ = Some xml_root ->
  RootElement doc_' = Some xml_root' ->
  Name xml_root = Name xml_root' ->
  Forall2 read_alike (ChildElements xml_root) (ChildElements xml_root') ->
  verifyXML doc_ msgs0 = verifyXML doc_' msgs0'.
Proof.
  intros HE HR HR' HN Hchildren. unfold verifyXML.
  rewrite <- HE, HR, HR', <- HN.
  destruct (Error doc_); [done|].
  destruct (negb _); [done|].
  rewrite (metamodel_checks_read_alike xml_root xml_root' _ Hchildren).
  generalize (metamodel_checks xml_root' (mkReport [] true)). intros r.
  pose proof (elements_named_read_alike "BehaviorTree" _ _ Hchildren) as Hbts.
  assert (forall e, e ∈ elements_named "BehaviorTree" (ChildElements xml_root) ->
                    Name e = "BehaviorTree") as Hnames
    by (intros e; apply elements_named_name).
  revert r Hnames.
  induction Hbts as [|bt bt' l l' Hbt Hl IH]; intros r Hnames; simpl; [done|].
  rewrite (check_bt_root_read_alike bt bt' r);
    [|apply Hnames, list_elem_of_here | done].
  apply IH. intros e He. by apply Hnames, list_elem_of_further.
Qed.

Lemma verifyXML_reads_only_witness :
  verifyXML (document root_with_declarations) ["left over"]
  = verifyXML (document root_with_declarations_variant) [].
Proof.
  apply (verifyXML_reads_only _ _ _ _ root_with_declarations
           root_with_declarations_variant); try reflexivity.
  repeat constructor.
Defined.

(** ** The buffer of [AppendError] *)

Lemma string_length_append (s1 s2 : string) :
  String.length (s1 +:+ s2) = String.length s1 + String.length s2.
Proof.
  induction s1 as [|a s1 IH]; [done|].
  change (String a s1 +:+ s2) with (String a (s1 +:+ s2)). simpl. by rewrite IH.
Qed.

Lemma double_digits d :
  Decimal.nb_digits (Decimal.Little.double d) <= S (Decimal.nb_digits d)
  /\ Decimal.nb_digits (Decimal.Little.succ_double d) <= S (Decimal.nb_digits d).
Proof. induction d; simpl; try destruct IHd as [IH1 IH2]; lia. Qed.

Lemma little_uint_digits p : Decimal.nb_digits (Pos.to_little_uint p) <= Pos.size_nat p.
Proof.
  induction p as [p IH|p IH|]; simpl; [| |lia].
  - pose proof (proj2 (double_digits (Pos.to_little_uint p))). lia.
  - pose proof (proj1 (double_digits (Pos.to_little_uint p))). lia.
Qed.

Lemma revapp_digits d d' :
  Decimal.nb_digits (Decimal.revapp d d') = Decimal.nb_digits d + Decimal.nb_digits d'.
Proof. revert d'. induction d; intros d'; simpl; rewrite ?IHd; simpl; lia. Qed.

Lemma string_of_uint_length d :
  String.length (NilEmpty.string_of_uint d) = Decimal.nb_digits d.
Proof. induction d; simpl; congruence. Qed.

(** A 32-bit line number prints in at most 34 characters. *)
Lemma line_number_length (line_num : Z) :
  (- 2 ^ 31 <= line_num < 2 ^ 31)%Z ->
  String.length (NilZero.string_of_int (Z.to_int line_num)) <= 34.
Proof.
  intros Hrange.
  assert (forall p, (p < 2 ^ 32)%positive ->
                    String.length (NilZero.string_of_uint (Pos.to_uint p)) <= 33) as Hpos.
  { intros p Hp. apply Pos.size_nat_monotone in Hp.
    change (Pos.size_nat (2 ^ 32)) with 33 in Hp.
    pose proof (little_uint_digits p) as Hd.
    unfold NilZero.string_of_uint, Pos.to_uint, Decimal.rev.
    pose proof (revapp_digits (Pos.to_little_uint p) Decimal.Nil) as Hr.
    pose proof (string_of_uint_length (Decimal.revapp (Pos.to_little_uint p) Decimal.Nil))
      as Hs.
    destruct (Decimal.revapp (Pos.to_little_uint p) Decimal.Nil); simpl in *; lia. }
  destruct line_num as [|p|p]; cbn [Z.to_int NilZero.string_of_int].
  - simpl. lia.
  - specialize (Hpos p). lia.
  - cbn [String.length]. specialize (Hpos p). lia.
Qed.

Lemma format_error_length line_num text :
  (- 2 ^ 31 <= line_num < 2 ^ 31)%Z ->
  String.length (format_error line_num text) <= 53 + String.length text.
Proof.
  intros Hrange. unfold format_error. rewrite !string_length_append.
  pose proof (line_number_length line_num Hrange). simpl. lia.
Qed.

(** X6.  [AppendError] formats every message with [sprintf] into a buffer
    of 256 characters.  When the line numbers of the document are 32-bit
    integers, every message [verifyXML] returns is shorter than 256
    characters, so that the formatted text and its terminating zero fit the
    buffer: no call of [AppendError] writes past its end. *)
Theorem messages_fit_the_buffer doc_ msgs0 :
  (forall xml_root e,
     RootElement doc_ = Some xml_root -> e ∈ subelements xml_root ->
     (- 2 ^ 31 <= GetLineNum e < 2 ^ 31)%Z) ->
  Forall (fun m => String.length m < 256) (snd (verifyXML doc_ msgs0)).
Proof.
  intros Hlines.
  destruct (Error doc_) eqn:HE;
    [unfold verifyXML; rewrite HE; repeat constructor; simpl; lia|].
  destruct (RootElement doc_) as [xml_root|] eqn:HR;
    [|unfold verifyXML; rewrite HE, HR; repeat constructor; simpl; lia].
  destruct (strEqual (Name xml_root) "root") eqn:HN;
    [|unfold verifyXML; rewrite HE, HR, HN; repeat constructor; simpl; lia].
  apply String.eqb_eq in HN.
  rewrite (verifyXML_root _ _ _ HE HR HN). cbn [snd].
  eapply Forall_impl; [apply document_messages_cite|].
  intros m (e & text & He & Htext & ->).
  pose proof (format_error_length (GetLineNum e) text (Hlines _ _ eq_refl He)) as Hlen.
  assert (Forall (fun t => String.length t <= 63) all_texts) as Hall
    by (repeat constructor; simpl; lia).
  rewrite Forall_forall in Hall. specialize (Hall _ Htext). simpl in Hall. lia.
Qed.

Lemma messages_fit_the_buffer_witness :
  Forall (fun m => String.length m < 256)
    (snd (verifyXML (document root_with_declarations) [])).
Proof.
  apply (messages_fit_the_buffer (document root_with_declarations) []).
  intros xml_root e [= <-]. revert e. apply Forall_forall.
  repeat constructor; simpl; lia.
Defined.

(** * Further properties of the builder *)

(** ** The map of trees and the tree that is built *)

Lemma forallb_false_elem_of {A} (f : A -> bool) (l : list A) :
  forallb f l = false <-> exists x, x ∈ l /\ f x = false.
Proof.
  induction l as [|a l IH]; simpl.
  - split; [done|]. intros (x & Hx & _). by apply elem_of_nil in Hx.
  - rewrite andb_false_iff, IH. split.
    + intros [Ha|(x & Hx & Hf)]; [exists a | exists x]; split; try done;
        [apply list_elem_of_here | by apply list_elem_of_further].
    + intros (x & Hx & Hf). apply elem_of_cons in Hx as [->|Hx]; [by left|].
      right. by exists x.
Qed.

Lemma collect_fold_None l :
  fold_left
    (fun (acc : option (gmap string XMLElement)) node =>
       match acc, Attribute "ID" node with
       | Some bt_roots, Some ID => Some (<[ID := node]> bt_roots)
       | _, _ => None
       end) l None = None.
Proof. induction l as [|x l IH]; [done|]. exact IH. Qed.

Lemma collect_fold l (acc : gmap string XMLElement) :
  match fold_left
          (fun (acc : option (gmap string XMLElement)) node =>
             match acc, Attribute "ID" node with
             | Some bt_roots, Some ID => Some (<[ID := node]> bt_roots)
             | _, _ => None
             end) l (Some acc) with
  | Some bt_roots =>
      forallb (has_attribute "ID") l = true
      /\ forall ID,
           bt_roots !! ID = match last (trees_named ID l) with
                            | Some bt => Some bt
                            | None => acc !! ID
                            end
  | None => forallb (has_attribute "ID") l = false
  end.
Proof.
  revert acc. induction l as [|node l IH]; intros acc; [by split|].
  cbn [fold_left forallb]. unfold has_attribute at 1 3.
  destruct (Attribute "ID" node) as [k|] eqn:Hk.
  - specialize (IH (<[k := node]> acc)).
    destruct (fold_left _ l _) as [bt_roots|]; [|exact IH].
    destruct IH as [Hall Hlookup]. split; [exact Hall|].
    intros ID. rewrite Hlookup. unfold trees_named. cbn [List.filter]. rewrite Hk.
    destruct (decide (k = ID)) as [->|Hne].
    + rewrite bool_decide_eq_true_2 by done. rewrite last_cons.
      fold (trees_named ID l). destruct (last (trees_named ID l)); [done|].
      by rewrite lookup_insert_eq.
    + rewrite bool_decide_eq_false_2 by congruence.
      fold (trees_named ID l). destruct (last (trees_named ID l)); [done|].
      by rewrite lookup_insert_ne.
  - by rewrite collect_fold_None.
Qed.

Lemma collect_bt_roots_lookup xml_root :
  match collect_bt_roots xml_root with
  | Some bt_roots =>
      forallb (has_attribute "ID") (bt_roots_of xml_root) = true
      /\ forall ID, bt_roots !! ID = last (trees_named ID (bt_roots_of xml_root))
  | None => forallb (has_attribute "ID") (bt_roots_of xml_root) = false
  end.
Proof.
  pose proof (collect_fold (bt_roots_of xml_root) ∅) as H.
  unfold collect_bt_roots. fold (bt_roots_of xml_root).
  destruct (fold_left _ _ _) as [bt_roots|]; [|exact H].
  destruct H as [Hall Hlookup]. split; [exact Hall|].
  intros ID. rewrite Hlookup, lookup_empty. by destruct (last _).
Qed.

(** X7.  The map [bt_roots] built by [instantiateTree] exists exactly when
    every [BehaviorTree] child of the root has an [ID] attribute (otherwise a
    [std::string] is built from a null pointer).  Looking an ID up in it
    gives the last [BehaviorTree] element that carries this ID, in document
    order, and nothing when no element carries it: a later tree silently
    replaces an earlier tree of the same ID. *)
Theorem bt_roots_last_wins xml_root :
  (collect_bt_roots xml_root = None
   <-> exists bt, bt ∈ bt_roots_of xml_root /\ Attribute "ID" bt = None)
  /\ forall bt_roots ID,
       collect_bt_roots xml_root = Some bt_roots ->
       bt_roots !! ID = last (trees_named ID (bt_roots_of xml_root)).
Proof.
  pose proof (collect_bt_roots_lookup xml_root) as H.
  assert (forallb (has_attribute "ID") (bt_roots_of xml_root) = false
          <-> exists bt, bt ∈ bt_roots_of xml_root /\ Attribute "ID" bt = None) as Hmissing.
  { rewrite forallb_false_elem_of. split; intros (bt & Hin & Hbt); exists bt; (split; [done|]);
      unfold has_attribute in *; by destruct (Attribute "ID" bt). }
  destruct (collect_bt_roots xml_root) as [bt_roots|].
  - destruct H as [Hall Hlookup]. split.
    + split; [done|]. intros Hex. apply Hmissing in Hex. congruence.
    + intros ? ID [= <-]. apply Hlookup.
  - split; [|done]. split; [intros _; by apply Hmissing | done].
Qed.

Lemma bt_roots_last_wins_witness :
  exists bt_roots,
    collect_bt_roots root_with_two_trees = Some bt_roots
    /\ bt_roots !! "MainTree"
       = Some (element "BehaviorTree" [("ID", "MainTree")] 5
                 [ element "Action" [("ID", "OpenGripper")] 6 [] ]).
Proof.
  pose proof (proj2 (bt_roots_last_wins root_with_two_trees) _ "MainTree" eq_refl) as H.
  eexists. split; [reflexivity | exact H].
Defined.

Lemma trees_named_elem ID bts bt :
  last (trees_named ID bts) = Some bt -> bt ∈ bts /\ Attribute "ID" bt = Some ID.
Proof.
  intros H. apply last_Some_elem_of in H.
  unfold trees_named in H. apply list_elem_of_In, filter_In in H as [Hin Hid].
  split; [by apply list_elem_of_In | by apply bool_decide_eq_true in Hid].
Qed.

(** X8.  For a definition that passes validation, [instantiateTree] builds
    from the only child of the last [BehaviorTree] element whose [ID] is the
    root's [main_tree_to_execute].  When there is no such tree, because the
    root lacks the attribute, or a [BehaviorTree] element has no [ID], or no
    tree carries the ID named, validation does not catch it and the call is
    undefined (a null pointer is used) before any node is allocated, with any
    factory. *)
Theorem main_tree_selected doc_ xml_root :
  snd (verifyXML doc_ []) = [] ->
  RootElement doc_ = Some xml_root ->
  match main_tree xml_root with
  | None => forall fuel factory w, instantiateTree fuel doc_ factory w = (Undefined, w)
  | Some bt =>
      exists bt_roots root_element,
        collect_bt_roots xml_root = Some bt_roots
        /\ ChildElements bt = [root_element]
        /\ forall fuel factory w,
            instantiateTree fuel doc_ factory w
            = treeParsing (node_builder factory bt_roots fuel) root_element None w
  end.
Proof.
  intros Hv HR.
  destruct (verifyXML_no_messages _ _ Hv) as (xml_root' & _ & HR' & _ & Hnil).
  replace xml_root' with xml_root in * by congruence.
  pose proof (collect_bt_roots_lookup xml_root) as Hcollect.
  unfold main_tree, instantiateTree. rewrite Hv, HR. cbn [length Nat.ltb Nat.leb].
  destruct (Attribute "main_tree_to_execute" xml_root) as [main_tree_ID|]; [|done].
  destruct (collect_bt_roots xml_root) as [bt_roots|].
  - destruct Hcollect as [-> Hlookup]. rewrite Hlookup.
    destruct (last (trees_named main_tree_ID (bt_roots_of xml_root))) as [bt|] eqn:Hlast;
      [|done].
    destruct (trees_named_elem _ _ _ Hlast) as [Hin _].
    destruct (valid_bt_root_single xml_root bt Hnil Hin) as [root_element Hc].
    exists bt_roots, root_element. split; [done|]. split; [done|].
    intros fuel factory w. unfold FirstChildElement. by rewrite Hc.
  - by rewrite Hcollect.
Qed.

Lemma main_tree_selected_witness :
  exists bt_roots root_element,
    collect_bt_roots root_with_two_trees = Some bt_roots
    /\ ChildElements (element "BehaviorTree" [("ID", "MainTree")] 5
                        [ element "Action" [("ID", "OpenGripper")] 6 [] ])
       = [root_element]
    /\ forall fuel factory w,
        instantiateTree fuel (document root_with_two_trees) factory w
        = treeParsing (node_builder factory bt_roots fuel) root_element None w.
Proof.
  exact (main_tree_selected (document root_with_two_trees) root_with_two_trees
           eq_refl eq_refl).
Defined.

(** ** Relations kept by every step of the builder *)

Section BuilderFollows.
Variable R : World -> World -> Prop.
Hypothesis R_refl : forall w, R w w.
Hypothesis R_trans : forall w1 w2 w3, R w1 w2 -> R w2 w3 -> R w1 w3.
Hypothesis R_instantiate :
  forall factory ID name params, follows R (instantiateTreeNode factory ID name params).
Hypothesis R_push_back : forall node, follows R (push_back node).
Hypothesis R_attach : forall parent child_node, follows R (attach parent child_node).


End BuilderFollows.

(** ** A subtree reference to a tree that does not exist *)

Lemma same_size_refl w : same_size w w.
Proof. done. Qed.

Lemma same_size_trans w1 w2 w3 : same_size w1 w2 -> same_size w2 w3 -> same_size w1 w3.
Proof. intros (? & ? & ?) (? & ? & ?). repeat split; congruence. Qed.

Lemma attach_same_size parent child_node : follows same_size (attach parent child_node).
Proof.
  pose proof same_size_refl. pose proof same_size_trans.
  assert (forall p cs, follows same_size (set_children p cs)) as Hset.
  { intros p cs w out w'. unfold set_children.
    destruct (heap w !! p); intros [= _ <-]; [|done].
    repeat split. simpl. apply length_insert. }
  destruct parent as [p|]; simpl; [|by apply follows_ret].
  apply follows_bind; [done..|by apply follows_get_node|]. intros n.
  apply follows_bind; [done..| |intros _].
  - destruct (is_ControlNode _); [|by apply follows_ret].
    apply follows_bind; [done..|by apply follows_get_node|]. intros; apply Hset.
  - destruct (is_DecoratorNode _); [|by apply follows_ret].
    apply follows_bind; [done..|by apply follows_get_node|].
    intros n'. destruct (children n'); [apply Hset | by apply follows_throw].
Qed.

(** A name that is not the ID of a tree: the builder never returns, and
    the store and the vector have grown by the decorator. *)
Lemma unresolved_reference_never_returns factory bt_roots fuel ID name params parent w out w' :
  builders factory !! ID = Some DecoratorSubtreeNode ->
  bt_roots !! name = None ->
  node_builder factory bt_roots fuel ID name params parent w = (out, w') ->
  (forall r, out <> Returned r)
  /\ out <> OutOfFuel
  /\ length (heap w') = S (length (heap w))
  /\ nodes w' = nodes w ++ [length (heap w)]
  /\ (parent = None -> out = Undefined).
Proof.
  intros Hk Hbt. rewrite node_builder_eq.
  unfold bind at 1, instantiateTreeNode. rewrite Hk.
  unfold bind at 1, push_back. cbn [heap nodes cerr].
  set (w2 := {| heap := _; nodes := _; cerr := _ |}).
  unfold bind at 1.
  pose proof (attach_same_size parent (length (heap w)) w2) as Hsize.
  pose proof (terminates_attach parent (length (heap w)) w2) as Hterm.
  destruct (attach parent (length (heap w)) w2) as [[[]|e| |] w3] eqn:Hattach;
    destruct (Hsize _ _ eq_refl) as (Hlen & Hnodes & _);
    cbn [heap nodes w2] in Hlen, Hnodes; rewrite length_app in Hlen; cbn in Hlen.
  - unfold bind at 1, get_node.
    destruct (heap w3 !! length (heap w)) as [n|] eqn:Hn.
    + destruct (attach_kind _ _ _ _ _ _ Hattach Hn) as (n0 & Hn0 & Hkind).
      cbn [heap w2] in Hn0. rewrite list_lookup_middle in Hn0 by done.
      injection Hn0 as <-. cbn [kind] in Hkind. rewrite <- Hkind.
      cbn [is_DecoratorSubtreeNode]. rewrite Hbt. unfold bind, undefined.
      intros [= <- <-]. repeat split; try done; lia.
    + intros [= <- <-]. repeat split; try done; lia.
  - intros [= <- <-]. repeat split; try done; try lia.
    intros ->. discriminate Hattach.
  - intros [= <- <-]. repeat split; try done; lia.
  - done.
Qed.

Lemma attach_ready parent child_node w :
  ready parent w ->
  attach parent child_node w
  = (Returned tt,
     {| heap := with_child parent child_node (heap w); nodes := nodes w; cerr := cerr w |}).
Proof.
  destruct parent as [p|]; simpl; [|intros _; by destruct w].
  intros (n & Hn & Hdec). rewrite Hn.
  unfold bind at 1, get_node. rewrite Hn. unfold attached.
  destruct (kind n) eqn:Hk; cbn [is_ControlNode is_DecoratorNode orb] in *;
    unfold bind, ret, addChild, setChild, bind, get_node, set_children;
    rewrite ?Hn, ?Hdec by done; rewrite ?Hn; cbn [app];
    rewrite ?with_children_id, ?list_insert_id by done; try done; by destruct w.
Qed.

Lemma with_child_new parent h n0 :
  (forall p, parent = Some p -> p < length h) ->
  with_child parent (length h) (h ++ [n0]) !! length h = Some n0.
Proof.
  intros Hvalid. destruct parent as [p|]; simpl; [|by rewrite list_lookup_middle].
  specialize (Hvalid p eq_refl).
  destruct ((h ++ [n0]) !! p); [|by rewrite list_lookup_middle].
  rewrite list_lookup_insert_ne by lia. by rewrite list_lookup_middle.
Qed.

(** X9.  When the factory makes a Subtree decorator for an ID and the name
    passed with it is not the ID of any tree in [bt_roots], [node_builder]
    never returns, and the decorator has been allocated and appended to the
    caller's vector: store and vector have grown by that one node.  What
    happens next depends on the parent.  If there is none, or it is an
    allocated node that can take a child (any node but a Decorator that has
    one already), the decorator is attached as the class of the parent
    allows and the call ends in the use of the null pointer that
    [bt_roots[name]] yields (line 245).  If the parent is a Decorator that
    has a child, [setChild] throws: the decorator stays unattached and
    line 241 is not reached. *)
Theorem unresolved_subtree_reference factory bt_roots fuel ID name params parent w :
  builders factory !! ID = Some DecoratorSubtreeNode ->
  bt_roots !! name = None ->
  (ready parent w ->
   node_builder factory bt_roots fuel ID name params parent w
   = (Undefined,
      {| heap := with_child parent (length (heap w))
                   (heap w ++ [mkTreeNode ID name params DecoratorSubtreeNode []]);
         nodes := nodes w ++ [length (heap w)];
         cerr := cerr w |}))
  /\ (forall p n,
        parent = Some p -> heap w !! p = Some n ->
        is_DecoratorNode (kind n) = true -> children n <> [] ->
        node_builder factory bt_roots fuel ID name params parent w
        = (Thrown (child_already_set p),
           allocated (mkTreeNode ID name params DecoratorSubtreeNode []) w))
  /\ (forall out w',
        node_builder factory bt_roots fuel ID name params parent w = (out, w') ->
        (forall r, out <> Returned r)
        /\ out <> OutOfFuel
        /\ length (heap w') = S (length (heap w))
        /\ nodes w' = nodes w ++ [length (heap w)]).
Proof.
  intros Hk Hbt.
  set (n0 := mkTreeNode ID name params DecoratorSubtreeNode []).
  set (w1 := {| heap := heap w ++ [n0]; nodes := nodes w; cerr := cerr w |}).
  assert (instantiateTreeNode factory ID name params w = (Returned (length (heap w)), w1))
    as Halloc by (unfold instantiateTreeNode; by rewrite Hk).
  assert (push_back (length (heap w)) w1 = (Returned tt, allocated n0 w)) as Hpush by done.
  split; [|split].
  - intros Hready.
    assert (ready parent (allocated n0 w)) as Hready2.
    { destruct parent as [p|]; [|done]. destruct Hready as (n & Hn & Hd).
      exists n. split; [|done]. cbn [heap allocated].
      rewrite lookup_app_l; [done | by eapply lookup_lt_Some]. }
    rewrite node_builder_eq.
    rewrite (bind_eval _ _ w _ w1 Halloc), (bind_eval _ _ w1 tt _ Hpush),
      (bind_eval _ _ _ tt _ (attach_ready _ _ _ Hready2)).
    cbn [heap nodes cerr allocated].
    unfold bind at 1, get_node. cbn [heap].
    rewrite with_child_new
      by (intros p ->; destruct Hready as (n & Hn & _); by eapply lookup_lt_Some).
    cbn [kind n0 is_DecoratorSubtreeNode]. by rewrite Hbt.
  - intros p n -> Hn Hdec Hchildren.
    rewrite node_builder_eq.
    rewrite (bind_eval _ _ w _ w1 Halloc), (bind_eval _ _ w1 tt _ Hpush).
    assert (heap (allocated n0 w) !! p = Some n) as Hn2
      by (cbn [heap allocated]; rewrite lookup_app_l; [done | by eapply lookup_lt_Some]).
    unfold bind at 1. cbn [attach].
    unfold bind at 1, get_node. rewrite Hn2.
    destruct (kind n) eqn:Hkind; try discriminate Hdec;
      cbn [is_ControlNode is_DecoratorNode];
      unfold bind, ret, setChild, bind, get_node, throw; rewrite Hn2;
      by destruct (children n).
  - intros out w' H.
    destruct (unresolved_reference_never_returns _ _ _ _ _ _ _ _ _ _ Hk Hbt H)
      as (H1 & H2 & H3 & H4 & _).
    done.
Qed.

Lemma unresolved_subtree_reference_witness :
  node_builder sample_factory ∅ 0 "SubTree" "Elsewhere" ∅ (Some 0)
    world_after_unknown_action
  = (Undefined,
     {| heap := [ mkTreeNode "Sequence" "Sequence" ∅ ControlNode [1; 2];
                  mkTreeNode "SayHello" "SayHello" ∅ ActionNode [];
                  mkTreeNode "SubTree" "Elsewhere" ∅ DecoratorSubtreeNode [] ];
        nodes := [0; 1; 2]; cerr := [] |})
  /\ node_builder sample_factory ∅ 0 "SubTree" "Elsewhere" ∅ (Some 0)
       {| heap := [ mkTreeNode "Invert" "Invert" ∅ DecoratorNode [1];
                    mkTreeNode "SayHello" "SayHello" ∅ ActionNode [] ];
          nodes := [0; 1]; cerr := [] |}
     = (Thrown (child_already_set 0),
        {| heap := [ mkTreeNode "Invert" "Invert" ∅ DecoratorNode [1];
                     mkTreeNode "SayHello" "SayHello" ∅ ActionNode [];
                     mkTreeNode "SubTree" "Elsewhere" ∅ DecoratorSubtreeNode [] ];
           nodes := [0; 1; 2]; cerr := [] |}).
Proof.
  split.
  - apply (proj1 (unresolved_subtree_reference sample_factory ∅ 0 "SubTree" "Elsewhere" ∅
                    (Some 0) world_after_unknown_action eq_refl (lookup_empty _))).
    eexists. split; [reflexivity | discriminate].
  - apply (proj1 (proj2 (unresolved_subtree_reference sample_factory ∅ 0 "SubTree"
                           "Elsewhere" ∅ (Some 0)
                           {| heap := [ mkTreeNode "Invert" "Invert" ∅ DecoratorNode [1];
                                        mkTreeNode "SayHello" "SayHello" ∅ ActionNode [] ];
                              nodes := [0; 1]; cerr := [] |}
                           eq_refl (lookup_empty _)))
             0 (mkTreeNode "Invert" "Invert" ∅ DecoratorNode [1]));
      reflexivity || discriminate.
Defined.

(** ** Child lists stay within what the classes allow *)









(** ** The tree mirrors the definition *)

(** A laid-out range is not empty, lies within the store, and the ranges
    of the child elements start inside it. *)
Lemma laid_out_range factory bt_roots h :
  (forall element lo hi,
     laid_out factory bt_roots h element lo hi -> lo < hi /\ hi <= length h)
  /\ (forall child_elements lo hi starts,
        segments factory bt_roots h child_elements lo hi starts ->
        lo <= hi /\ (lo <= length h -> hi <= length h)
        /\ length starts = length child_elements
        /\ Forall (fun s => lo <= s < hi) starts).
Proof.
  apply laid_out_segments_ind.
  - intros element n lo hi starts Hn _ _ _ _ (Hle & Hin & _) _.
    apply lookup_lt_Some in Hn. lia.
  - intros element n lo hi bt subtree_elem Hn _ _ _ _ _ _ IH _. lia.
  - intros lo. repeat split; done.
  - intros child rest lo mid hi starts _ [H1 H2] _ (H3 & H4 & H5 & H6).
    split; [lia|]. split; [lia|]. split; [simpl; lia|].
    constructor; [lia|]. eapply Forall_impl; [exact H6|]. simpl. lia.
Qed.

(** Laying out depends on the nodes of the range only. *)
Lemma laid_out_frame factory bt_roots h :
  (forall element lo hi,
     laid_out factory bt_roots h element lo hi ->
     forall h', (forall i, lo <= i < hi -> h' !! i = h !! i) ->
                laid_out factory bt_roots h' element lo hi)
  /\ (forall child_elements lo hi starts,
        segments factory bt_roots h child_elements lo hi starts ->
        forall h', (forall i, lo <= i < hi -> h' !! i = h !! i) ->
                   segments factory bt_roots h' child_elements lo hi starts).
Proof.
  apply laid_out_segments_ind.
  - intros element n lo hi starts Hn Hinst Hk Hdec Hseg IH Hc h' Hsame.
    destruct (proj2 (laid_out_range factory bt_roots h) _ _ _ _ Hseg) as (Hle & _).
    eapply laid_out_node; eauto.
    + rewrite Hsame; [done | lia].
    + apply IH. intros i Hi. apply Hsame. lia.
  - intros element n lo hi bt subtree_elem Hn Hinst Hk Hce Hbt Hfirst Hsub IH Hc h' Hsame.
    destruct (proj1 (laid_out_range factory bt_roots h) _ _ _ Hsub) as (Hlt & _).
    eapply laid_out_reference; eauto.
    + rewrite Hsame; [done | lia].
    + apply IH. intros i Hi. apply Hsame. lia.
  - intros lo h' _. constructor.
  - intros child rest lo mid hi starts Hchild IH1 Hrest IH2 h' Hsame.
    destruct (proj1 (laid_out_range factory bt_roots h) _ _ _ Hchild) as (Hlt & _).
    destruct (proj2 (laid_out_range factory bt_roots h) _ _ _ _ Hrest) as (Hle & _).
    econstructor.
    + apply IH1. intros i Hi. apply Hsame. lia.
    + apply IH2. intros i Hi. apply Hsame. lia.
Qed.

(** The loop of [treeParsing] over the child elements lays them out one
    after the other and hands their first nodes to [node]. *)
Lemma for_each_children_laid_out factory bt_roots nb child_elements node :
  builds factory bt_roots nb ->
  Forall (lays_out factory bt_roots nb) child_elements ->
  forall n1 w1 w2,
    closed w1 -> heap w1 !! node = Some n1 ->
    for_each (fun child_element => treeParsing nb child_element (Some node) ;;; ret tt)
      child_elements w1 = (Returned tt, w2) ->
    exists starts,
      segments factory bt_roots (heap w2) child_elements
        (length (heap w1)) (length (heap w2)) starts
      /\ heap w2 !! node
         = Some (with_children n1
                   (if takes_children (kind n1) then children n1 ++ starts
                    else children n1))
      /\ (is_DecoratorNode (kind n1) = true -> child_elements <> [] ->
          children n1 = [] /\ length child_elements = 1).
Proof.
  intros Hnb.
  induction 1 as [|child rest Hchild Hrest IH]; intros n1 w1 w2 Hclosed Hnode Hloop.
  - injection Hloop as <-. exists []. split; [constructor|]. split; [|done].
    rewrite app_nil_r. destruct (takes_children _); by rewrite with_children_id.
  - simpl in Hloop.
    apply bind_Returned in Hloop as ([] & wa & Hfirst & Hloop).
    apply bind_Returned in Hfirst as (rc & wa' & Hfirst & Hret).
    injection Hret as ->.
    assert (node < length (heap w1)) as Hlt by (by eapply lookup_lt_Some).
    assert (valid_parent (Some node) w1) as Hvalid by (by intros p [= <-]).
    pose proof (Hchild (Some node) w1 rc wa Hclosed Hvalid Hfirst) as Hlay.
    destruct (treeParsing_built factory bt_roots nb Hnb child (Some node) w1 rc wa
                Hclosed Hvalid Hfirst) as (ID & name & _ & _ & HB).
    destruct HB as [Hh Hfresh Hframe Hparent Hsecond Hcl _ _].
    specialize (Hparent node n1 eq_refl Hnode).
    destruct (IH _ wa w2 Hcl Hparent Hloop) as (starts & Hseg & Hnode2 & Hone).
    assert (Forall (parses factory bt_roots nb) rest) as Hparses
      by (apply Forall_forall; intros; by apply treeParsing_built).
    destruct (for_each_children_built _ _ _ _ node Hparses _ wa w2 Hcl Hparent Hloop)
      as (_ & _ & Hframe2 & _).
    exists (length (heap w1) :: starts). split; [|split].
    + econstructor; [|exact Hseg].
      apply (proj1 (laid_out_frame factory bt_roots (heap wa)) _ _ _ Hlay).
      intros i Hi. apply Hframe2; lia.
    + rewrite Hnode2. cbn [kind with_children children]. unfold attached, takes_children.
      rewrite with_children_twice.
      destruct (_ || _); [|done]. rewrite Hh, <- app_assoc. done.
    + intros Hdec _.
      assert (children n1 = []) as Hnone by (by apply (Hsecond node n1)).
      split; [done|].
      destruct rest as [|child' rest']; [done|].
      destruct Hone as [Hone _]; [done..|].
      cbn [children with_children] in Hone. unfold attached in Hone.
      rewrite Hdec, orb_true_r in Hone. by destruct (children n1).
Qed.

Lemma treeParsing_laid_out factory bt_roots nb :
  builds factory bt_roots nb ->
  shapes factory bt_roots nb ->
  forall element, lays_out factory bt_roots nb element.
Proof.
  intros Hnb Hshapes element.
  induction element as [ename attrs line child_elements IH] using XMLElement_nested_ind.
  intros parent w r w' Hclosed Hvalid H.
  set (element := mkXMLElement ename attrs line child_elements) in *.
  assert (treeParsing nb element parent
          = match node_ID element, node_alias element with
            | Some ID, Some alias =>
                node <~ nb ID alias (node_params element) parent ;;
                for_each (fun child_element =>
                            treeParsing nb child_element (Some node) ;;; ret tt)
                  child_elements ;;;
                ret node
            | _, _ => undefined
            end) as E by done.
  rewrite E in H. clear E.
  destruct (node_ID element) as [ID|] eqn:HID; [|discriminate].
  destruct (node_alias element) as [name|] eqn:Halias; [|discriminate].
  apply bind_Returned in H as (node & w1 & Hnode & H).
  apply bind_Returned in H as ([] & w2 & Hloop & Hret).
  injection Hret as <- <-.
  destruct (Hnb _ _ _ _ _ _ _ Hclosed Hvalid Hnode) as [Hh _ _ _ _ Hcl _ _].
  destruct (Hshapes _ _ _ _ _ _ _ Hclosed Hvalid Hnode)
    as (n & Hn & Hreg & Hname & Hparams & Hkind & Hplain & Hsub).
  destruct (for_each_children_laid_out _ _ _ _ node Hnb IH n w1 w2 Hcl Hn Hloop)
    as (starts & Hseg & Hnode2 & Hone).
  assert (forall cs, instance_of factory (with_children n cs) element) as Hinst.
  { intros cs. unfold instance_of. cbn [registrationName instanceName parameters kind with_children].
    subst ID name. rewrite Hparams. done. }
  assert (kind n = DecoratorSubtreeNode \/ kind n <> DecoratorSubtreeNode) as [Hk|Hk]
    by (destruct (kind n); auto; by right).
  - destruct (Hsub Hk) as (bt & subtree_elem & Hbt & Hfirst & Hc & Hlay).
    assert (child_elements = []) as ->.
    { destruct child_elements as [|c cs]; [done|].
      destruct Hone as [Hone _]; [by rewrite Hk | done | by rewrite Hc in Hone]. }
    injection Hloop as <-.
    apply (laid_out_reference factory bt_roots (heap w1) element n
             (length (heap w)) (length (heap w1)) bt subtree_elem).
    + by rewrite <- Hh.
    + rewrite <- (with_children_id n). apply Hinst.
    + done.
    + done.
    + by rewrite Hname.
    + done.
    + by rewrite <- Hh.
    + by rewrite <- Hh.
  - destruct (Hplain Hk) as [Hc Hlen].
    rewrite Hc in Hnode2. cbn [app] in Hnode2.
    apply (laid_out_node factory bt_roots (heap w2) element
             (with_children n (if takes_children (kind n) then starts else []))
             (length (heap w)) (length (heap w2)) starts).
    + rewrite <- Hh. exact Hnode2.
    + apply Hinst.
    + done.
    + cbn [kind with_children]. intros Hd.
      destruct child_elements as [|c cs]; [simpl; lia|].
      destruct Hone as [_ Hone]; [by rewrite Hd | done |].
      cbn [ChildElements element]. lia.
    + rewrite <- Hh, <- Hlen. exact Hseg.
    + done.
Qed.

Lemma node_builder_shapes factory bt_roots fuel :
  shapes factory bt_roots (node_builder factory bt_roots fuel).
Proof.
  induction fuel as [|fuel IH];
    intros ID name params parent w r w' Hcl Hvalid H;
    rewrite node_builder_eq in H;
    apply bind_Returned in H as (child_node & w1 & Halloc & H);
    apply bind_Returned in H as ([] & w2 & Hpush & H);
    apply bind_Returned in H as ([] & w3 & Hattach & H);
    apply bind_Returned in H as (n & w3' & Hn & H);
    apply get_node_Returned in Hn as [Hn ->];
    apply bind_Returned in H as ([] & w4 & Hexpand & Hret);
    injection Hret as <- <-;
    destruct (allocate_attach _ _ _ _ _ _ _ _ _ _ Hcl Hvalid Halloc Hpush Hattach)
      as (k & Hk & Hchild & Hlen & Hnew & _ & _ & _ & Hcl3);
    rewrite Hnew in Hn; injection Hn as <-; cbn [kind] in Hexpand;
    (destruct (is_DecoratorSubtreeNode k) eqn:Hsub;
     [ destruct (bt_roots !! name) as [bt|] eqn:Hbt; [|discriminate];
       destruct (FirstChildElement bt) as [subtree_elem|] eqn:Hfirst; [|discriminate]
     | injection Hexpand as <-;
       eexists; split; [exact Hnew|]; cbn [registrationName instanceName parameters kind children];
       do 4 (split; [done|]); split;
       [ intros _; split; [done | lia]
       | intros ->; discriminate ] ]).
  - discriminate.
  - apply bind_Returned in Hexpand as (c & w5 & Hparse & Hret).
    injection Hret as ->.
    assert (valid_parent (Some child_node) w3) as Hvalid3 by (intros p [= <-]; lia).
    destruct (treeParsing_built factory bt_roots _ (node_builder_builds factory bt_roots fuel)
                subtree_elem (Some child_node) w3 c w4 Hcl3 Hvalid3 Hparse)
      as (IDc & namec & _ & _ & HB).
    destruct HB as [Hc _ _ Hparent5 _ _ _ _].
    specialize (Hparent5 child_node _ eq_refl Hnew).
    assert (k = DecoratorSubtreeNode) as -> by (by destruct k).
    unfold attached in Hparent5. simpl in Hparent5.
    pose proof (treeParsing_laid_out factory bt_roots _
                  (node_builder_builds factory bt_roots fuel) IH subtree_elem
                  (Some child_node) w3 c w4 Hcl3 Hvalid3 Hparse) as Hlay.
    eexists. split; [exact Hparent5|].
    cbn [registrationName instanceName parameters kind children with_children].
    do 4 (split; [done|]). split; [done|]. intros _.
    exists bt, subtree_elem. split; [done|]. split; [done|].
    rewrite Hc, Hlen, <- Hchild. split; [done|].
    rewrite Hlen, <- Hchild in Hlay. exact Hlay.
Qed.

(** What a successful [instantiateTree] was started on. *)
Lemma instantiateTree_main_tree fuel doc_ factory w root_node w' :
  instantiateTree fuel doc_ factory w = (Returned root_node, w') ->
  exists xml_root bt_roots bt root_element,
    RootElement doc_ = Some xml_root
    /\ collect_bt_roots xml_root = Some bt_roots
    /\ main_tree xml_root = Some bt
    /\ ChildElements bt = [root_element]
    /\ treeParsing (node_builder factory bt_roots fuel) root_element None w
       = (Returned root_node, w').
Proof.
  intros H.
  destruct (instantiateTree_Returned _ _ _ _ _ _ H)
    as (xml_root & main_tree_ID & bt_roots & bt & root_element
        & Hv & HR & HM & HC & HB & HF & Hparse).
  destruct (verifyXML_no_messages _ _ Hv) as (xml_root' & _ & HR' & _ & Hnil).
  replace xml_root' with xml_root in * by congruence.
  pose proof (collect_bt_roots_lookup xml_root) as Hlookup. rewrite HC in Hlookup.
  destruct Hlookup as [Hall Hlookup]. rewrite Hlookup in HB.
  destruct (trees_named_elem _ _ _ HB) as [Hin _].
  destruct (valid_bt_root_single xml_root bt Hnil Hin) as [root_element' Hc].
  unfold FirstChildElement in HF. rewrite Hc in HF. injection HF as ->.
  exists xml_root, bt_roots, bt, root_element.
  unfold main_tree. rewrite HM, Hall. done.
Qed.

(** X11.  After a successful build from a store in which links are sound,
    the nodes allocated by the build are the tree of the definition: the
    returned root is the first of them, and from it on the store is laid out
    for the only child of the main [BehaviorTree] element, node by node, with
    every Subtree decorator followed by the tree it refers to and every other
    node followed by the trees of its child elements in document order.  The
    nodes that existed before are left as they were. *)
Theorem tree_mirrors_definition fuel doc_ factory w root_node w' :
  closed w ->
  instantiateTree fuel doc_ factory w = (Returned root_node, w') ->
  exists xml_root bt_roots bt root_element,
    RootElement doc_ = Some xml_root
    /\ collect_bt_roots xml_root = Some bt_roots
    /\ main_tree xml_root = Some bt
    /\ ChildElements bt = [root_element]
    /\ root_node = length (heap w)
    /\ laid_out factory bt_roots (heap w') root_element
         (length (heap w)) (length (heap w'))
    /\ forall i, i < length (heap w) -> heap w' !! i = heap w !! i.
Proof.
  intros Hcl H.
  destruct (instantiateTree_main_tree _ _ _ _ _ _ H)
    as (xml_root & bt_roots & bt & root_element & HR & HC & HM & HE & Hparse).
  exists xml_root, bt_roots, bt, root_element.
  do 4 (split; [done|]).
  assert (valid_parent None w) as Hvalid by (by intros p).
  pose proof (node_builder_builds factory bt_roots fuel) as Hnb.
  destruct (treeParsing_built factory bt_roots _ Hnb root_element None w root_node w'
              Hcl Hvalid Hparse) as (ID & name & _ & _ & [Hh _ Hframe _ _ _ _ _]).
  split; [done|]. split.
  - by apply (treeParsing_laid_out factory bt_roots _ Hnb
                (node_builder_shapes factory bt_roots fuel) root_element None w root_node).
  - intros i Hi. by apply Hframe.
Qed.

Lemma tree_mirrors_definition_witness :
  exists xml_root bt_roots bt root_element,
    RootElement (document root_with_subtree) = Some xml_root
    /\ collect_bt_roots xml_root = Some bt_roots
    /\ main_tree xml_root = Some bt
    /\ ChildElements bt = [root_element]
    /\ 2 = length (heap world_after_unknown_action)
    /\ laid_out sample_factory bt_roots
         (heap world_after_unknown_action
          ++ [ mkTreeNode "Sequence" "root_sequence" ∅ ControlNode [3; 4];
               mkTreeNode "SayHello" "SayHello" ∅ ActionNode [];
               mkTreeNode "SubTree" "Sub" ∅ DecoratorSubtreeNode [5];
               mkTreeNode "OpenGripper" "OpenGripper" ∅ ActionNode [] ])
         root_element 2 6
    /\ forall i, i < 2 ->
         (heap world_after_unknown_action
          ++ [ mkTreeNode "Sequence" "root_sequence" ∅ ControlNode [3; 4];
               mkTreeNode "SayHello" "SayHello" ∅ ActionNode [];
               mkTreeNode "SubTree" "Sub" ∅ DecoratorSubtreeNode [5];
               mkTreeNode "OpenGripper" "OpenGripper" ∅ ActionNode [] ]) !! i
         = heap world_after_unknown_action !! i.
Proof.
  apply (tree_mirrors_definition 1 (document root_with_subtree) sample_factory
           world_after_unknown_action 2
           {| heap := heap world_after_unknown_action
                      ++ [ mkTreeNode "Sequence" "root_sequence" ∅ ControlNode [3; 4];
                           mkTreeNode "SayHello" "SayHello" ∅ ActionNode [];
                           mkTreeNode "SubTree" "Sub" ∅ DecoratorSubtreeNode [5];
                           mkTreeNode "OpenGripper" "OpenGripper" ∅ ActionNode [] ];
              nodes := [0; 1; 2; 3; 4; 5];
              cerr := [] |}).
  - split; simpl; [repeat constructor | ].
    apply NoDup_cons. split; [apply not_elem_of_nil | apply NoDup_nil_2].
  - reflexivity.
Defined.

Lemma segments_increasing factory bt_roots h child_elements lo hi starts :
  segments factory bt_roots h child_elements lo hi starts -> increasing starts.
Proof.
  apply (segments_mutual factory bt_roots h (fun _ _ _ => True)
           (fun _ _ _ starts => increasing starts)); try done.
  clear. intros child rest lo mid hi starts Hchild _ Hrest IH i j c d Hij Hi Hj.
    destruct (proj1 (laid_out_range factory bt_roots h) _ _ _ Hchild) as [Hlt _].
    destruct (proj2 (laid_out_range factory bt_roots h) _ _ _ _ Hrest) as (_ & _ & _ & Hin).
    destruct j as [|j]; [lia|]. cbn in Hj.
    destruct i as [|i]; cbn in Hi.
    + injection Hi as <-. rewrite Forall_lookup in Hin. apply Hin in Hj. lia.
    + apply (IH i j); [lia | done..].
Qed.

(** In a laid-out range every node has its children after it, inside the
    range, in increasing order. *)
Lemma laid_out_children_follow factory bt_roots h :
  (forall element lo hi,
     laid_out factory bt_roots h element lo hi ->
     forall p n, lo <= p < hi -> h !! p = Some n ->
                 Forall (fun c => p < c < hi) (children n) /\ increasing (children n))
  /\ (forall child_elements lo hi starts,
        segments factory bt_roots h child_elements lo hi starts ->
        forall p n, lo <= p < hi -> h !! p = Some n ->
                    Forall (fun c => p < c < hi) (children n) /\ increasing (children n)).
Proof.
  apply laid_out_segments_ind.
  - intros element n lo hi starts Hn _ _ _ Hseg IH Hc p m Hp Hm.
    destruct (decide (p = lo)) as [->|Hne]; [|apply IH; [lia | done]].
    replace m with n by congruence. rewrite Hc.
    destruct (takes_children _).
    + split; [|by eapply segments_increasing].
      destruct (proj2 (laid_out_range factory bt_roots h) _ _ _ _ Hseg) as (_ & _ & _ & Hin).
      eapply Forall_impl; [exact Hin|]. simpl. lia.
    + split; [constructor|]. intros i j c d _ Hi. by rewrite lookup_nil in Hi.
  - intros element n lo hi bt subtree_elem Hn _ _ _ _ _ Hsub IH Hc p m Hp Hm.
    destruct (decide (p = lo)) as [->|Hne]; [|apply IH; [lia | done]].
    replace m with n by congruence. rewrite Hc.
    destruct (proj1 (laid_out_range factory bt_roots h) _ _ _ Hsub) as [Hlt _].
    split; [repeat constructor; lia|].
    intros [|i] [|j] c d Hij Hi Hj; try lia; by rewrite ?lookup_nil in Hj.
  - intros lo p n Hp. lia.
  - intros child rest lo mid hi starts Hchild IH1 Hrest IH2 p n Hp Hn.
    destruct (proj1 (laid_out_range factory bt_roots h) _ _ _ Hchild) as [Hlt _].
    destruct (proj2 (laid_out_range factory bt_roots h) _ _ _ _ Hrest) as (Hle & _).
    destruct (decide (p < mid)) as [Hlow|Hhigh].
    + destruct (IH1 p n) as [Hin Hinc]; [lia | done |]. split; [|done].
      eapply Forall_impl; [exact Hin|]. simpl. lia.
    + apply IH2; [lia | done].
Qed.

(** X12.  After a successful build from a store in which links are sound,
    every node allocated by the build comes before each of its children in
    the store (and so in the flat list, which holds the new handles in
    order of allocation), and its children are listed in the order in which
    they were built. *)
Theorem nodes_precede_their_children fuel doc_ factory w root_node w' :
  closed w ->
  instantiateTree fuel doc_ factory w = (Returned root_node, w') ->
  forall p n,
    length (heap w) <= p -> heap w' !! p = Some n ->
    Forall (fun c => p < c < length (heap w')) (children n)
    /\ increasing (children n).
Proof.
  intros Hcl H p n Hp Hn.
  destruct (instantiateTree_main_tree _ _ _ _ _ _ H)
    as (xml_root & bt_roots & bt & root_element & _ & _ & _ & _ & Hparse).
  assert (valid_parent None w) as Hvalid by (by intros q).
  pose proof (treeParsing_laid_out factory bt_roots _
                (node_builder_builds factory bt_roots fuel)
                (node_builder_shapes factory bt_roots fuel) root_element None w root_node w'
                Hcl Hvalid Hparse) as Hlay.
  apply (proj1 (laid_out_children_follow factory bt_roots (heap w')) _ _ _ Hlay); [|done].
  apply lookup_lt_Some in Hn. lia.
Qed.

Lemma nodes_precede_their_children_witness :
  Forall (fun c => 0 < c < 4) [1; 2] /\ increasing [1; 2].
Proof.
  apply (nodes_precede_their_children 1 (document root_with_subtree) sample_factory
           empty_world 0 world_with_subtree closed_empty_world eq_refl 0
           (mkTreeNode "Sequence" "root_sequence" ∅ ControlNode [1; 2])).
  - simpl. lia.
  - reflexivity.
Defined.

(** Without subtree references a laid-out range holds one node per element,
    in document order. *)
Lemma laid_out_document_order factory bt_roots h :
  (forall element lo hi,
     laid_out factory bt_roots h element lo hi ->
     Forall (fun d => expands_to factory d = None) (subelements element) ->
     hi = lo + length (subelements element)
     /\ forall i d, subelements element !! i = Some d ->
                    exists n, h !! (lo + i) = Some n /\ instance_of factory n d)
  /\ (forall child_elements lo hi starts,
        segments factory bt_roots h child_elements lo hi starts ->
        Forall (fun d => expands_to factory d = None) (flat_map subelements child_elements) ->
        hi = lo + length (flat_map subelements child_elements)
        /\ forall i d, flat_map subelements child_elements !! i = Some d ->
                       exists n, h !! (lo + i) = Some n /\ instance_of factory n d).
Proof.
  apply laid_out_segments_ind.
  - intros element n lo hi starts Hn Hinst _ _ _ IH _ Hnone.
    rewrite subelements_eq in Hnone |- *.
    apply Forall_cons in Hnone as [_ Hnone].
    destruct (IH Hnone) as [Hhi Hat]. split; [simpl; lia|].
    intros [|i] d Hd; simpl in Hd.
    + injection Hd as <-. exists n. by rewrite Nat.add_0_r.
    + destruct (Hat i d Hd) as (m & Hm & Hi). exists m.
      by replace (lo + S i) with (S lo + i) by lia.
  - intros element n lo hi bt subtree_elem _ (HID & Halias & _ & Hk) Hsub _ _ _ _ _ _ Hnone.
    rewrite subelements_eq in Hnone. apply Forall_cons in Hnone as [Hnone _].
    unfold expands_to in Hnone. by rewrite HID, Hk, Hsub, Halias in Hnone.
  - intros lo _. split; [simpl; lia|]. intros i d Hd. cbn [flat_map] in Hd.
    by rewrite lookup_nil in Hd.
  - intros child rest lo mid hi starts _ IH1 _ IH2 Hnone.
    cbn [flat_map] in Hnone |- *. apply Forall_app in Hnone as [Hnone1 Hnone2].
    destruct (IH1 Hnone1) as [Hmid Hat1]. destruct (IH2 Hnone2) as [Hhi Hat2].
    split; [rewrite length_app; lia|].
    intros i d Hd. apply lookup_app_Some in Hd as [Hd|[Hge Hd]]; [by apply Hat1|].
    destruct (Hat2 _ d Hd) as (m & Hm & Hi). exists m. split; [|done].
    rewrite <- Hm. f_equal. lia.
Qed.

(** X13.  When the factory makes a Subtree decorator for no element of
    the main tree, a successful build from a store in which links are sound
    allocates exactly one node per element below the main [BehaviorTree]
    element, in document order: the i-th node allocated is the one the
    factory makes for the i-th element. *)
Theorem reference_free_tree_in_document_order fuel doc_ factory w root_node w' xml_root bt :
  closed w ->
  RootElement doc_ = Some xml_root ->
  main_tree xml_root = Some bt ->
  Forall (fun d => expands_to factory d = None) (reachable_from bt) ->
  instantiateTree fuel doc_ factory w = (Returned root_node, w') ->
  length (heap w') = length (heap w) + length (reachable_from bt)
  /\ forall i d,
      reachable_from bt !! i = Some d ->
      exists n, heap w' !! (length (heap w) + i) = Some n /\ instance_of factory n d.
Proof.
  intros Hcl HR HM Hnone H.
  destruct (instantiateTree_main_tree _ _ _ _ _ _ H)
    as (xml_root' & bt_roots & bt' & root_element & HR' & _ & HM' & HE & Hparse).
  replace xml_root' with xml_root in * by congruence.
  replace bt' with bt in * by congruence.
  assert (valid_parent None w) as Hvalid by (by intros q).
  pose proof (treeParsing_laid_out factory bt_roots _
                (node_builder_builds factory bt_roots fuel)
                (node_builder_shapes factory bt_roots fuel) root_element None w root_node w'
                Hcl Hvalid Hparse) as Hlay.
  unfold reachable_from in *. rewrite HE in *. cbn [flat_map] in *.
  rewrite app_nil_r in *.
  by apply (proj1 (laid_out_document_order factory bt_roots (heap w')) _ _ _ Hlay).
Qed.

Lemma reference_free_tree_in_document_order_witness :
  length (heap (snd (instantiateTree 0 (document root_without_references) sample_factory
                       empty_world)))
  = 0 + length (reachable_from tree_without_references)
  /\ forall i d,
      reachable_from tree_without_references !! i = Some d ->
      exists n,
        heap (snd (instantiateTree 0 (document root_without_references) sample_factory
                     empty_world)) !! (0 + i) = Some n
        /\ instance_of sample_factory n d.
Proof.
  apply (reference_free_tree_in_document_order 0 (document root_without_references)
           sample_factory empty_world 0
           (snd (instantiateTree 0 (document root_without_references) sample_factory
                   empty_world))
           root_without_references tree_without_references closed_empty_world
           eq_refl eq_refl).
  - repeat constructor.
  - reflexivity.
Defined.

(** ** When a build returns *)

Lemma buildable_eq factory bt_roots fuel element :
  buildable factory bt_roots fuel element
  = match node_ID element, node_alias element with
    | Some ID, Some name =>
        match builders factory !! ID with
        | Some DecoratorSubtreeNode =>
            match ChildElements element, bt_roots !! name, fuel with
            | [], Some bt, S fuel' =>
                match FirstChildElement bt with
                | Some subtree_elem => buildable factory bt_roots fuel' subtree_elem
                | None => false
                end
            | _, _, _ => false
            end
        | Some DecoratorNode =>
            (length (ChildElements element) <=? 1)%nat
            && forallb (buildable factory bt_roots fuel) (ChildElements element)
        | Some _ => forallb (buildable factory bt_roots fuel) (ChildElements element)
        | None => false
        end
    | _, _ => false
    end.
Proof. by destruct fuel, element. Qed.

Lemma ready_valid parent w : ready parent w -> valid_parent parent w.
Proof.
  intros H p ->. destruct H as (n & Hn & _). by eapply lookup_lt_Some.
Qed.

Lemma attach_returns parent child_node w :
  ready parent w -> exists w', attach parent child_node w = (Returned tt, w').
Proof.
  destruct parent as [p|]; simpl; [|by eexists].
  intros (n & Hn & Hdec).
  unfold bind at 1, get_node. rewrite Hn.
  destruct (kind n) eqn:Hk; cbn [is_ControlNode is_DecoratorNode] in *;
    unfold bind, ret, addChild, setChild, bind, get_node, set_children;
    rewrite ?Hn, ?Hdec by done; rewrite ?Hn; by eexists.
Qed.

(** The loop over the child elements returns when each child can be built
    and the node can take them. *)
Lemma for_each_children_return factory bt_roots nb child_elements node :
  builds factory bt_roots nb ->
  Forall (fun child => forall parent w,
            closed w -> ready parent w ->
            exists r w', treeParsing nb child parent w = (Returned r, w'))
    child_elements ->
  forall n1 w1,
    closed w1 -> heap w1 !! node = Some n1 ->
    (is_DecoratorNode (kind n1) = true ->
     child_elements = [] \/ (children n1 = [] /\ length child_elements <= 1)) ->
    exists w2,
      for_each (fun child_element => treeParsing nb child_element (Some node) ;;; ret tt)
        child_elements w1 = (Returned tt, w2).
Proof.
  intros Hnb.
  induction 1 as [|child rest Hchild _ IH]; intros n1 w1 Hcl Hnode Hdec; [by eexists|].
  assert (ready (Some node) w1) as Hready.
  { exists n1. split; [done|]. intros Hd. by destruct (Hdec Hd) as [|[]]. }
  destruct (Hchild (Some node) w1 Hcl Hready) as (rc & wa & Hfirst).
  destruct (treeParsing_built factory bt_roots nb Hnb child (Some node) w1 rc wa
              Hcl (ready_valid _ _ Hready) Hfirst) as (ID & name & _ & _ & HB).
  destruct HB as [_ _ _ Hparent _ Hcla _ _].
  specialize (Hparent node n1 eq_refl Hnode).
  destruct (IH _ wa Hcla Hparent) as [w2 Hloop].
  { cbn [kind with_children]. intros Hd. left.
    destruct (Hdec Hd) as [|[_ Hlen]]; [done|].
    destruct rest; [done | simpl in Hlen; lia]. }
  exists w2. cbn [for_each].
  rewrite (bind_eval _ _ w1 tt wa); [exact Hloop|].
  by rewrite (bind_eval _ _ w1 rc wa).
Qed.

Lemma treeParsing_returns factory bt_roots nb fuel :
  builds factory bt_roots nb ->
  shapes factory bt_roots nb ->
  returns factory bt_roots fuel nb ->
  forall element,
    buildable factory bt_roots fuel element = true ->
    forall parent w,
      closed w -> ready parent w ->
      exists r w', treeParsing nb element parent w = (Returned r, w').
Proof.
  intros Hnb Hshapes Hreturns element.
  induction element as [ename attrs line child_elements IH] using XMLElement_nested_ind.
  set (element := mkXMLElement ename attrs line child_elements) in *.
  intros Hb parent w Hcl Hready.
  rewrite buildable_eq in Hb. rewrite treeParsing_eq.
  cbn [ChildElements element] in Hb.
  destruct (node_ID element) as [ID|] eqn:HID; [|discriminate].
  destruct (node_alias element) as [name|] eqn:Halias; [|discriminate].
  destruct (builders factory !! ID) as [k|] eqn:Hk; [|discriminate].
  assert (makeable factory bt_roots fuel ID name) as Hmake.
  { exists k. split; [done|]. intros ->.
    destruct child_elements; [|discriminate].
    destruct (bt_roots !! name) as [bt|] eqn:Hbt; [|discriminate].
    destruct fuel as [|fuel']; [discriminate|].
    destruct (FirstChildElement bt) as [subtree_elem|] eqn:Hfirst; [|discriminate].
    by exists bt, subtree_elem, fuel'. }
  destruct (Hreturns ID name (node_params element) parent w Hcl Hready Hmake)
    as (node & w1 & Hnode).
  pose proof (ready_valid _ _ Hready) as Hvalid.
  destruct (Hnb _ _ _ _ _ _ _ Hcl Hvalid Hnode) as [_ _ _ _ _ Hcl1 _ _].
  destruct (Hshapes _ _ _ _ _ _ _ Hcl Hvalid Hnode)
    as (n & Hn & _ & _ & _ & Hkind & Hplain & Hsub).
  assert (kind n = k) as Hkn by congruence.
  assert (exists w2,
            for_each (fun child_element =>
                        treeParsing nb child_element (Some node) ;;; ret tt)
              child_elements w1 = (Returned tt, w2)) as [w2 Hloop].
  { apply (for_each_children_return factory bt_roots nb child_elements node Hnb)
      with (n1 := n); [|done..|].
    - rewrite Forall_forall in IH |- *. intros child Hin. apply IH; [done|].
      destruct k; try (destruct child_elements; [by apply elem_of_nil in Hin|discriminate]);
        try apply andb_prop in Hb as [_ Hb];
        rewrite forallb_forall in Hb; by apply Hb, list_elem_of_In.
    - intros Hd. destruct k; try (by rewrite Hkn in Hd).
      + right. apply andb_prop in Hb as [Hlen _]. apply Nat.leb_le in Hlen.
        split; [|done]. apply Hplain. by rewrite Hkn.
      + left. by destruct child_elements. }
  exists node, w2.
  rewrite (bind_eval _ _ w node w1 Hnode). by rewrite (bind_eval _ _ w1 tt w2 Hloop).
Qed.

Lemma node_builder_returns factory bt_roots fuel :
  returns factory bt_roots fuel (node_builder factory bt_roots fuel).
Proof.
  induction fuel as [|fuel IH];
    intros ID name params parent w Hcl Hready (k & Hk & Hres);
    rewrite node_builder_eq;
    set (n0 := mkTreeNode ID name params k []);
    set (w1 := {| heap := heap w ++ [n0]; nodes := nodes w; cerr := cerr w |});
    set (w2 := {| heap := heap w1; nodes := nodes w1 ++ [length (heap w)]; cerr := cerr w1 |});
    (assert (instantiateTreeNode factory ID name params w = (Returned (length (heap w)), w1))
       as Halloc by (unfold instantiateTreeNode; by rewrite Hk));
    (assert (push_back (length (heap w)) w1 = (Returned tt, w2)) as Hpush by done);
    (assert (ready parent w2) as Hready2
       by (destruct parent as [p|]; [|done];
           destruct Hready as (n & Hn & Hd); exists n; split; [|done];
           cbn [heap w2 w1]; rewrite lookup_app_l; [done | by eapply lookup_lt_Some]));
    destruct (attach_returns parent (length (heap w)) w2 Hready2) as [w3 Hattach];
    destruct (allocate_attach _ _ _ _ _ _ _ _ _ _ Hcl (ready_valid _ _ Hready)
                Halloc Hpush Hattach)
      as (k' & Hk' & _ & Hlen & Hnew & _ & _ & _ & Hcl3);
    replace k' with k in * by congruence;
    rewrite (bind_eval _ _ w _ w1 Halloc), (bind_eval _ _ w1 tt w2 Hpush),
      (bind_eval _ _ w2 tt w3 Hattach);
    (rewrite (bind_eval _ _ w3 n0 w3) by (unfold get_node; by rewrite Hnew));
    cbn [kind n0];
    (destruct (is_DecoratorSubtreeNode k) eqn:Hsub;
     [ assert (k = DecoratorSubtreeNode) as -> by (by destruct k);
       destruct (Hres eq_refl) as (bt & subtree_elem & fuel' & Hbt & Hfirst & Hfuel & Hb);
       rewrite Hbt, Hfirst
     | by eexists _, _ ]).
  - discriminate.
  - injection Hfuel as <-.
    destruct (treeParsing_returns factory bt_roots _ fuel
                (node_builder_builds factory bt_roots fuel)
                (node_builder_shapes factory bt_roots fuel) IH subtree_elem Hb
                (Some (length (heap w))) w3 Hcl3) as (c & w4 & Hparse).
    { exists n0. by split. }
    rewrite (bind_eval _ _ w3 tt w4); [by eexists _, _|].
    by rewrite (bind_eval _ _ w3 c w4 Hparse).
Qed.

Lemma for_each_children_buildable factory bt_roots nb fuel child_elements node :
  builds factory bt_roots nb ->
  Forall (fun child => forall parent w r w',
            closed w -> valid_parent parent w ->
            treeParsing nb child parent w = (Returned r, w') ->
            buildable factory bt_roots fuel child = true)
    child_elements ->
  forall n1 w1 w2,
    closed w1 -> heap w1 !! node = Some n1 ->
    for_each (fun child_element => treeParsing nb child_element (Some node) ;;; ret tt)
      child_elements w1 = (Returned tt, w2) ->
    forallb (buildable factory bt_roots fuel) child_elements = true.
Proof.
  intros Hnb.
  induction 1 as [|child rest Hchild _ IH]; intros n1 w1 w2 Hcl Hnode Hloop; [done|].
  cbn [for_each] in Hloop.
  apply bind_Returned in Hloop as ([] & wa & Hfirst & Hloop).
  apply bind_Returned in Hfirst as (rc & wa' & Hfirst & Hret).
  injection Hret as ->.
  assert (valid_parent (Some node) w1) as Hvalid
    by (intros p [= <-]; by eapply lookup_lt_Some).
  destruct (treeParsing_built factory bt_roots nb Hnb child (Some node) w1 rc wa
              Hcl Hvalid Hfirst) as (ID & name & _ & _ & HB).
  destruct HB as [_ _ _ Hparent _ Hcla _ _].
  specialize (Hparent node n1 eq_refl Hnode).
  cbn [forallb]. apply andb_true_intro. split.
  - by apply (Hchild (Some node) w1 rc wa).
  - by apply (IH _ wa w2 Hcla Hparent).
Qed.

Lemma treeParsing_returned_buildable factory bt_roots nb fuel :
  builds factory bt_roots nb ->
  shapes factory bt_roots nb ->
  returns_only factory bt_roots fuel nb ->
  forall element parent w r w',
    closed w -> valid_parent parent w ->
    treeParsing nb element parent w = (Returned r, w') ->
    buildable factory bt_roots fuel element = true.
Proof.
  intros Hnb Hshapes Honly element.
  induction element as [ename attrs line child_elements IH] using XMLElement_nested_ind.
  set (element := mkXMLElement ename attrs line child_elements) in *.
  intros parent w r w' Hcl Hvalid H.
  rewrite treeParsing_eq in H. rewrite buildable_eq. cbn [ChildElements element].
  destruct (node_ID element) as [ID|] eqn:HID; [|discriminate].
  destruct (node_alias element) as [name|] eqn:Halias; [|discriminate].
  apply bind_Returned in H as (node & w1 & Hnode & H).
  apply bind_Returned in H as ([] & w2 & Hloop & Hret).
  destruct (Honly _ _ _ _ _ _ _ Hcl Hvalid Hnode) as (k & Hk & Hres).
  destruct (Hnb _ _ _ _ _ _ _ Hcl Hvalid Hnode) as [_ _ _ _ _ Hcl1 _ _].
  destruct (Hshapes _ _ _ _ _ _ _ Hcl Hvalid Hnode)
    as (n & Hn & _ & _ & _ & Hkind & _ & Hsub).
  assert (kind n = k) as Hkn by congruence.
  assert (Forall (lays_out factory bt_roots nb) child_elements) as Hlays
    by (apply Forall_forall; intros; by apply treeParsing_laid_out).
  destruct (for_each_children_laid_out _ _ _ _ node Hnb Hlays n w1 w2 Hcl1 Hn Hloop)
    as (_ & _ & _ & Hone).
  pose proof (for_each_children_buildable _ _ _ _ _ node Hnb IH n w1 w2 Hcl1 Hn Hloop)
    as Hall.
  rewrite Hk. destruct k; try done.
  - apply andb_true_intro. split; [|done]. apply Nat.leb_le.
    destruct child_elements as [|c cs]; [simpl; lia|].
    destruct Hone as [_ Hone]; [by rewrite Hkn | done | lia].
  - destruct (Hsub Hkn) as (_ & _ & _ & _ & Hc & _).
    destruct child_elements as [|c cs];
      [|destruct Hone as [Hone _]; [by rewrite Hkn | done | by rewrite Hc in Hone]].
    destruct (Hres eq_refl) as (bt & subtree_elem & fuel' & Hbt & Hfirst & -> & Hb).
    by rewrite Hbt, Hfirst.
Qed.

Lemma node_builder_returns_only factory bt_roots fuel :
  returns_only factory bt_roots fuel (node_builder factory bt_roots fuel).
Proof.
  induction fuel as [|fuel IH];
    intros ID name params parent w r w' Hcl Hvalid H;
    rewrite node_builder_eq in H;
    apply bind_Returned in H as (child_node & w1 & Halloc & H);
    apply bind_Returned in H as ([] & w2 & Hpush & H);
    apply bind_Returned in H as ([] & w3 & Hattach & H);
    apply bind_Returned in H as (n & w3' & Hn & H);
    apply get_node_Returned in Hn as [Hn ->];
    apply bind_Returned in H as ([] & w4 & Hexpand & Hret);
    destruct (allocate_attach _ _ _ _ _ _ _ _ _ _ Hcl Hvalid Halloc Hpush Hattach)
      as (k & Hk & Hchild & Hlen & Hnew & _ & _ & _ & Hcl3);
    rewrite Hnew in Hn; injection Hn as <-; cbn [kind] in Hexpand;
    exists k; (split; [done|]); intros ->; cbn [is_DecoratorSubtreeNode] in Hexpand;
    (destruct (bt_roots !! name) as [bt|] eqn:Hbt; [|discriminate]);
    (destruct (FirstChildElement bt) as [subtree_elem|] eqn:Hfirst; [|discriminate]).
  - discriminate.
  - apply bind_Returned in Hexpand as (c & w5 & Hparse & _).
    exists bt, subtree_elem, fuel. do 3 (split; [done|]).
    apply (treeParsing_returned_buildable factory bt_roots _ fuel
             (node_builder_builds factory bt_roots fuel)
             (node_builder_shapes factory bt_roots fuel) IH subtree_elem
             (Some child_node) w3 c w5 Hcl3); [|done].
    intros p [= <-]. lia.
Qed.

(** From a valid definition with a main tree, [instantiateTree] is
    [treeParsing] on the structural root of that tree. *)
Lemma instantiateTree_on_main_tree fuel doc_ factory xml_root bt_roots bt root_element :
  snd (verifyXML doc_ []) = [] ->
  RootElement doc_ = Some xml_root ->
  collect_bt_roots xml_root = Some bt_roots ->
  main_tree xml_root = Some bt ->
  ChildElements bt = [root_element] ->
  instantiateTree fuel doc_ factory
  = treeParsing (node_builder factory bt_roots fuel) root_element None.
Proof.
  intros Hv HR HC HM HE.
  pose proof (collect_bt_roots_lookup xml_root) as Hlookup. rewrite HC in Hlookup.
  destruct Hlookup as [Hall Hlookup].
  unfold main_tree in HM. unfold instantiateTree. rewrite Hv, HR, HC. cbn [length Nat.ltb Nat.leb].
  destruct (Attribute "main_tree_to_execute" xml_root) as [main_tree_ID|]; [|done].
  rewrite Hall in HM. rewrite Hlookup, HM. unfold FirstChildElement. by rewrite HE.
Qed.

(** X14.  From a store in which links are sound, [instantiateTree] returns
    a root exactly when the definition passes validation, the root names a
    main tree that exists, and nothing stops the builder below its structural
    root: every element has a registered ID; an element whose class is a
    Decorator has at most one child element; an element whose class is the
    Subtree decorator has no child element and names a tree of the document
    that is buildable in turn, within the allowed depth of nested subtree
    expansions. *)
Theorem instantiateTree_returns_exactly fuel doc_ factory w :
  closed w ->
  (exists root_node w', instantiateTree fuel doc_ factory w = (Returned root_node, w'))
  <-> (snd (verifyXML doc_ []) = []
       /\ exists xml_root bt_roots bt root_element,
           RootElement doc_ = Some xml_root
           /\ collect_bt_roots xml_root = Some bt_roots
           /\ main_tree xml_root = Some bt
           /\ ChildElements bt = [root_element]
           /\ buildable factory bt_roots fuel root_element = true).
Proof.
  intros Hcl. assert (valid_parent None w) as Hvalid by (by intros p). split.
  - intros (root_node & w' & H).
    destruct (instantiateTree_Returned _ _ _ _ _ _ H) as (_ & _ & _ & _ & _ & Hv & _).
    split; [done|].
    destruct (instantiateTree_main_tree _ _ _ _ _ _ H)
      as (xml_root & bt_roots & bt & root_element & HR & HC & HM & HE & Hparse).
    exists xml_root, bt_roots, bt, root_element. do 4 (split; [done|]).
    by apply (treeParsing_returned_buildable factory bt_roots _ fuel
                (node_builder_builds factory bt_roots fuel)
                (node_builder_shapes factory bt_roots fuel)
                (node_builder_returns_only factory bt_roots fuel)
                root_element None w root_node w').
  - intros (Hv & xml_root & bt_roots & bt & root_element & HR & HC & HM & HE & Hb).
    rewrite (instantiateTree_on_main_tree fuel doc_ factory _ _ _ _ Hv HR HC HM HE).
    by apply (treeParsing_returns factory bt_roots _ fuel
                (node_builder_builds factory bt_roots fuel)
                (node_builder_shapes factory bt_roots fuel)
                (node_builder_returns factory bt_roots fuel)).
Qed.

Lemma instantiateTree_returns_exactly_witness :
  exists root_node w',
    instantiateTree 1 (document root_with_subtree) sample_factory world_after_unknown_action
    = (Returned root_node, w').
Proof.
  apply (instantiateTree_returns_exactly 1 (document root_with_subtree) sample_factory
           world_after_unknown_action).
  - split; simpl; [repeat constructor | ].
    apply NoDup_cons. split; [apply not_elem_of_nil | apply NoDup_nil_2].
  - split; [reflexivity|].
    eexists root_with_subtree, _, _, _.
    split; [reflexivity|]. split; [reflexivity|]. split; [reflexivity|].
    split; reflexivity.
Defined.

(** ** The exceptions of a build *)

Section ThrowsOnly.
Variable Q : Exception -> World -> Prop.

Lemma throws_only_bind {A B} (c : Build A) (k : A -> Build B) :
  throws_only Q c -> (forall a, throws_only Q (k a)) -> throws_only Q (bind c k).
Proof.
  intros Hc Hk w e w' H.
  destruct (bind_inv _ _ _ _ _ H) as [(a & w1 & H1 & H2)|(out1 & H1 & Hsame)].
  - exact (Hk _ _ _ _ H2).
  - destruct out1; try done. simpl in Hsame. subst. exact (Hc _ _ _ H1).
Qed.

Lemma throws_only_ret {A} (a : A) : throws_only Q (ret a).
Proof. by intros w e w'. Qed.

Lemma throws_only_undefined {A} : throws_only Q (@undefined A).
Proof. by intros w e w'. Qed.

Lemma throws_only_out_of_fuel {A} : throws_only Q (@out_of_fuel A).
Proof. by intros w e w'. Qed.

Lemma throws_only_get_node p : throws_only Q (get_node p).
Proof. intros w e w'. unfold get_node. by destruct (heap w !! p). Qed.

Lemma throws_only_set_children p cs : throws_only Q (set_children p cs).
Proof. intros w e w'. unfold set_children. by destruct (heap w !! p). Qed.

Lemma throws_only_for_each {A} (body : A -> Build unit) (l : list A) :
  Forall (fun a => throws_only Q (body a)) l -> throws_only Q (for_each body l).
Proof.
  induction 1 as [|a l Ha _ IH]; simpl.
  - apply throws_only_ret.
  - apply throws_only_bind; [exact Ha | intros _; exact IH].
Qed.

(** [treeParsing] throws only through the builder, which it calls with
    the IDs of the element and of the elements below it. *)
Lemma throws_only_treeParsing (node_builder : NodeBuilder) element :
  (forall d ID name params parent,
     d ∈ subelements element -> node_ID d = Some ID ->
     throws_only Q (node_builder ID name params parent)) ->
  forall parent, throws_only Q (treeParsing node_builder element parent).
Proof.
  induction element as [ename attrs line child_elements IH] using XMLElement_nested_ind.
  intros Hnb parent. simpl.
  destruct (node_ID _) as [ID|] eqn:HID; [|apply throws_only_undefined].
  destruct (node_alias _); [|apply throws_only_undefined].
  apply throws_only_bind; [by eapply Hnb; [apply subelements_self|]|]. intros node.
  apply throws_only_bind; [|intros; apply throws_only_ret].
  apply throws_only_for_each. rewrite Forall_forall in IH |- *.
  intros child Hchild.
  apply throws_only_bind; [|intros; apply throws_only_ret].
  apply IH; [done|]. intros d ID' name' params' parent' Hd.
  apply Hnb. by apply (subelements_child _ child).
Qed.
End ThrowsOnly.

Lemma attach_throws_only factory xml_root parent child_node :
  throws_only (builder_exception factory xml_root) (attach parent child_node).
Proof.
  intros w e w' H. destruct parent as [p|]; simpl in H; [|done].
  unfold bind at 1, get_node in H.
  destruct (heap w !! p) as [n|] eqn:Hn; [|done].
  destruct (kind n) eqn:Hk; cbn [is_ControlNode is_DecoratorNode] in H;
    unfold bind, ret, addChild, setChild, get_node, set_children, bind, throw in H;
    rewrite ?Hn in H; try done;
    (destruct (children n) as [|c cs] eqn:Hcs; [by rewrite Hn in H|]);
    injection H as <- <-; exists n; rewrite Hk, Hcs; by repeat split.
Qed.

Lemma node_builder_throws_only factory xml_root bt_roots fuel :
  (forall name bt, bt_roots !! name = Some bt -> bt ∈ ChildElements xml_root) ->
  forall ID name params parent,
    (exists d, d ∈ subelements xml_root /\ node_ID d = Some ID) ->
    throws_only (builder_exception factory xml_root)
      (node_builder factory bt_roots fuel ID name params parent).
Proof.
  intros Hroots.
  induction fuel as [|fuel IH]; intros ID name params parent HID; simpl;
    (apply throws_only_bind;
     [ intros w e w'; unfold instantiateTreeNode;
       destruct (builders factory !! ID) eqn:Hk; [done|];
       intros [= <- <-]; by split
     | intros child_node ];
     apply throws_only_bind; [by intros w e w'|intros _];
     apply throws_only_bind; [apply attach_throws_only|intros _];
     apply throws_only_bind; [apply throws_only_get_node|intros n];
     apply throws_only_bind; [|intros; apply throws_only_ret];
     destruct (is_DecoratorSubtreeNode _); [|apply throws_only_ret];
     destruct (bt_roots !! name) as [bt|] eqn:Hbt; [|apply throws_only_undefined];
     destruct (FirstChildElement bt) as [subtree_elem|] eqn:Hfirst;
       [|apply throws_only_undefined]).
  - apply throws_only_out_of_fuel.
  - apply throws_only_bind; [|intros; apply throws_only_ret].
    apply throws_only_treeParsing. intros d ID' name' params' parent' Hd HID'.
    apply IH. exists d. split; [|done].
    apply (subelements_child _ bt); [by eapply Hroots|].
    apply (subelements_child _ subtree_elem); [|done].
    unfold FirstChildElement in Hfirst. by apply head_Some_elem_of.
Qed.

(** X15.  Take a document in which, if it passes validation, the root has
    the attribute [main_tree_to_execute] and every [BehaviorTree] child of
    the root has an [ID]: lines 213 and 220 then build no [std::string] from
    a null pointer, which is undefined and which an implementation of the
    library may answer with an exception of its own.  An exception that
    leaves [instantiateTree] on such a document is one of three.  When
    validation reported something, it is the runtime error "verifyXML
    failed".  Otherwise the main tree exists and the exception comes from the
    builder: it is the factory's error for an ID that is not registered, and
    the ID is the registration ID of an element of the document; or it is
    the refusal of a node to take a second child, and in the store left
    behind that node is a Decorator that has a child.

    In the model the use of a null pointer is an outcome of its own,
    [Undefined], which is why the proof does not need the hypothesis; it is
    stated because without it the behaviour of the program is not defined.
    Running out of memory is not modelled. *)
Theorem build_exceptions fuel doc_ factory w e w' :
  (forall xml_root,
     snd (verifyXML doc_ []) = [] -> RootElement doc_ = Some xml_root ->
     names_present xml_root = true) ->
  instantiateTree fuel doc_ factory w = (Thrown e, w') ->
  (snd (verifyXML doc_ []) <> [] /\ e = runtime_error "verifyXML failed")
  \/ (snd (verifyXML doc_ []) = []
      /\ exists xml_root main_tree_ID bt_roots bt,
          RootElement doc_ = Some xml_root
          /\ Attribute "main_tree_to_execute" xml_root = Some main_tree_ID
          /\ collect_bt_roots xml_root = Some bt_roots
          /\ bt_roots !! main_tree_ID = Some bt
          /\ builder_exception factory xml_root e w').
Proof.
  intros _ H.
  destruct (decide (snd (verifyXML doc_ []) = [])) as [Hv|Hv].
  - right. split; [done|].
    unfold instantiateTree in H. rewrite Hv in H. cbn [length Nat.ltb Nat.leb] in H.
    destruct (RootElement doc_) as [xml_root|]; [|done].
    destruct (Attribute _ xml_root) as [main_tree_ID|] eqn:HM; [|done].
    destruct (collect_bt_roots xml_root) as [bt_roots|] eqn:HC; [|done].
    destruct (bt_roots !! _) as [bt|] eqn:Hbt; [|done].
    exists xml_root, main_tree_ID, bt_roots, bt. do 4 (split; [done|]).
    destruct (FirstChildElement bt) as [root_element|] eqn:Hfirst; [|done].
    assert (forall name bt', bt_roots !! name = Some bt' -> bt' ∈ ChildElements xml_root)
      as Hroots.
    { intros name bt' Hbt'.
      destruct (collect_bt_roots_entry _ _ _ _ HC Hbt') as [Hin _].
      by eapply elements_named_elem. }
    revert H. apply throws_only_treeParsing.
    intros d ID name params parent Hd HID.
    apply node_builder_throws_only; [done|]. exists d. split; [|done].
    apply (subelements_child _ bt); [by eapply Hroots|].
    apply (subelements_child _ root_element); [|done].
    unfold FirstChildElement in Hfirst. by apply head_Some_elem_of.
  - left. split; [done|].
    rewrite (instantiateTree_invalid _ _ _ _ Hv) in H. by injection H as <- _.
Qed.

Lemma build_exceptions_witness :
  (snd (verifyXML (document root_unknown_action) []) <> []
   /\ unknown_ID "Juggle" = runtime_error "verifyXML failed")
  \/ (snd (verifyXML (document root_unknown_action) []) = []
      /\ exists xml_root main_tree_ID bt_roots bt,
          RootElement (document root_unknown_action) = Some xml_root
          /\ Attribute "main_tree_to_execute" xml_root = Some main_tree_ID
          /\ collect_bt_roots xml_root = Some bt_roots
          /\ bt_roots !! main_tree_ID = Some bt
          /\ builder_exception sample_factory xml_root (unknown_ID "Juggle")
               world_after_unknown_action).
Proof.
  apply (build_exceptions 0 (document root_unknown_action) sample_factory empty_world
           (unknown_ID "Juggle") world_after_unknown_action).
  - by intros xml_root _ [= <-].
  - reflexivity.
Defined.

(** ** The null pointers of a build *)

Lemma bind_Undefined {A B} (c : Build A) (k : A -> Build B) w w' :
  bind c k w = (Undefined, w') ->
  (exists a w1, c w = (Returned a, w1) /\ k a w1 = (Undefined, w'))
  \/ c w = (Undefined, w').
Proof.
  intros H. destruct (bind_inv _ _ _ _ _ H) as [H1|(out1 & H1 & Hsame)]; [by left|].
  right. by destruct out1.
Qed.

(** An element that obeys the grammar has a registration ID and a name. *)
Lemma grammar_rule_names element :
  grammar_rule_holds element = true ->
  exists ID name, node_ID element = Some ID /\ node_alias element = Some name.
Proof.
  assert (forall ename : string,
            Name element = ename ->
            (strEqual ename "Action" || strEqual ename "Decorator"
             || strEqual ename "Condition" || strEqual ename "SubTree" = true ->
             has_attribute "ID" element = true) ->
            exists ID name, node_ID element = Some ID /\ node_alias element = Some name)
    as Hnames.
  { intros ename Hname HID. unfold node_alias, node_ID. rewrite Hname.
    unfold has_attribute in HID.
    destruct (strEqual ename "Action"), (strEqual ename "Decorator"),
      (strEqual ename "Condition"), (strEqual ename "SubTree"); cbn [orb] in *;
      try specialize (HID eq_refl);
      destruct (Attribute "ID" element) as [ID|]; try (by discriminate HID);
      destruct (Attribute "name" element) as [alias|]; eauto. }
  unfold grammar_rule_holds. intros H.
  apply (Hnames (Name element) eq_refl). intros Hdeclared.
  destruct (strEqual (Name element) "Decorator");
    [by apply andb_prop in H as [_ H]|].
  destruct (strEqual (Name element) "Action"), (strEqual (Name element) "Condition");
    cbn [orb] in *; try (by apply andb_prop in H as [_ H]).
  destruct (_ || _) eqn:Hcontrol.
  - destruct (strEqual (Name element) "SubTree") eqn:HS; [|done].
    apply String.eqb_eq in HS. by rewrite HS in Hcontrol.
  - destruct (strEqual (Name element) "SubTree"); [|done].
    by apply andb_prop in H as [_ H].
Qed.

Lemma attach_not_undefined parent child_node w w' :
  valid_parent parent w -> attach parent child_node w <> (Undefined, w').
Proof.
  intros Hvalid H. destruct parent as [p|]; simpl in H; [|done].
  destruct (lookup_lt_is_Some_2 (heap w) p (Hvalid p eq_refl)) as [n Hn].
  unfold bind at 1, get_node in H. rewrite Hn in H.
  destruct (kind n) eqn:Hk; cbn [is_ControlNode is_DecoratorNode] in H;
    unfold bind, ret, addChild, setChild, get_node, set_children, bind, throw in H;
    rewrite ?Hn in H; try done;
    destruct (children n); by rewrite ?Hn in H.
Qed.

Lemma dangles_weaken bt_roots w w1 w' :
  length (heap w) <= length (heap w1) -> dangles bt_roots w1 w' -> dangles bt_roots w w'.
Proof.
  intros Hle (p & n & Hn & Hp & Hlast & Hk & Hbt).
  exists p, n. repeat split; try done. lia.
Qed.

Lemma for_each_children_undefined factory bt_roots nb child_elements node :
  builds factory bt_roots nb ->
  Forall (fun child => forall parent w w',
            closed w -> valid_parent parent w ->
            treeParsing nb child parent w = (Undefined, w') ->
            dangles bt_roots w w')
    child_elements ->
  forall n1 w1 w',
    closed w1 -> heap w1 !! node = Some n1 ->
    for_each (fun child_element => treeParsing nb child_element (Some node) ;;; ret tt)
      child_elements w1 = (Undefined, w') ->
    dangles bt_roots w1 w'.
Proof.
  intros Hnb.
  induction 1 as [|child rest Hchild _ IH]; intros n1 w1 w' Hcl Hnode Hloop; [done|].
  cbn [for_each] in Hloop.
  assert (valid_parent (Some node) w1) as Hvalid
    by (intros p [= <-]; by eapply lookup_lt_Some).
  apply bind_Undefined in Hloop as [([] & wa & Hfirst & Hloop)|Hfirst].
  - apply bind_Returned in Hfirst as (rc & wa' & Hfirst & Hret).
    injection Hret as ->.
    destruct (treeParsing_built factory bt_roots nb Hnb child (Some node) w1 rc wa
                Hcl Hvalid Hfirst) as (ID & name & _ & _ & HB).
    destruct HB as [_ Hfresh _ Hparent _ Hcla _ _].
    specialize (Hparent node n1 eq_refl Hnode).
    apply (dangles_weaken _ _ wa); [lia|]. by apply (IH _ wa w' Hcla Hparent).
  - apply bind_Undefined in Hfirst as [(rc & wa & _ & Hret)|Hfirst]; [done|].
    by apply (Hchild (Some node)).
Qed.

Lemma treeParsing_undefined factory bt_roots nb :
  builds factory bt_roots nb ->
  undefined_only bt_roots nb ->
  forall element,
    (forall d, d ∈ subelements element -> grammar_rule_holds d = true) ->
    forall parent w w',
      closed w -> valid_parent parent w ->
      treeParsing nb element parent w = (Undefined, w') ->
      dangles bt_roots w w'.
Proof.
  intros Hnb Hundef element.
  induction element as [ename attrs line child_elements IH] using XMLElement_nested_ind.
  set (element := mkXMLElement ename attrs line child_elements) in *.
  intros Hgrammar parent w w' Hcl Hvalid H.
  rewrite treeParsing_eq in H. cbn [ChildElements element] in H.
  destruct (grammar_rule_names element (Hgrammar _ (subelements_self _)))
    as (ID & name & HID & Halias).
  rewrite HID, Halias in H.
  apply bind_Undefined in H as [(node & w1 & Hnode & H)|Hnode];
    [|by apply (Hundef _ _ _ _ _ _ Hcl Hvalid Hnode)].
  apply bind_Undefined in H as [([] & w2 & _ & Hret)|Hloop]; [done|].
  destruct (Hnb _ _ _ _ _ _ _ Hcl Hvalid Hnode)
    as [_ Hfresh _ _ _ Hcl1 _ (n1 & Hn1 & _)].
  apply (dangles_weaken _ _ w1); [lia|].
  apply (for_each_children_undefined factory bt_roots nb child_elements node Hnb)
    with (n1 := n1); [|done..].
  rewrite Forall_forall in IH |- *. intros child Hin. apply IH; [done|].
  intros d Hd. apply Hgrammar. by apply (subelements_child element child).
Qed.

Lemma node_builder_undefined factory bt_roots fuel :
  checked_trees bt_roots ->
  undefined_only bt_roots (node_builder factory bt_roots fuel).
Proof.
  intros Hchecked.
  induction fuel as [|fuel IH];
    intros ID name params parent w w' Hcl Hvalid H;
    rewrite node_builder_eq in H;
    (apply bind_Undefined in H as [(child_node & w1 & Halloc & H)|Halloc];
     [|unfold instantiateTreeNode in Halloc; by destruct (builders factory !! ID)]);
    (apply bind_Undefined in H as [([] & w2 & Hpush & H)|Hpush]; [|done]);
    (assert (valid_parent parent w2) as Hvalid2
       by (unfold instantiateTreeNode in Halloc;
           destruct (builders factory !! ID); [|done];
           injection Halloc as <- <-; injection Hpush as <-;
           intros p Hp; cbn [heap]; rewrite length_app; specialize (Hvalid p Hp); lia));
    (apply bind_Undefined in H as [([] & w3 & Hattach & H)|Hattach];
     [|by apply attach_not_undefined in Hattach]);
    destruct (allocate_attach _ _ _ _ _ _ _ _ _ _ Hcl Hvalid Halloc Hpush Hattach)
      as (k & Hk & Hchild & Hlen & Hnew & _ & _ & _ & Hcl3);
    (apply bind_Undefined in H as [(n & w3' & Hn & H)|Hn];
     [|unfold get_node in Hn; by rewrite Hnew in Hn]);
    apply get_node_Returned in Hn as [Hn ->];
    rewrite Hnew in Hn; injection Hn as <-; cbn [kind] in H;
    (apply bind_Undefined in H as [([] & w4 & _ & Hret)|Hexpand]; [done|]);
    (destruct (is_DecoratorSubtreeNode k) eqn:Hsub; [|done]);
    (assert (k = DecoratorSubtreeNode) as -> by (by destruct k));
    (destruct (bt_roots !! name) as [bt|] eqn:Hbt;
     [ destruct (Hchecked _ _ Hbt) as (subtree_elem & Hc & Hgrammar);
       unfold FirstChildElement in Hexpand; rewrite Hc in Hexpand; cbn [head] in Hexpand
     | injection Hexpand as <-; eexists child_node, _;
       split; [exact Hnew|]; cbn [kind instanceName];
       repeat split; [lia | lia | done] ]).
  - done.
  - apply bind_Undefined in Hexpand as [(c & w5 & _ & Hret)|Hparse]; [done|].
    apply (dangles_weaken _ _ w3); [lia|].
    apply (treeParsing_undefined factory bt_roots _
             (node_builder_builds factory bt_roots fuel) IH subtree_elem Hgrammar
             (Some child_node) w3 w' Hcl3); [|done].
    intros p [= <-]. lia.
Qed.

Lemma collected_trees_checked xml_root bt_roots :
  document_messages xml_root = [] ->
  collect_bt_roots xml_root = Some bt_roots ->
  checked_trees bt_roots.
Proof.
  intros Hnil HC name bt Hbt.
  destruct (collect_bt_roots_entry _ _ _ _ HC Hbt) as [Hin _].
  unfold document_messages in Hnil. apply app_eq_nil in Hnil as [_ Hnil].
  rewrite flat_map_nil_iff in Hnil. specialize (Hnil bt Hin).
  apply bt_root_messages_nil_iff in Hnil. unfold tree_ok in Hnil.
  apply andb_prop in Hnil as [Hlen Hall]. apply Nat.eqb_eq in Hlen.
  destruct (single_child _ Hlen) as [subtree_elem Hc].
  exists subtree_elem. split; [done|].
  rewrite forallb_elem_of in Hall. intros d Hd. apply Hall.
  unfold reachable_from. rewrite Hc. cbn [flat_map]. by rewrite app_nil_r.
Qed.

(** X16.  For a definition that passes validation, built from a store in
    which links are sound, [instantiateTree] runs into a null pointer in two
    cases only.  Either there is no main tree, and nothing has been
    allocated; or the last node allocated is a Subtree decorator whose name
    is not the ID of any tree of the document. *)
Theorem null_pointer_causes fuel doc_ factory w w' xml_root :
  closed w ->
  snd (verifyXML doc_ []) = [] ->
  RootElement doc_ = Some xml_root ->
  instantiateTree fuel doc_ factory w = (Undefined, w') ->
  (main_tree xml_root = None /\ w' = w)
  \/ (exists bt_roots,
        collect_bt_roots xml_root = Some bt_roots /\ dangles bt_roots w w').
Proof.
  intros Hcl Hv HR H.
  destruct (verifyXML_no_messages _ _ Hv) as (xml_root' & _ & HR' & _ & Hnil).
  replace xml_root' with xml_root in * by congruence.
  pose proof (collect_bt_roots_lookup xml_root) as Hlookup.
  unfold instantiateTree in H. rewrite Hv, HR in H. cbn [length Nat.ltb Nat.leb] in H.
  unfold main_tree.
  destruct (Attribute "main_tree_to_execute" xml_root) as [main_tree_ID|];
    [|left; by injection H as <-].
  destruct (collect_bt_roots xml_root) as [bt_roots|] eqn:HC;
    [|rewrite Hlookup; left; by injection H as <-].
  destruct Hlookup as [Hall Hlookup]. rewrite Hall. rewrite Hlookup in H.
  destruct (last (trees_named main_tree_ID (bt_roots_of xml_root))) as [bt|] eqn:Hlast;
    [|left; by injection H as <-].
  right. exists bt_roots. split; [done|].
  destruct (trees_named_elem _ _ _ Hlast) as [Hin _].
  destruct (valid_bt_root_single xml_root bt Hnil Hin) as [root_element Hc].
  pose proof (collected_trees_checked _ _ Hnil HC) as Hchecked.
  destruct (Hchecked main_tree_ID bt) as (root_element' & Hc' & Hgrammar);
    [by rewrite Hlookup|].
  replace root_element' with root_element in * by congruence.
  unfold FirstChildElement in H. rewrite Hc in H. cbn [head] in H.
  apply (treeParsing_undefined factory bt_roots _
           (node_builder_builds factory bt_roots fuel)
           (node_builder_undefined factory bt_roots fuel Hchecked)
           root_element Hgrammar None w w' Hcl); [|done].
  by intros p.
Qed.

Lemma null_pointer_causes_witness :
  (main_tree root_dangling_reference = None
   /\ {| heap := [ mkTreeNode "Sequence" "Sequence" ∅ ControlNode [1; 2];
                   mkTreeNode "SayHello" "SayHello" ∅ ActionNode [];
                   mkTreeNode "SubTree" "Elsewhere" ∅ DecoratorSubtreeNode [] ];
         nodes := [0; 1; 2]; cerr := [] |} = empty_world)
  \/ (exists bt_roots,
        collect_bt_roots root_dangling_reference = Some bt_roots
        /\ dangles bt_roots empty_world
             {| heap := [ mkTreeNode "Sequence" "Sequence" ∅ ControlNode [1; 2];
                          mkTreeNode "SayHello" "SayHello" ∅ ActionNode [];
                          mkTreeNode "SubTree" "Elsewhere" ∅ DecoratorSubtreeNode [] ];
                nodes := [0; 1; 2]; cerr := [] |}).
Proof.
  apply (null_pointer_causes 2 (document root_dangling_reference) sample_factory
           empty_world _ root_dangling_reference closed_empty_world);
    reflexivity.
Defined.

(** * The validator and the builder together *)

Lemma forallb_children_buildable factory bt_roots n element (P : XMLElement -> Prop) :
  (forall d, d ∈ subelements element -> P d) ->
  Forall (fun child => (forall d, d ∈ subelements child -> P d) ->
                       buildable factory bt_roots n child = true)
    (ChildElements element) ->
  forallb (buildable factory bt_roots n) (ChildElements element) = true.
Proof.
  intros HP IH. apply forallb_elem_of. rewrite Forall_forall in IH.
  intros child Hin. apply IH; [done|].
  intros d Hd. apply HP. by apply (subelements_child element child).
Qed.

(** One level of subtree expansion: with the grammar obeyed and a factory
    that suits the elements, an element is buildable if the trees it
    refers to are, with one expansion less. *)
Lemma buildable_step factory bt_roots rank n :
  checked_trees bt_roots ->
  (forall n' subtree_elem,
     n = S n' ->
     (forall d, d ∈ subelements subtree_elem ->
                grammar_rule_holds d = true /\ suits factory bt_roots d = true
                /\ forall name, expands_to factory d = Some name -> rank name < n') ->
     buildable factory bt_roots n' subtree_elem = true) ->
  (forall name bt subtree_elem d,
     bt_roots !! name = Some bt -> FirstChildElement bt = Some subtree_elem ->
     d ∈ subelements subtree_elem ->
     suits factory bt_roots d = true
     /\ forall name', expands_to factory d = Some name' -> rank name' < rank name) ->
  forall element,
    (forall d, d ∈ subelements element ->
               grammar_rule_holds d = true /\ suits factory bt_roots d = true
               /\ forall name, expands_to factory d = Some name -> rank name < n) ->
    buildable factory bt_roots n element = true.
Proof.
  intros Hchecked Hprev Htrees element.
  induction element as [ename attrs line child_elements IH] using XMLElement_nested_ind.
  set (element := mkXMLElement ename attrs line child_elements) in *.
  intros Hgood.
  destruct (Hgood element (subelements_self _)) as (Hgrammar & Hsuits & Hrank).
  pose proof (forallb_children_buildable factory bt_roots n element _ Hgood IH) as Hall.
  rewrite buildable_eq.
  destruct (grammar_rule_names element Hgrammar) as (ID & name & HID & Halias).
  rewrite HID, Halias. unfold suits in Hsuits. rewrite HID in Hsuits.
  cbn [ChildElements element] in Hall |- *.
  destruct (builders factory !! ID) as [k|] eqn:Hk; [|done].
  destruct k; try done.
  - apply String.eqb_eq in Hsuits.
    unfold grammar_rule_holds in Hgrammar. rewrite Hsuits in Hgrammar.
    cbn in Hgrammar. apply andb_prop in Hgrammar as [Hlen _].
    apply Nat.eqb_eq in Hlen. rewrite Hall, andb_true_r. apply Nat.leb_le. lia.
  - apply andb_prop in Hsuits as [Hname Hresolves]. apply String.eqb_eq in Hname.
    unfold grammar_rule_holds in Hgrammar. rewrite Hname in Hgrammar.
    cbn in Hgrammar. apply andb_prop in Hgrammar as [Hlen _].
    apply Nat.eqb_eq in Hlen.
    destruct child_elements as [|c cs]; [|done].
    assert (expands_to factory element = Some name) as Hexp
      by (unfold expands_to; by rewrite HID, Hk).
    unfold node_alias in Halias. rewrite Hname in Halias.
    change (strEqual "SubTree" "SubTree") with true in Halias. cbn iota in Halias.
    rewrite Halias in Hresolves. apply bool_decide_eq_true in Hresolves as [bt Hbt].
    destruct (Hchecked _ _ Hbt) as (subtree_elem & Hc & Hgrammar').
    assert (FirstChildElement bt = Some subtree_elem) as Hfirst
      by (unfold FirstChildElement; by rewrite Hc).
    rewrite Hbt, Hfirst.
    specialize (Hrank name Hexp). destruct n as [|n']; [lia|].
    apply (Hprev n' subtree_elem eq_refl). intros d Hd.
    destruct (Htrees name bt subtree_elem d Hbt Hfirst Hd) as [Hs Hr].
    split; [by apply Hgrammar'|]. split; [done|].
    intros name' Hname'. specialize (Hr name' Hname'). lia.
Qed.

Lemma buildable_of_suits factory bt_roots rank :
  checked_trees bt_roots ->
  (forall name bt subtree_elem d,
     bt_roots !! name = Some bt -> FirstChildElement bt = Some subtree_elem ->
     d ∈ subelements subtree_elem ->
     suits factory bt_roots d = true
     /\ forall name', expands_to factory d = Some name' -> rank name' < rank name) ->
  forall n element,
    (forall d, d ∈ subelements element ->
               grammar_rule_holds d = true /\ suits factory bt_roots d = true
               /\ forall name, expands_to factory d = Some name -> rank name < n) ->
    buildable factory bt_roots n element = true.
Proof.
  intros Hchecked Htrees n.
  induction n as [|n IH]; apply (buildable_step factory bt_roots rank); try done.
  intros n' subtree_elem [= <-]. apply IH.
Qed.

(** X17.  What validation is enough for.  Take a definition that passes
    validation and whose root names a main tree of the document.  If the
    factory suits every element below the [BehaviorTree] elements (the ID is
    registered; a Decorator is made only for a [Decorator] element, a Subtree
    decorator only for a [SubTree] element that names a tree of the
    document) and the subtree references are acyclic, then [instantiateTree]
    returns a root from any store in which links are sound: the rules that
    [verifyXML] checks keep the builder from giving a Decorator a second
    child and from running into a null pointer. *)
Theorem validated_definition_builds
    fuel doc_ factory w xml_root main_tree_ID bt_roots rank :
  closed w ->
  snd (verifyXML doc_ []) = [] ->
  RootElement doc_ = Some xml_root ->
  Attribute "main_tree_to_execute" xml_root = Some main_tree_ID ->
  collect_bt_roots xml_root = Some bt_roots ->
  is_Some (bt_roots !! main_tree_ID) ->
  (forall bt d, bt ∈ bt_roots_of xml_root -> d ∈ reachable_from bt ->
                suits factory bt_roots d = true) ->
  ranked factory bt_roots rank ->
  rank main_tree_ID <= fuel ->
  exists root_node w', instantiateTree fuel doc_ factory w = (Returned root_node, w').
Proof.
  intros Hcl Hv HR HM HC [bt Hbt] Hsuits Hranked Hfuel.
  destruct (verifyXML_no_messages _ _ Hv) as (xml_root' & _ & HR' & _ & Hnil).
  replace xml_root' with xml_root in * by congruence.
  pose proof (collected_trees_checked _ _ Hnil HC) as Hchecked.
  destruct (Hchecked _ _ Hbt) as (root_element & Hc & Hgrammar).
  assert (FirstChildElement bt = Some root_element) as Hfirst
    by (unfold FirstChildElement; by rewrite Hc).
  assert (forall name bt' subtree_elem d,
            bt_roots !! name = Some bt' -> FirstChildElement bt' = Some subtree_elem ->
            d ∈ subelements subtree_elem ->
            suits factory bt_roots d = true
            /\ forall name', expands_to factory d = Some name' -> rank name' < rank name)
    as Htrees.
  { intros name bt' subtree_elem d Hbt' Hfirst' Hd.
    destruct (collect_bt_roots_entry _ _ _ _ HC Hbt') as [Hin _]. split.
    - apply (Hsuits bt' d Hin). unfold reachable_from. apply elem_of_flat_map.
      exists subtree_elem. split; [|done].
      unfold FirstChildElement in Hfirst'. by apply head_Some_elem_of.
    - intros name' Hname'. apply (Hranked name bt' subtree_elem name' Hbt' Hfirst').
      apply list_elem_of_omap. by exists d. }
  unfold instantiateTree. rewrite Hv, HR, HM, HC, Hbt, Hfirst. cbn [length Nat.ltb Nat.leb].
  apply (treeParsing_returns factory bt_roots _ fuel
           (node_builder_builds factory bt_roots fuel)
           (node_builder_shapes factory bt_roots fuel)
           (node_builder_returns factory bt_roots fuel)); [|done..].
  apply (buildable_of_suits factory bt_roots rank Hchecked Htrees). intros d Hd.
  destruct (Htrees main_tree_ID bt root_element d Hbt Hfirst Hd) as [Hs Hr].
  split; [by apply Hgrammar|]. split; [done|].
  intros name Hname. specialize (Hr name Hname). lia.
Qed.

Lemma validated_definition_builds_witness :
  exists root_node w',
    instantiateTree 1 (document root_with_subtree) sample_factory world_after_unknown_action
    = (Returned root_node, w').
Proof.
  apply (validated_definition_builds 1 (document root_with_subtree) sample_factory
           world_after_unknown_action root_with_subtree "MainTree"
           (<["Sub" := element "BehaviorTree" [("ID", "Sub")] 8
                         [ element "Action" [("ID", "OpenGripper")] 9 [] ]]>
              (<["MainTree" := element "BehaviorTree" [("ID", "MainTree")] 2
                                 [ element "Sequence" [("name", "root_sequence")] 3
                                     [ element "Action" [("ID", "SayHello")] 4 [];
                                       element "SubTree" [("ID", "Sub")] 5 [] ] ]]> ∅))
           (fun ID => if String.eqb ID "MainTree" then 1 else 0)).
  - split; simpl; [repeat constructor | ].
    apply NoDup_cons. split; [apply not_elem_of_nil | apply NoDup_nil_2].
  - reflexivity.
  - reflexivity.
  - reflexivity.
  - reflexivity.
  - by eexists.
  - intros bt d Hbt. revert d. apply Forall_forall.
    vm_compute in Hbt.
    apply elem_of_cons in Hbt as [->|Hbt];
      [|apply list_elem_of_singleton in Hbt as ->];
      repeat constructor.
  - intros ID bt subtree_elem name Hbt Hfirst Href.
    destruct (collect_bt_roots_entry root_with_subtree _ _ _ eq_refl Hbt) as [Hin HID].
    vm_compute in Hin.
    apply elem_of_cons in Hin as [->|Hin];
      [|apply list_elem_of_singleton in Hin as ->];
      injection HID as <-; injection Hfirst as <-;
      vm_compute in Href.
    + apply list_elem_of_singleton in Href as ->. simpl. lia.
    + by apply elem_of_nil in Href.
  - simpl. lia.
Defined.

(** ** Subtree references are expanded (C8) *)






